(** * SPLATSTORM X asset pipeline: [tools/splat_to_atlas.py]

    A shallow embedding of the [SplatAtlasGenerator] class: the covariance
    builder, the atlas packer, the octree builder with its flattening, and
    the exporter, followed by the properties of the design document that
    were checked against them.

    Conventions of the embedding.
    - Python exceptions are the [Raise] case of [result]; every operation
      of the source that can raise is written with its raising case.
    - Python [int] is [Z]; [//] and [%] are [Z.div] and [Z.modulo] (both
      floor towards minus infinity, as in Python) guarded by
      [ZeroDivisionError].
    - Python [float] is an abstract type [F] with the operations of the
      class [Scalar].  Two instances are given: IEEE binary64
      ([float64_scalar], primitive floats, on which the definitions can be
      run) and the real numbers ([R_scalar], exact arithmetic, on which the
      algebraic properties are stated).  Numeric values read from the point
      cloud are taken to be floats.
    - [math.exp] is the C library's function and is a parameter of the
      rasteriser.
    - [struct.pack] uses the byte order of the machine, taken to be
      little-endian.
    - The output directory is a finite map from file names to contents;
      what a run prints is left out, except the packed count, which the
      packer returns. *)

From Stdlib Require Import ZArith Reals Lra Lia Floats.
From Stdlib.Strings Require Import Byte.
From stdpp Require Import base list strings gmap pretty sorting.

Open Scope Z_scope.

(** ** Exceptions *)

Inductive exn : Set :=
| ZeroDivisionError
| ValueError
| OverflowError
| IndexError
| KeyError
| StructError.

Inductive result (A : Type) : Type :=
| Ok (a : A)
| Raise (e : exn).
Arguments Ok {A} a.
Arguments Raise {A} e.

Definition bind {A B} (m : result A) (k : A -> result B) : result B :=
  match m with
  | Ok a => k a
  | Raise e => Raise e
  end.

Notation "x <- e ;; k" := (bind e (fun x => k))
  (at level 100, e at next level, right associativity).

Definition is_ok {A} (m : result A) : Prop := exists a, m = Ok a.

(** [for x in xs: acc = body(acc, x)], stopping at the first exception. *)
Fixpoint foldM {A S} (body : S -> A -> result S) (xs : list A) (acc : S)
  : result S :=
  match xs with
  | [] => Ok acc
  | x :: xs' => acc' <- body acc x ;; foldM body xs' acc'
  end.

(** [[f(x) for x in xs]], stopping at the first exception. *)
Fixpoint mapM {A B} (f : A -> result B) (xs : list A) : result (list B) :=
  match xs with
  | [] => Ok []
  | x :: xs' => y <- f x ;; ys <- mapM f xs' ;; Ok (y :: ys)
  end.

(** [range(n)] for a Python int [n]: empty when [n <= 0]. *)
Definition py_range (n : Z) : list Z := Z.of_nat <$> seq 0 (Z.to_nat n).

Definition py_floordiv (a b : Z) : result Z :=
  if decide (b = 0) then Raise ZeroDivisionError else Ok (a / b).

Definition py_mod (a b : Z) : result Z :=
  if decide (b = 0) then Raise ZeroDivisionError else Ok (a mod b).

(** Position of index [i] in a sequence of length [len], negative indices
    counting from the end. *)
Definition py_index (len : nat) (i : Z) : result nat :=
  let j := if decide (i < 0) then i + Z.of_nat len else i in
  if decide (0 <= j < Z.of_nat len) then Ok (Z.to_nat j) else Raise IndexError.

(** [xs[i]]. *)
Definition py_getitem {A} (xs : list A) (i : Z) : result A :=
  k <- py_index (length xs) i ;;
  match xs !! k with
  | Some x => Ok x
  | None => Raise IndexError
  end.

(** The list [xs] after the object [xs[i]] was mutated into [v]. *)
Definition py_mutated {A} (xs : list A) (i : Z) (v : A) : list A :=
  match py_index (length xs) i with
  | Ok k => <[k := v]> xs
  | Raise _ => xs
  end.

(** ** Floating-point interface *)

Class Scalar (F : Type) := {
  float_of_int : Z -> F;          (* implicit int -> float conversion *)
  float_1_1 : F;                  (* the literal [1.1] *)
  fadd : F -> F -> F;
  fsub : F -> F -> F;
  fmul : F -> F -> F;
  fdiv : F -> F -> F;             (* quotient, divisor not zero *)
  fsqrt : F -> F;                 (* square root, argument not negative *)
  feqb : F -> F -> bool;          (* [==] *)
  fltb : F -> F -> bool;          (* [<]  *)
  fleb : F -> F -> bool;          (* [<=] *)
  fis_nan : F -> bool;
  int_of_float : F -> result Z;   (* [int(x)]: truncation towards zero *)
}.

Declare Scope py_scope.
Delimit Scope py_scope with py.
Notation "a + b" := (fadd a b) : py_scope.
Notation "a - b" := (fsub a b) : py_scope.
Notation "a * b" := (fmul a b) : py_scope.
Notation "a / b" := (fdiv a b) : py_scope.
Notation "a == b" := (feqb a b) (at level 70, no associativity) : py_scope.
Notation "a < b" := (fltb a b) : py_scope.
Notation "a <= b" := (fleb a b) : py_scope.
Notation "a > b" := (fltb b a) (only parsing) : py_scope.
Notation "a >= b" := (fleb b a) (only parsing) : py_scope.
Notation "# n" := (float_of_int n) (at level 5, n at level 0, format "# n") : py_scope.

Section Numeric.
Context {F : Type} `{Scalar F}.
Local Open Scope py_scope.

(** [a / b] on floats. *)
Definition py_truediv (a b : F) : result F :=
  if b == #0 then Raise ZeroDivisionError else Ok (a / b).

(** [math.sqrt]. *)
Definition math_sqrt (x : F) : result F :=
  if x < #0 then Raise ValueError else Ok (fsqrt x).

(** The builtin [max] of a three-element list: the first maximal item. *)
Definition py_max3 (v : F * F * F) : F :=
  let '(a, b, c) := v in
  let m := if b > a then b else a in
  if c > m then c else m.

(** [np.minimum] and [np.maximum]: a NaN operand is returned. *)
Definition np_minimum (a b : F) : F :=
  if fis_nan a then a else if fis_nan b then b else if b < a then b else a.
Definition np_maximum (a b : F) : F :=
  if fis_nan a then a else if fis_nan b then b else if b > a then b else a.

Definition vec3 : Type := F * F * F.
Definition quat : Type := F * F * F * F.
Definition mat3 : Type := vec3 * vec3 * vec3.
Definition cov6 : Type := F * F * F * F * F * F.

Definition np_diag (v : vec3) : mat3 :=
  let '(a, b, c) := v in
  ((a, #0, #0), (#0, b, #0), (#0, #0, c)).

Definition np_transpose (m : mat3) : mat3 :=
  let '((a00, a01, a02), (a10, a11, a12), (a20, a21, a22)) := m in
  ((a00, a10, a20), (a01, a11, a21), (a02, a12, a22)).

Definition dot3 (r c : vec3) : F :=
  let '(r0, r1, r2) := r in
  let '(c0, c1, c2) := c in
  r0 * c0 + r1 * c1 + r2 * c2.

(** [np.dot] of two 3x3 matrices; each entry is summed left to right.
    (A NumPy that hands the product to a BLAS may fuse or reorder the sums,
    which changes the last bits in binary64 and nothing in exact
    arithmetic.) *)
Definition np_dot (a b : mat3) : mat3 :=
  let '(a0, a1, a2) := a in
  let '(b0, b1, b2) := np_transpose b in
  ((dot3 a0 b0, dot3 a0 b1, dot3 a0 b2),
   (dot3 a1 b0, dot3 a1 b1, dot3 a1 b2),
   (dot3 a2 b0, dot3 a2 b1, dot3 a2 b2)).

(** The rotation matrix written out in the source. *)
Definition rotation_matrix (q : quat) : mat3 :=
  let '(qx, qy, qz, qw) := q in
  ((#1 - #2 * (qy * qy + qz * qz), #2 * (qx * qy - qz * qw), #2 * (qx * qz + qy * qw)),
   (#2 * (qx * qy + qz * qw), #1 - #2 * (qx * qx + qz * qz), #2 * (qy * qz - qx * qw)),
   (#2 * (qx * qz - qy * qw), #2 * (qy * qz + qx * qw), #1 - #2 * (qx * qx + qy * qy))).

(** The quaternion after the [if norm > 0] step. *)
Definition normalize_quat (rot : quat) : result quat :=
  let '(qx, qy, qz, qw) := rot in
  norm <- math_sqrt (qx * qx + qy * qy + qz * qz + qw * qw) ;;
  if norm > #0 then
    qx' <- py_truediv qx norm ;;
    qy' <- py_truediv qy norm ;;
    qz' <- py_truediv qz norm ;;
    qw' <- py_truediv qw norm ;;
    Ok (qx', qy', qz', qw')
  else Ok (qx, qy, qz, qw).

Definition upper_triangle (cov : mat3) : cov6 :=
  let '((c00, c01, c02), (_, c11, c12), (_, _, c22)) := cov in
  (c00, c01, c02, c11, c12, c22).

Definition _compute_covariance_from_scale_rot (scale : vec3) (rot : quat)
  : result cov6 :=
  q <- normalize_quat rot ;;
  let R := rotation_matrix q in
  let S := np_diag scale in
  let RS := np_dot R S in
  let cov := np_dot RS (np_transpose RS) in
  Ok (upper_triangle cov).

End Numeric.

(** ** Splats and the generator object *)

Section Pipeline.
Context {F : Type} `{Scalar F}.

(** The four keys ['atlas_layer'], ['atlas_u'], ['atlas_v'] and
    ['atlas_size'] that the packer adds to a splat; it adds all four
    together. *)
Record atlas_coords := {
  a_layer : Z;
  a_u : F;
  a_v : F;
  a_size : F;
}.

(** The dictionary built by [_convert_vertex_to_splat]; [atlas] is [None]
    as long as the four atlas keys are absent. *)
Record splat := {
  pos : vec3 (F := F);
  color : vec3 (F := F);
  alpha : F;
  covariance : cov6 (F := F);
  scale : vec3 (F := F);
  rotation : quat (F := F);
  atlas : option atlas_coords;
}.

Definition set_atlas (a : atlas_coords) (s : splat) : splat :=
  {| pos := pos s; color := color s; alpha := alpha s;
     covariance := covariance s; scale := scale s;
     rotation := rotation s; atlas := Some a |}.

(** The fields of [SplatAtlasGenerator] set by [__init__] and [main]. *)
Record SplatAtlasGenerator := {
  splats : list splat;
  atlas_size : Z;
  atlas_layers : Z;
  octree_size : Z;
  max_octree_depth : Z;
}.

Definition with_splats (self : SplatAtlasGenerator) (l : list splat)
  : SplatAtlasGenerator :=
  {| splats := l; atlas_size := atlas_size self;
     atlas_layers := atlas_layers self; octree_size := octree_size self;
     max_octree_depth := max_octree_depth self |}.

(** ** Atlas packer *)

(** One RGBA pixel of a [uint8] array and one atlas layer, row major. *)
Definition pixel : Type := Z * Z * Z * Z.
Definition atlas_image : Type := list (list pixel).

(** [np.zeros((n, n, 4), dtype=np.uint8)]; a negative dimension raises. *)
Definition np_zeros (n : Z) : result atlas_image :=
  if decide (n < 0) then Raise ValueError
  else Ok (replicate (Z.to_nat n) (replicate (Z.to_nat n) (0, 0, 0, 0))).

(** Storing a Python int into a [uint8] array element, as NumPy 2 does it:
    a value outside 0..255 raises (earlier versions wrapped it around). *)
Definition to_uint8 (v : Z) : result Z :=
  if decide (0 <= v <= 255) then Ok v else Raise OverflowError.

(** [atlas[row, col] = [r, g, b, a]]. *)
Definition np_setitem (a : atlas_image) (row col : Z) (p : pixel)
  : result atlas_image :=
  let '(r, g, b, al) := p in
  i <- py_index (length a) row ;;
  match a !! i with
  | None => Raise IndexError
  | Some line =>
      j <- py_index (length line) col ;;
      r' <- to_uint8 r ;;
      g' <- to_uint8 g ;;
      b' <- to_uint8 b ;;
      al' <- to_uint8 al ;;
      Ok (<[i := <[j := (r', g', b', al')]> line]> a)
  end.

Section Rasteriser.
Variable math_exp : F -> F.

(** Body of the two nested loops of [_render_splat_to_atlas];
    [sigma ** 2] is written as the product. *)
Definition render_pixel (self : SplatAtlasGenerator) (x y size : Z)
    (s : splat) (center : Z) (sigma : F) (dy dx : Z) (a : atlas_image)
  : result atlas_image :=
  let dist_sq := (dx - center) ^ 2 + (dy - center) ^ 2 in
  e <- py_truediv (float_of_int (- dist_sq)) (#2 * (sigma * sigma))%py ;;
  let weight := math_exp e in
  let '(c0, c1, c2) := color s in
  r <- int_of_float (c0 * #255)%py ;;
  g <- int_of_float (c1 * #255)%py ;;
  b <- int_of_float (c2 * #255)%py ;;
  al <- int_of_float (alpha s * weight * #255)%py ;;
  let atlas_x := x + dx in
  let atlas_y := y + dy in
  if decide (atlas_x < atlas_size self /\ atlas_y < atlas_size self)
  then np_setitem a atlas_y atlas_x (r, g, b, al)
  else Ok a.

Definition _render_splat_to_atlas (self : SplatAtlasGenerator)
    (a : atlas_image) (x y size : Z) (s : splat) : result atlas_image :=
  let center := size / 2 in
  sigma <- py_truediv (float_of_int size) (float_of_int 6) ;;
  foldM (fun a dy =>
           foldM (fun a dx => render_pixel self x y size s center sigma dy dx a)
                 (py_range size) a)
        (py_range size) a.

(** [sorted(..., key=lambda s: max(s['scale']), reverse=True)]: a stable
    sort in descending key order, written as an insertion sort (with a NaN
    among the keys the order Python produces depends on its merge strategy;
    the properties below use only that the result is a permutation).  The
    sorted list holds references to the records of [self.splats]; a
    reference is the position of the record in [self.splats], paired
    with the record for reading the fields that are never assigned after
    the record was built ([scale], [color], [alpha]). *)
Definition sort_key (e : nat * splat) : F := py_max3 (scale e.2).

Fixpoint insert_desc (x : nat * splat) (l : list (nat * splat))
  : list (nat * splat) :=
  match l with
  | [] => [x]
  | y :: l' => if (sort_key x < sort_key y)%py
               then y :: insert_desc x l'
               else x :: y :: l'
  end.

Definition sorted_desc (l : list (nat * splat)) : list (nat * splat) :=
  foldr insert_desc [] l.

Definition enumerate {A} (l : list A) : list (nat * A) :=
  imap (fun i x => (i, x)) l.

(** State of the packing loop: the records of [self.splats], the atlas
    layers, and [packed_count]. *)
Record pack_state := {
  ps_splats : list splat;
  ps_atlases : list atlas_image;
  packed_count : Z;
}.

(** [max(8, min(64, int(max(splat['scale']) * 100)))]. *)
Definition splat_size_px (s : splat) : result Z :=
  tile <- int_of_float (py_max3 (scale s) * #100)%py ;;
  Ok (Z.max 8 (Z.min 64 tile)).

(** [(grid_x, grid_y)] of the [i]-th sorted splat. *)
Definition grid_cell (self : SplatAtlasGenerator) (i splat_size : Z)
  : result (Z * Z) :=
  grid_size <- py_floordiv (atlas_size self) splat_size ;;
  q <- py_floordiv i (atlas_layers self) ;;
  grid_x <- py_mod q grid_size ;;
  q' <- py_floordiv q grid_size ;;
  grid_y <- py_mod q' grid_size ;;
  Ok (grid_x, grid_y).

(** Body of [for i, splat in enumerate(sorted_splats)]. *)
Definition pack_step (self : SplatAtlasGenerator) (st : pack_state)
    (e : Z * (nat * splat)) : result pack_state :=
  let '(i, (ref, s)) := e in
  layer <- py_mod i (atlas_layers self) ;;
  splat_size <- splat_size_px s ;;
  cell <- grid_cell self i splat_size ;;
  let '(grid_x, grid_y) := cell in
  if decide (grid_y * splat_size + splat_size <= atlas_size self) then
    let x := grid_x * splat_size in
    let y := grid_y * splat_size in
    a <- py_getitem (ps_atlases st) layer ;;
    a' <- _render_splat_to_atlas self a x y splat_size s ;;
    u <- py_truediv (float_of_int x) (float_of_int (atlas_size self)) ;;
    v <- py_truediv (float_of_int y) (float_of_int (atlas_size self)) ;;
    sz <- py_truediv (float_of_int splat_size) (float_of_int (atlas_size self)) ;;
    let coords := {| a_layer := layer; a_u := u; a_v := v; a_size := sz |} in
    Ok {| ps_splats := alter (set_atlas coords) ref (ps_splats st);
          ps_atlases := py_mutated (ps_atlases st) layer a';
          packed_count := packed_count st + 1 |}
  else Ok st.

(** Returns the atlas layers, the generator with the records as the
    packer left them, and the [packed_count] it prints. *)
Definition generate_texture_atlas (self : SplatAtlasGenerator)
  : result (SplatAtlasGenerator * list atlas_image * Z) :=
  atlases <- mapM (fun _ => np_zeros (atlas_size self))
                  (py_range (atlas_layers self)) ;;
  let sorted_splats := sorted_desc (enumerate (splats self)) in
  st <- foldM (pack_step self)
              (imap (fun i e => (Z.of_nat i, e)) sorted_splats)
              {| ps_splats := splats self; ps_atlases := atlases;
                 packed_count := 0 |} ;;
  Ok (with_splats self (ps_splats st), ps_atlases st, packed_count st).

End Rasteriser.

(** ** Octree builder *)

Definition v3_map2 (f : F -> F -> F) (a b : vec3) : vec3 (F := F) :=
  let '(a0, a1, a2) := a in
  let '(b0, b1, b2) := b in
  (f a0 b0, f a1 b1, f a2 b2).

(** Array with scalar, broadcast. *)
Definition v3_scalar (f : F -> F -> F) (a : vec3) (k : F) : vec3 (F := F) :=
  let '(a0, a1, a2) := a in (f a0 k, f a1 k, f a2 k).

(** [np.min(positions, axis=0)] and [np.max(positions, axis=0)] of a
    non-empty list of points. *)
Definition np_min_axis0 (p : vec3) (ps : list vec3) : vec3 (F := F) :=
  foldl (v3_map2 np_minimum) p ps.
Definition np_max_axis0 (p : vec3) (ps : list vec3) : vec3 (F := F) :=
  foldl (v3_map2 np_maximum) p ps.

(** [np.max] of a three-element array. *)
Definition np_max3 (v : vec3) : F :=
  let '(a, b, c) := v in np_maximum (np_maximum a b) c.

(** The pair [(min_pos, max_pos)] handed to the root of the octree. *)
Definition root_bounds (p : vec3) (ps : list vec3) : vec3 (F := F) * vec3 (F := F) :=
  let min_pos := np_min_axis0 p ps in
  let max_pos := np_max_axis0 p ps in
  let center := v3_scalar fdiv (v3_map2 fadd min_pos max_pos) (float_of_int 2) in
  let size := (np_max3 (v3_map2 fsub max_pos min_pos) * float_1_1)%py in
  let half := (size / #2)%py in
  (v3_scalar fsub center half, v3_scalar fadd center half).

Definition bounds_list (min_pos max_pos : vec3) : list F :=
  let '(a0, a1, a2) := min_pos in
  let '(b0, b1, b2) := max_pos in
  [a0; a1; a2; b0; b1; b2].

(** The dictionaries returned by [_build_octree_recursive]. *)
Local Unset Elimination Schemes.
Inductive octree_node : Type :=
| Leaf (splat_indices : list Z) (bounds : list F)
| Internal (children : list (option octree_node)) (bounds : list F).
Local Set Elimination Schemes.

(** [oct_min] and [oct_max] of one octant. *)
Definition octant_bounds (min_pos max_pos center : vec3) (octant : Z)
  : vec3 (F := F) * vec3 (F := F) :=
  let '(n0, n1, n2) := min_pos in
  let '(x0, x1, x2) := max_pos in
  let '(c0, c1, c2) := center in
  let bit k := negb (Z.land octant k =? 0) in
  ((if bit 1 then c0 else n0, if bit 2 then c1 else n1, if bit 4 then c2 else n2),
   (if bit 1 then x0 else c0, if bit 2 then x1 else c1, if bit 4 then x2 else c2)).

(** The test of the inner loop: all six comparisons are inclusive. *)
Definition in_octant (p oct_min oct_max : vec3) : bool :=
  let '(p0, p1, p2) := p in
  let '(n0, n1, n2) := oct_min in
  let '(x0, x1, x2) := oct_max in
  (p0 >= n0)%py && (p0 <= x0)%py &&
  (p1 >= n1)%py && (p1 <= x1)%py &&
  (p2 >= n2)%py && (p2 <= x2)%py.

(** The list [octant_splats] collected by the inner loop. *)
Definition octant_splats (self : SplatAtlasGenerator) (splat_indices : list Z)
    (oct_min oct_max : vec3) : result (list Z) :=
  foldM (fun acc idx =>
           s <- py_getitem (splats self) idx ;;
           if in_octant (pos s) oct_min oct_max
           then Ok (acc ++ [idx]) else Ok acc)
        splat_indices [].

(** [_build_octree_recursive].  The recursion is on
    [remaining = max_octree_depth - depth], cut at zero: the source's
    test [depth >= self.max_octree_depth] is [remaining = 0], and each
    recursive call has [depth + 1]. *)
Fixpoint _build_octree_recursive (self : SplatAtlasGenerator)
    (remaining : nat) (splat_indices : list Z) (min_pos max_pos : vec3)
  : result octree_node :=
  match remaining with
  | O => Ok (Leaf (take 8 splat_indices) (bounds_list min_pos max_pos))
  | S remaining' =>
      if decide (length splat_indices <= 8)%nat
      then Ok (Leaf (take 8 splat_indices) (bounds_list min_pos max_pos))
      else
        let center := v3_scalar fdiv (v3_map2 fadd min_pos max_pos) (float_of_int 2) in
        children <-
          mapM (fun octant =>
                  let '(oct_min, oct_max) :=
                    octant_bounds min_pos max_pos center octant in
                  inside <- octant_splats self splat_indices oct_min oct_max ;;
                  match inside with
                  | [] => Ok None
                  | _ :: _ =>
                      child <- _build_octree_recursive self remaining'
                                 inside oct_min oct_max ;;
                      Ok (Some child)
                  end)
               (py_range 8) ;;
        Ok (Internal children (bounds_list min_pos max_pos))
  end.

(** The dictionaries appended to the flattened array. *)
Inductive flat_node : Type :=
| FlatLeaf (splat_count : Z) (splat_indices : list Z) (bounds : list F)
| FlatInternal (child_offsets : list Z) (bounds : list F).

(** [array[node_index]['child_offsets'][i] = v]. *)
Definition set_child_offset (array : list flat_node) (node_index i v : Z)
  : result (list flat_node) :=
  n <- py_getitem array node_index ;;
  match n with
  | FlatLeaf _ _ _ => Raise KeyError
  | FlatInternal offsets b =>
      k <- py_index (length offsets) i ;;
      Ok (py_mutated array node_index (FlatInternal (<[k := v]> offsets) b))
  end.

(** The loop [for i, child in enumerate(node['children'])] of
    [_flatten_octree], from child [i] on; [flatten] is the recursive call. *)
Fixpoint children_loop
    (flatten : octree_node -> list flat_node -> result (Z * list flat_node))
    (node_index : Z) (children : list (option octree_node)) (i : Z)
    (array : list flat_node) : result (list flat_node) :=
  match children with
  | [] => Ok array
  | child :: children' =>
      array' <-
        match child with
        | Some c =>
            r <- flatten c array ;;
            set_child_offset r.2 node_index i r.1
        | None => set_child_offset array node_index i (-1)
        end ;;
      children_loop flatten node_index children' (i + 1) array'
  end.

(** [_flatten_octree] on a node that is not [None]: returns [node_index]
    and the array after the appends and the back-patching. *)
Fixpoint flatten_node (node : octree_node) (array : list flat_node)
  : result (Z * list flat_node) :=
  let node_index := Z.of_nat (length array) in
  match node with
  | Leaf idxs b =>
      let count := Z.of_nat (length idxs) in
      Ok (node_index,
          array ++ [FlatLeaf count (idxs ++ replicate (Z.to_nat (8 - count)) 0) b])
  | Internal children b =>
      array' <- children_loop flatten_node node_index children 0
                  (array ++ [FlatInternal (replicate 8 0) b]) ;;
      Ok (node_index, array')
  end.

Definition _flatten_octree (node : option octree_node) (array : list flat_node)
  : result (Z * list flat_node) :=
  match node with
  | None => Ok (-1, array)
  | Some n => flatten_node n array
  end.

(** [build_octree_index]: [None] for an empty splat list. *)
Definition build_octree_index (self : SplatAtlasGenerator)
  : result (option (list flat_node)) :=
  match pos <$> splats self with
  | [] => Ok None
  | p :: ps =>
      let '(min_pos, max_pos) := root_bounds p ps in
      root <- _build_octree_recursive self
                (Z.to_nat (max_octree_depth self - 0))
                (py_range (Z.of_nat (length (splats self)))) min_pos max_pos ;;
      r <- _flatten_octree (Some root) [] ;;
      Ok (Some r.2)
  end.

End Pipeline.

(** ** Binary formats and files *)

Definition byte_of_Z (z : Z) : Byte.byte :=
  default Byte.x00 (Byte.of_N (Z.to_N (z mod 256))).

(** [n] bytes of [v], least significant first. *)
Fixpoint le_bytes (n : nat) (v : Z) : list Byte.byte :=
  match n with
  | O => []
  | S n' => byte_of_Z v :: le_bytes n' (v / 256)
  end.

(** [struct.pack] with the formats ['B'], ['I'] and ['i']. *)
Definition pack_B (v : Z) : result (list Byte.byte) :=
  if decide (0 <= v < 2 ^ 8) then Ok (le_bytes 1 v) else Raise StructError.
Definition pack_I (v : Z) : result (list Byte.byte) :=
  if decide (0 <= v < 2 ^ 32) then Ok (le_bytes 4 v) else Raise StructError.
Definition pack_i (v : Z) : result (list Byte.byte) :=
  if decide (- 2 ^ 31 <= v < 2 ^ 31) then Ok (le_bytes 4 v) else Raise StructError.

(** [struct.pack('f', x)]: four bytes, or an exception when [x] does not
    fit the single-precision format. *)
Class Pack32 (F : Type) := {
  pack_f : F -> result (list Byte.byte);
  pack_f_length : forall x bs, pack_f x = Ok bs -> length bs = 4%nat;
}.

(** The output directory: file name to file content. *)
Abbreviation filesystem := (gmap string (list Byte.byte)).

(** What a [with open(...) as f] block wrote before it ended, and how it
    ended. *)
Definition writer : Type := list Byte.byte * result unit.

Definition w_write (bs : result (list Byte.byte)) : writer :=
  match bs with
  | Ok b => (b, Ok tt)
  | Raise e => ([], Raise e)
  end.

Definition w_seq (a b : writer) : writer :=
  match a.2 with
  | Ok _ => (a.1 ++ b.1, b.2)
  | Raise e => (a.1, Raise e)
  end.

Fixpoint w_for {A} (xs : list A) (body : A -> writer) : writer :=
  match xs with
  | [] => ([], Ok tt)
  | x :: xs' => w_seq (body x) (w_for xs' body)
  end.

(** Steps of [export_assets]: the files of the output directory are
    threaded through, and survive an exception. *)
Definition io (A : Type) : Type := filesystem -> result A * filesystem.

Definition io_ret {A} (a : A) : io A := fun fs => (Ok a, fs).

Definition io_lift {A} (r : result A) : io A := fun fs => (r, fs).

Definition io_bind {A B} (m : io A) (k : A -> io B) : io B :=
  fun fs =>
    match m fs with
    | (Ok a, fs') => k a fs'
    | (Raise e, fs') => (Raise e, fs')
    end.

Notation "x <~ e ;; k" := (io_bind e (fun x => k))
  (at level 100, e at next level, right associativity).

Fixpoint io_for {A} (xs : list A) (body : A -> io unit) : io unit :=
  match xs with
  | [] => io_ret tt
  | x :: xs' => _ <~ body x ;; io_for xs' body
  end.

(** [with open(name, 'wb') as f: body] (and ['w'] for the metadata): the
    file is created or truncated, and holds what the body wrote. *)
Definition open_wb (name : string) (body : writer) : io unit :=
  fun fs => (body.2, <[name := body.1]> fs).

(** [f"atlas_t{i}.raw"]. *)
Definition atlas_name (i : nat) : string := "atlas_t" +:+ pretty i +:+ ".raw".

Definition newline : string := String (Ascii.ascii_of_nat 10) EmptyString.
Definition dquote : string := String (Ascii.ascii_of_nat 34) EmptyString.

Section Exporter.
Context {F : Type} `{Scalar F} `{Pack32 F}.
Variable math_exp : F -> F.

(** [struct.pack] with a format of several ['f']. *)
Definition pack_floats (xs : list F) : result (list Byte.byte) :=
  bss <- mapM pack_f xs ;; Ok (concat bss).

(** [atlas[y, x]]. *)
Definition np_getitem (a : atlas_image) (row col : Z) : result pixel :=
  i <- py_index (length a) row ;;
  match a !! i with
  | None => Raise IndexError
  | Some line => py_getitem line col
  end.

Definition pack_BBBB (p : pixel) : result (list Byte.byte) :=
  let '(r, g, b, a) := p in
  r' <- pack_B r ;; g' <- pack_B g ;; b' <- pack_B b ;; a' <- pack_B a ;;
  Ok (r' ++ g' ++ b' ++ a').

Definition atlas_writer (self : SplatAtlasGenerator (F := F))
    (a : atlas_image) : writer :=
  w_for (py_range (atlas_size self)) (fun y =>
    w_for (py_range (atlas_size self)) (fun x =>
      w_write (p <- np_getitem a y x ;; pack_BBBB p))).

Definition octree_node_writer (node : flat_node (F := F)) : writer :=
  w_seq
    match node with
    | FlatLeaf count idxs _ =>
        w_seq (w_write (pack_I 1))
          (w_seq (w_write (pack_I count))
             (w_for idxs (fun idx => w_write (pack_I idx))))
    | FlatInternal offsets _ =>
        w_seq (w_write (pack_I 0))
          (w_seq (w_write (pack_I 0))
             (w_for offsets (fun offset => w_write (pack_i offset))))
    end
    (w_for match node with
           | FlatLeaf _ _ b => b
           | FlatInternal _ b => b
           end (fun bound => w_write (pack_f bound))).

Definition octree_writer (self : SplatAtlasGenerator (F := F))
    (octree : list flat_node) : writer :=
  w_seq (w_write (pack_I (Z.of_nat (length octree))))
    (w_seq (w_write (pack_I (max_octree_depth self)))
       (w_for octree octree_node_writer)).

(** The record of one splat in [scene.splat]. *)
Definition splat_writer (s : splat (F := F)) : writer :=
  let '(p0, p1, p2) := pos s in
  let '(c0, c1, c2, c3, c4, c5) := covariance s in
  let '(r, g, b) := color s in
  let '(u, v, sz, layer) :=
    match atlas s with
    | Some a => (a_u a, a_v a, a_size a, a_layer a)
    | None => (float_of_int 0, float_of_int 0, float_of_int 0, 0)
    end in
  w_seq (w_write (pack_floats [p0; p1; p2]))
    (w_seq (w_write (pack_f (float_of_int 0)))
       (w_seq (w_write (pack_floats [c0; c1; c2; c3; c4; c5]))
          (w_seq (w_write (pack_floats [float_of_int 0; float_of_int 0]))
             (w_seq (w_write (pack_floats [r; g; b; alpha s]))
                (w_write (pack_floats [u; v; sz; float_of_int layer])))))).

Definition SPLT_magic : Z := 0x53504C54.

Definition scene_writer (self : SplatAtlasGenerator (F := F)) : writer :=
  w_seq (w_write (pack_I (Z.of_nat (length (splats self)))))
    (w_seq (w_write (pack_I SPLT_magic))
       (w_for (splats self) splat_writer)).

(** [json.dump(metadata, f, indent=2)]. *)
Definition metadata_json (self : SplatAtlasGenerator (F := F))
    (octree : option (list (flat_node (F := F)))) : string :=
  let entry k (v : Z) := "  " +:+ dquote +:+ k +:+ dquote +:+ ": " +:+ pretty v in
  let octree_nodes :=
    match octree with
    | Some (n :: l) => Z.of_nat (length (n :: l))
    | _ => 0
    end in
  "{" +:+ newline
  +:+ entry "splat_count" (Z.of_nat (length (splats self))) +:+ "," +:+ newline
  +:+ entry "atlas_size" (atlas_size self) +:+ "," +:+ newline
  +:+ entry "atlas_layers" (atlas_layers self) +:+ "," +:+ newline
  +:+ entry "octree_nodes" octree_nodes +:+ "," +:+ newline
  +:+ entry "octree_depth" (max_octree_depth self) +:+ newline
  +:+ "}".

(** [export_assets]; the creation of the output directory is left
    out.  The generator after the call carries the atlas coordinates the
    packer stored in the splat records. *)
Definition export_assets (self : SplatAtlasGenerator (F := F))
  : io (SplatAtlasGenerator (F := F)) :=
  packed <~ io_lift (generate_texture_atlas math_exp self) ;;
  let self := packed.1.1 in
  let atlases := packed.1.2 in
  _ <~ io_for (enumerate atlases) (fun e =>
         open_wb (atlas_name e.1) (atlas_writer self e.2)) ;;
  octree <~ io_lift (build_octree_index self) ;;
  _ <~ match octree with
       | Some (n :: l) => open_wb "octree.idx" (octree_writer self (n :: l))
       | _ => io_ret tt
       end ;;
  _ <~ open_wb "scene.splat" (scene_writer self) ;;
  _ <~ open_wb "metadata.json"
         (w_write (Ok (String.list_byte_of_string (metadata_json self octree)))) ;;
  io_ret self.

End Exporter.

(** ** The two number systems *)

(** *** IEEE binary64 *)

Definition f64_of_Z (z : Z) : float :=
  SF2Prim (binary_normalize prec emax z 0 false).

(** [int(x)]: NaN and the infinities raise. *)
Definition f64_int (x : float) : result Z :=
  match Prim2SF x with
  | S754_zero _ => Ok 0
  | S754_nan => Raise ValueError
  | S754_infinity _ => Raise OverflowError
  | S754_finite s m e =>
      let a := if 0 <=? e then Z.shiftl (Z.pos m) e else Z.shiftr (Z.pos m) (- e) in
      Ok (if s then - a else a)
  end.

#[export] Instance float64_scalar : Scalar float := {|
  float_of_int := f64_of_Z;
  float_1_1 := 0x1.199999999999ap+0%float;
  fadd := PrimFloat.add;
  fsub := PrimFloat.sub;
  fmul := PrimFloat.mul;
  fdiv := PrimFloat.div;
  fsqrt := PrimFloat.sqrt;
  feqb := PrimFloat.eqb;
  fltb := PrimFloat.ltb;
  fleb := PrimFloat.leb;
  fis_nan := PrimFloat.is_nan;
  int_of_float := f64_int;
|}.

(** The bits of a number already rounded to binary32. *)
Definition f32_bits (x : spec_float) : Z :=
  let sign (s : bool) := if s then 2 ^ 31 else 0 in
  match x with
  | S754_zero s => sign s
  | S754_infinity s => sign s + 0x7F800000
  | S754_nan => 0x7FC00000
  | S754_finite s m e =>
      sign s + (if Z.pos m <? 2 ^ 23 then Z.pos m
                else (e + 150) * 2 ^ 23 + (Z.pos m - 2 ^ 23))
  end.

(** [struct.pack('f', x)]: round to nearest even; a finite number that
    rounds to an infinity raises. *)
Definition f64_pack_f (x : float) : result (list Byte.byte) :=
  match Prim2SF x with
  | S754_finite s m e =>
      match binary_round 24 128 s m e with
      | S754_infinity _ => Raise OverflowError
      | y => Ok (le_bytes 4 (f32_bits y))
      end
  | y => Ok (le_bytes 4 (f32_bits y))
  end.

Lemma f64_pack_f_length (x : float) (bs : list Byte.byte) :
  f64_pack_f x = Ok bs -> length bs = 4%nat.
Proof.
  unfold f64_pack_f.
  destruct (Prim2SF x) as [s| s| |s m e]; try (intros [= <-]; reflexivity).
  destruct (binary_round 24 128 s m e); intros [= <-]; reflexivity.
Qed.

#[export] Instance float64_pack : Pack32 float := {|
  pack_f := f64_pack_f;
  pack_f_length := f64_pack_f_length;
|}.

(** *** Real numbers *)

Definition R_int (x : R) : Z :=
  if Rle_dec 0 x then Int_part x else - Int_part (- x).

#[export] Instance R_scalar : Scalar R := {|
  float_of_int := IZR;
  float_1_1 := (11 / 10)%R;
  fadd := Rplus;
  fsub := Rminus;
  fmul := Rmult;
  fdiv := Rdiv;
  fsqrt := R_sqrt.sqrt;
  feqb a b := if Req_dec_T a b then true else false;
  fltb a b := if Rlt_dec a b then true else false;
  fleb a b := if Rle_dec a b then true else false;
  fis_nan _ := false;
  int_of_float x := Ok (R_int x);
|}.


(** ** Vocabulary of the statements *)

(** The symmetric matrix that a consumer rebuilds from the six values. *)
Definition sym_of_cov6 {F} (c : cov6 (F := F)) : mat3 (F := F) :=
  let '(xx, xy, xz, yy, yz, zz) := c in
  ((xx, xy, xz), (xy, yy, yz), (xz, yz, zz)).

Definition mat_vec {F} `{Scalar F} (m : mat3) (v : vec3) : vec3 (F := F) :=
  let '(r0, r1, r2) := m in (dot3 r0 v, dot3 r1 v, dot3 r2 v).

(** [v^T m v]. *)
Definition quad_form {F} `{Scalar F} (m : mat3) (v : vec3) : F :=
  dot3 v (mat_vec m v).

(** The quaternion divided by its norm, or itself when the norm is zero. *)
Definition unit_quat (rot : quat (F := R)) : quat (F := R) :=
  let '(qx, qy, qz, qw) := rot in
  let norm := R_sqrt.sqrt (qx * qx + qy * qy + qz * qz + qw * qw)%R in
  if Rlt_dec 0 norm
  then (qx / norm, qy / norm, qz / norm, qw / norm)%R
  else rot.

(** The product of two quaternions, written (x, y, z, w), the conjugate,
    and the rotation [q v q*] of a vector by a quaternion. *)
Definition quat_mul (a b : quat (F := R)) : quat (F := R) :=
  let '(ax, ay, az, aw) := a in
  let '(bx, by_, bz, bw) := b in
  (aw * bx + ax * bw + ay * bz - az * by_,
   aw * by_ - ax * bz + ay * bw + az * bx,
   aw * bz + ax * by_ - ay * bx + az * bw,
   aw * bw - ax * bx - ay * by_ - az * bz)%R.

Definition quat_conj (q : quat (F := R)) : quat (F := R) :=
  let '(x, y, z, w) := q in (- x, - y, - z, w)%R.

Definition rotate (q : quat (F := R)) (v : vec3 (F := R)) : vec3 (F := R) :=
  let '(v0, v1, v2) := v in
  let '(x, y, z, _) := quat_mul (quat_mul q (v0, v1, v2, 0%R)) (quat_conj q) in
  (x, y, z).

(** The images of the three axes under the rotation of the normalised
    quaternion: the columns of its rotation matrix [R].  A quaternion of
    norm zero rotates nothing. *)
Definition rotated_axes (rot : quat (F := R)) : vec3 (F := R) * vec3 (F := R) * vec3 (F := R) :=
  let '(qx, qy, qz, qw) := rot in
  let norm := R_sqrt.sqrt (qx * qx + qy * qy + qz * qz + qw * qw)%R in
  if Rlt_dec 0 norm then
    let u := (qx / norm, qy / norm, qz / norm, qw / norm)%R in
    (rotate u (1, 0, 0)%R, rotate u (0, 1, 0)%R, rotate u (0, 0, 1)%R)
  else ((1, 0, 0)%R, (0, 1, 0)%R, (0, 0, 1)%R).

(** [R S (R S)^T] for [S = diag(scale)] and [R] with the columns [axes]:
    the sum over the three axes of [scale_k^2] times the outer product of
    column [k] with itself. *)
Definition scaled_outer_sum (scale : vec3 (F := R))
    (axes : vec3 (F := R) * vec3 (F := R) * vec3 (F := R)) : mat3 (F := R) :=
  let '(s0, s1, s2) := scale in
  let '(a, b, c) := axes in
  let entry (i j : vec3 (F := R) -> R) :=
    (s0 * s0 * (i a * j a) + s1 * s1 * (i b * j b) + s2 * s2 * (i c * j c))%R in
  let x (v : vec3 (F := R)) := v.1.1 in
  let y (v : vec3 (F := R)) := v.1.2 in
  let z (v : vec3 (F := R)) := v.2 in
  ((entry x x, entry x y, entry x z),
   (entry y x, entry y y, entry y z),
   (entry z x, entry z y, entry z z)).

(** The covariance of the specification. *)
Definition spec_covariance (scale : vec3 (F := R)) (rot : quat (F := R)) : mat3 (F := R) :=
  scaled_outer_sum scale (rotated_axes rot).

(** The columns of a matrix given by its rows. *)
Definition columns (m : mat3 (F := R)) : vec3 (F := R) * vec3 (F := R) * vec3 (F := R) :=
  let '((r00, r01, r02), (r10, r11, r12), (r20, r21, r22)) := m in
  ((r00, r10, r20), (r01, r11, r21), (r02, r12, r22)).

(** Three vectors of length one that are perpendicular to each other. *)
Definition orthonormal (axes : vec3 (F := R) * vec3 (F := R) * vec3 (F := R)) : Prop :=
  let '(a, b, c) := axes in
  (dot3 a a = 1 /\ dot3 b b = 1 /\ dot3 c c = 1
   /\ dot3 a b = 0 /\ dot3 a c = 0 /\ dot3 b c = 0)%R.

(** The real number that a finite binary64 number stands for. *)
Definition f64_to_R (x : float) : R :=
  match Prim2SF x with
  | S754_finite s m e =>
      let v := (IZR (Z.pos m) * (if 0 <=? e then IZR (2 ^ e) else / IZR (2 ^ (- e))))%R in
      if s then (- v)%R else v
  | _ => 0%R
  end.

(** * Properties *)

(** ** Covariance builder *)

(** In any number system the matrix rebuilt from the six values is
    symmetric. *)
Lemma sym_of_cov6_symmetric {F} (c : cov6 (F := F)) :
  np_transpose (sym_of_cov6 c) = sym_of_cov6 c.
Proof. by destruct c as [[[[[xx xy] xz] yy] yz] zz]. Qed.

(** Splits an equation between tuples into its components. *)
Ltac tuple_eq :=
  repeat match goal with
         | |- (_, _) = (_, _) => f_equal
         end.

Lemma normalize_quat_R (rot : quat (F := R)) :
  normalize_quat rot = Ok (unit_quat rot).
Proof.
  destruct rot as [[[qx qy] qz] qw].
  unfold normalize_quat, unit_quat, math_sqrt, py_truediv; cbn.
  destruct (Rlt_dec _ 0) as [Hneg|_]; [nra|]. cbn.
  destruct (Rlt_dec 0 _) as [Hpos|_]; [|reflexivity].
  destruct (Req_dec_T _ 0) as [Hz|_]; [lra|]. reflexivity.
Qed.

Lemma rotate_axes_unit (ux uy uz uw : R) :
  (ux * ux + uy * uy + uz * uz + uw * uw = 1)%R ->
  (rotate (ux, uy, uz, uw) (1, 0, 0)%R, rotate (ux, uy, uz, uw) (0, 1, 0)%R,
   rotate (ux, uy, uz, uw) (0, 0, 1)%R)
  = columns (rotation_matrix (ux, uy, uz, uw)).
Proof.
  intros Hunit. cbn. tuple_eq; try ring; lra.
Qed.

Lemma unit_quat_norm (qx qy qz qw : R) :
  let norm := R_sqrt.sqrt (qx * qx + qy * qy + qz * qz + qw * qw)%R in
  (0 < norm)%R ->
  (qx / norm * (qx / norm) + qy / norm * (qy / norm) + qz / norm * (qz / norm)
   + qw / norm * (qw / norm) = 1)%R.
Proof.
  intros norm Hpos.
  assert (norm * norm = qx * qx + qy * qy + qz * qz + qw * qw)%R as Hsq.
  { apply sqrt_sqrt. nra. }
  replace (qx / norm * (qx / norm) + qy / norm * (qy / norm) + qz / norm * (qz / norm)
           + qw / norm * (qw / norm))%R
    with ((qx * qx + qy * qy + qz * qz + qw * qw) / (norm * norm))%R by (field; lra).
  rewrite <- Hsq. field. lra.
Qed.

Lemma rotated_axes_columns (rot : quat (F := R)) :
  rotated_axes rot = columns (rotation_matrix (unit_quat rot)).
Proof.
  destruct rot as [[[qx qy] qz] qw]. unfold rotated_axes, unit_quat.
  destruct (Rlt_dec 0 _) as [Hpos|Hzero].
  - apply rotate_axes_unit. by apply unit_quat_norm.
  - pose proof (sqrt_pos (qx * qx + qy * qy + qz * qz + qw * qw)) as Hge.
    assert (R_sqrt.sqrt (qx * qx + qy * qy + qz * qz + qw * qw) = 0)%R as Hs by lra.
    apply sqrt_eq_0 in Hs; [|nra].
    assert (qx = 0 /\ qy = 0 /\ qz = 0 /\ qw = 0)%R as (-> & -> & -> & ->) by (repeat split; nra).
    cbn. tuple_eq; ring.
Qed.

Lemma rotate_orthonormal (ux uy uz uw : R) :
  (ux * ux + uy * uy + uz * uz + uw * uw = 1)%R ->
  let a := rotate (ux, uy, uz, uw) (1, 0, 0)%R in
  let b := rotate (ux, uy, uz, uw) (0, 1, 0)%R in
  let c := rotate (ux, uy, uz, uw) (0, 0, 1)%R in
  (dot3 a a = 1 /\ dot3 b b = 1 /\ dot3 c c = 1
   /\ dot3 a b = 0 /\ dot3 a c = 0 /\ dot3 b c = 0)%R.
Proof.
  intros Hunit a b c. subst a b c. cbn.
  assert (forall t : R, t = ((ux * ux + uy * uy + uz * uz + uw * uw) ^ 2)%R -> t = 1%R)
    as Hone by (intros t ->; rewrite Hunit; ring).
  split_and!; first [apply Hone; ring | ring].
Qed.

Lemma rotated_axes_orthonormal (rot : quat (F := R)) : orthonormal (rotated_axes rot).
Proof.
  destruct rot as [[[qx qy] qz] qw]. unfold rotated_axes.
  destruct (Rlt_dec 0 _) as [Hpos|Hzero].
  - apply rotate_orthonormal. by apply unit_quat_norm.
  - cbn. split_and!; ring.
Qed.

(** C4, as the source has it.  In exact arithmetic, for every scale and
    quaternion the builder returns the upper triangle of [R S (R S)^T],
    where the columns of [R] are the images of the three axes under the
    rotation [q v q*] of the normalised quaternion (the axes themselves for
    a quaternion of norm zero) and [S = diag(scale)].  That matrix is the
    product that the source computes, it is rebuilt from the six values, it
    is symmetric, the columns of [R] are orthonormal, and the quadratic form
    of the matrix is nowhere negative. *)
Theorem C4_covariance_symmetric_psd (scale : vec3 (F := R)) (rot : quat (F := R)) :
  let C := spec_covariance scale rot in
  let M := np_dot (rotation_matrix (unit_quat rot)) (np_diag scale) in
  _compute_covariance_from_scale_rot scale rot = Ok (upper_triangle C)
  /\ np_dot M (np_transpose M) = C
  /\ sym_of_cov6 (upper_triangle C) = C
  /\ np_transpose C = C
  /\ orthonormal (rotated_axes rot)
  /\ forall v : vec3 (F := R), (0 <= quad_form C v)%R.
Proof.
  intros C M.
  assert (np_dot M (np_transpose M) = C) as Hprod.
  { subst C M. unfold spec_covariance. rewrite rotated_axes_columns.
    destruct (rotation_matrix (unit_quat rot))
      as [[[[r00 r01] r02] [[r10 r11] r12]] [[r20 r21] r22]].
    destruct scale as [[s0 s1] s2]. cbn. tuple_eq; ring. }
  split.
  { unfold _compute_covariance_from_scale_rot. rewrite normalize_quat_R. cbn [bind].
    fold M. by rewrite Hprod. }
  split; [done|].
  subst C. unfold spec_covariance.
  destruct (rotated_axes rot) as [[[[a0 a1] a2] [[b0 b1] b2]] [[c0 c1] c2]] eqn:Haxes.
  destruct scale as [[s0 s1] s2].
  split; [cbn; tuple_eq; ring|]. split; [cbn; tuple_eq; ring|].
  split; [rewrite <- Haxes; apply rotated_axes_orthonormal|].
  intros [[v0 v1] v2]. unfold quad_form; cbn.
  replace (_ + _ + _)%R
    with ((s0 * (a0 * v0 + a1 * v1 + a2 * v2)) ^ 2
          + (s1 * (b0 * v0 + b1 * v1 + b2 * v2)) ^ 2
          + (s2 * (c0 * v0 + c1 * v1 + c2 * v2)) ^ 2)%R by ring.
  pose proof (pow2_ge_0 (s0 * (a0 * v0 + a1 * v1 + a2 * v2))).
  pose proof (pow2_ge_0 (s1 * (b0 * v0 + b1 * v1 + b2 * v2))).
  pose proof (pow2_ge_0 (s2 * (c0 * v0 + c1 * v1 + c2 * v2))).
  lra.
Qed.

(** In binary64 the six values need not be those of a positive-semidefinite
    matrix.  For the scale (1,0,0) and the quaternion (0,0,1,2) the values
    returned are 0.3600000000000001, 0.48000000000000004, 0,
    0.6399999999999999, 0, 0, and the matrix with exactly these entries has
    a negative quadratic form at the vector (c01, -c00, 0) scaled by 2^54.
    For the scale (2^600,1,1) the first value is infinite. *)
Lemma C4_counterexample :
  (exists c00 c01 c11 : float,
     _compute_covariance_from_scale_rot (1, 0, 0)%float (0, 0, 1, 2)%float
     = Ok (c00, c01, 0, c11, 0, 0)%float
     /\ exists v : vec3 (F := R),
          (quad_form (sym_of_cov6 (f64_to_R c00, f64_to_R c01, 0, f64_to_R c11, 0, 0)%R) v
           < 0)%R)
  /\ _compute_covariance_from_scale_rot (0x1p600, 1, 1)%float (0, 0, 0, 1)%float
     = Ok (infinity, 0, 0, 1, 0, 1)%float.
Proof.
  split; [|vm_compute; reflexivity].
  exists (SF2Prim (S754_finite false 6485183463413516 (-54))),
         (SF2Prim (S754_finite false 8646911284551353 (-54))),
         (SF2Prim (S754_finite false 5764607523034234 (-53))).
  split; [vm_compute; reflexivity|].
  exists (8646911284551353, -6485183463413516, 0)%R.
  assert (f64_to_R (SF2Prim (S754_finite false 6485183463413516 (-54)))
          = (6485183463413516 / 18014398509481984)%R) as ->.
  { unfold f64_to_R.
    replace (Prim2SF (SF2Prim (S754_finite false 6485183463413516 (-54))))
      with (S754_finite false 6485183463413516 (-54)) by (vm_compute; reflexivity).
    cbv iota. change (0 <=? -54) with false. cbv iota.
    change (2 ^ (- (-54))) with 18014398509481984. reflexivity. }
  assert (f64_to_R (SF2Prim (S754_finite false 8646911284551353 (-54)))
          = (8646911284551353 / 18014398509481984)%R) as ->.
  { unfold f64_to_R.
    replace (Prim2SF (SF2Prim (S754_finite false 8646911284551353 (-54))))
      with (S754_finite false 8646911284551353 (-54)) by (vm_compute; reflexivity).
    cbv iota. change (0 <=? -54) with false. cbv iota.
    change (2 ^ (- (-54))) with 18014398509481984. reflexivity. }
  assert (f64_to_R (SF2Prim (S754_finite false 5764607523034234 (-53)))
          = (5764607523034234 / 9007199254740992)%R) as ->.
  { unfold f64_to_R.
    replace (Prim2SF (SF2Prim (S754_finite false 5764607523034234 (-53))))
      with (S754_finite false 5764607523034234 (-53)) by (vm_compute; reflexivity).
    cbv iota. change (0 <=? -53) with false. cbv iota.
    change (2 ^ (- (-53))) with 9007199254740992. reflexivity. }
  unfold quad_form. cbn. lra.
Qed.

Lemma unit_quat_zero : unit_quat (0, 0, 0, 0)%R = (0, 0, 0, 0)%R.
Proof.
  unfold unit_quat.
  replace (0 * 0 + 0 * 0 + 0 * 0 + 0 * 0)%R with 0%R by ring.
  rewrite sqrt_0. destruct (Rlt_dec 0 0); [lra | reflexivity].
Qed.

Lemma unit_quat_identity : unit_quat (0, 0, 0, 1)%R = (0, 0, 0, 1)%R.
Proof.
  unfold unit_quat.
  replace (0 * 0 + 0 * 0 + 0 * 0 + 1 * 1)%R with 1%R by ring.
  rewrite sqrt_1. destruct (Rlt_dec 0 1); [|lra].
  tuple_eq; field.
Qed.

Lemma covariance_zero_quat_R (s0 s1 s2 : R) :
  let c := (s0 * s0, 0, 0, s1 * s1, 0, s2 * s2)%R in
  _compute_covariance_from_scale_rot (s0, s1, s2) (0, 0, 0, 0)%R = Ok c
  /\ _compute_covariance_from_scale_rot (s0, s1, s2) (0, 0, 0, 1)%R = Ok c.
Proof.
  unfold _compute_covariance_from_scale_rot.
  rewrite !normalize_quat_R, unit_quat_zero, unit_quat_identity. cbn [bind].
  split; cbn; f_equal; tuple_eq; ring.
Qed.

(** C5. With the quaternion (0,0,0,0) the builder divides by nothing and
    returns, for every scale, the six values it returns with the identity
    quaternion (0,0,0,1): bit for bit in binary64, and in exact
    arithmetic. *)
Theorem C5_zero_quaternion_as_identity :
  (forall scale : vec3 (F := float),
     exists c, _compute_covariance_from_scale_rot scale (0, 0, 0, 0)%float = Ok c
               /\ _compute_covariance_from_scale_rot scale (0, 0, 0, 1)%float = Ok c)
  /\ (forall scale : vec3 (F := R),
        exists c, _compute_covariance_from_scale_rot scale (0, 0, 0, 0)%R = Ok c
                  /\ _compute_covariance_from_scale_rot scale (0, 0, 0, 1)%R = Ok c).
Proof.
  split; intros scale.
  - unfold _compute_covariance_from_scale_rot.
    assert (normalize_quat (0, 0, 0, 0)%float = Ok (0, 0, 0, 0)%float) as ->
      by (vm_compute; reflexivity).
    assert (normalize_quat (0, 0, 0, 1)%float = Ok (0, 0, 0, 1)%float) as ->
      by (vm_compute; reflexivity).
    cbn [bind].
    assert (rotation_matrix (0, 0, 0, 0)%float = rotation_matrix (0, 0, 0, 1)%float)
      as -> by (vm_compute; reflexivity).
    eexists; split; reflexivity.
  - destruct scale as [[s0 s1] s2].
    exists (s0 * s0, 0, 0, s1 * s1, 0, s2 * s2)%R.
    apply covariance_zero_quat_R.
Qed.

(** In exact arithmetic the same holds for every quaternion of norm zero. *)
Lemma zero_norm_quaternion_R (scale : vec3 (F := R)) (qx qy qz qw : R) :
  (qx * qx + qy * qy + qz * qz + qw * qw = 0)%R ->
  _compute_covariance_from_scale_rot scale (qx, qy, qz, qw)
  = _compute_covariance_from_scale_rot scale (0, 0, 0, 1)%R.
Proof.
  intros Hn.
  assert (qx = 0 /\ qy = 0 /\ qz = 0 /\ qw = 0)%R as (-> & -> & -> & ->)
    by (repeat split; nra).
  destruct scale as [[s0 s1] s2].
  destruct (covariance_zero_quat_R s0 s1 s2) as (-> & ->).
  reflexivity.
Qed.

(** ** Root bounds of the octree *)

Lemma np_minimum_R (a b : R) : np_minimum a b = Rmin a b.
Proof.
  unfold np_minimum, Rmin; cbn.
  destruct (Rlt_dec b a), (Rle_dec a b); try reflexivity; lra.
Qed.

Lemma np_maximum_R (a b : R) : np_maximum a b = Rmax a b.
Proof.
  unfold np_maximum, Rmax; cbn.
  destruct (Rlt_dec a b), (Rle_dec a b); try reflexivity; lra.
Qed.

Lemma foldl_v3_map2 {F} (f : F -> F -> F) (ps : list (F * F * F)) (p : F * F * F) :
  foldl (v3_map2 f) p ps
  = (foldl f p.1.1 ((fun q => q.1.1) <$> ps),
     foldl f p.1.2 ((fun q => q.1.2) <$> ps),
     foldl f p.2 ((fun q => q.2) <$> ps)).
Proof.
  revert p. induction ps as [|[[q0 q1] q2] ps IH]; intros [[p0 p1] p2]; [reflexivity|].
  cbn. rewrite IH. reflexivity.
Qed.

Lemma foldl_Rmin_spec (l : list R) (a : R) :
  (forall x, x ∈ a :: l -> (foldl Rmin a l <= x)%R) /\ foldl Rmin a l ∈ a :: l.
Proof.
  revert a. induction l as [|b l IH]; intros a; cbn.
  - split; [|left]. intros x ->%list_elem_of_singleton. lra.
  - destruct (IH (Rmin a b)) as [Hle Hin]. split.
    + intros x Hx. apply elem_of_cons in Hx as [->|Hx].
      * etransitivity; [apply Hle; left|apply Rmin_l].
      * apply elem_of_cons in Hx as [->|Hx].
        -- etransitivity; [apply Hle; left|apply Rmin_r].
        -- apply Hle. by right.
    + apply elem_of_cons in Hin as [->|Hin].
      * unfold Rmin. destruct (Rle_dec a b); [left|right; left].
      * right. by right.
Qed.

Lemma foldl_Rmax_spec (l : list R) (a : R) :
  (forall x, x ∈ a :: l -> (x <= foldl Rmax a l)%R) /\ foldl Rmax a l ∈ a :: l.
Proof.
  revert a. induction l as [|b l IH]; intros a; cbn.
  - split; [|left]. intros x ->%list_elem_of_singleton. lra.
  - destruct (IH (Rmax a b)) as [Hle Hin]. split.
    + intros x Hx. apply elem_of_cons in Hx as [->|Hx].
      * etransitivity; [apply Rmax_l|apply Hle; left].
      * apply elem_of_cons in Hx as [->|Hx].
        -- etransitivity; [apply Rmax_r|apply Hle; left].
        -- apply Hle. by right.
    + apply elem_of_cons in Hin as [->|Hin].
      * unfold Rmax. destruct (Rle_dec a b); [right; left|left].
      * right. by right.
Qed.

Lemma np_min_axis0_R (ps : list (vec3 (F := R))) (p : vec3 (F := R)) :
  np_min_axis0 p ps
  = (foldl Rmin p.1.1 ((fun q => q.1.1) <$> ps),
     foldl Rmin p.1.2 ((fun q => q.1.2) <$> ps),
     foldl Rmin p.2 ((fun q => q.2) <$> ps)).
Proof.
  rewrite <- foldl_v3_map2. unfold np_min_axis0.
  revert p. induction ps as [|[[q0 q1] q2] ps IH]; intros [[p0 p1] p2]; [reflexivity|].
  cbn [foldl]. rewrite IH. unfold v3_map2 at 2 4. by rewrite !np_minimum_R.
Qed.

Lemma np_max_axis0_R (ps : list (vec3 (F := R))) (p : vec3 (F := R)) :
  np_max_axis0 p ps
  = (foldl Rmax p.1.1 ((fun q => q.1.1) <$> ps),
     foldl Rmax p.1.2 ((fun q => q.1.2) <$> ps),
     foldl Rmax p.2 ((fun q => q.2) <$> ps)).
Proof.
  rewrite <- foldl_v3_map2. unfold np_max_axis0.
  revert p. induction ps as [|[[q0 q1] q2] ps IH]; intros [[p0 p1] p2]; [reflexivity|].
  cbn [foldl]. rewrite IH. unfold v3_map2 at 2 4. by rewrite !np_maximum_R.
Qed.

(** The largest of the three axis extents of a box. *)
Definition largest_extent (lo hi : vec3 (F := R)) : R :=
  let '(l0, l1, l2) := lo in
  let '(h0, h1, h2) := hi in
  Rmax (Rmax (h0 - l0) (h1 - l1)) (h2 - l2).

Definition extents (lo hi : vec3 (F := R)) : vec3 (F := R) :=
  v3_map2 Rminus hi lo.

Definition midpoint (lo hi : vec3 (F := R)) : vec3 (F := R) :=
  v3_scalar Rdiv (v3_map2 Rplus lo hi) 2%R.

(** Componentwise [lo <= q <= hi]. *)
Definition inside_box (lo hi q : vec3 (F := R)) : Prop :=
  (lo.1.1 <= q.1.1 <= hi.1.1 /\ lo.1.2 <= q.1.2 <= hi.1.2 /\ lo.2 <= q.2 <= hi.2)%R.

Lemma aabb_R (p : vec3 (F := R)) (ps : list (vec3 (F := R))) (q : vec3 (F := R)) :
  q ∈ p :: ps -> inside_box (np_min_axis0 p ps) (np_max_axis0 p ps) q.
Proof.
  intros Hq. rewrite np_min_axis0_R, np_max_axis0_R. unfold inside_box; cbn.
  assert (forall (f : vec3 (F := R) -> R), f q ∈ f p :: (f <$> ps)) as Hf.
  { intros f. change (f p :: (f <$> ps)) with (f <$> p :: ps).
    by apply list_elem_of_fmap_2. }
  repeat split;
    first [ apply (proj1 (foldl_Rmin_spec _ _)), (Hf (fun q => q.1.1))
          | apply (proj1 (foldl_Rmin_spec _ _)), (Hf (fun q => q.1.2))
          | apply (proj1 (foldl_Rmin_spec _ _)), (Hf (fun q => q.2))
          | apply (proj1 (foldl_Rmax_spec _ _)), (Hf (fun q => q.1.1))
          | apply (proj1 (foldl_Rmax_spec _ _)), (Hf (fun q => q.1.2))
          | apply (proj1 (foldl_Rmax_spec _ _)), (Hf (fun q => q.2)) ].
Qed.

Lemma root_bounds_R (p : vec3 (F := R)) (ps : list (vec3 (F := R))) :
  let mn := np_min_axis0 p ps in
  let mx := np_max_axis0 p ps in
  let e := (largest_extent mn mx * (11 / 10))%R in
  extents (root_bounds p ps).1 (root_bounds p ps).2 = (e, e, e)
  /\ midpoint (root_bounds p ps).1 (root_bounds p ps).2 = midpoint mn mx.
Proof.
  intros mn mx e. subst e. unfold root_bounds. fold mn mx.
  destruct mn as [[n0 n1] n2], mx as [[x0 x1] x2].
  unfold np_max3, extents, midpoint, largest_extent; cbn -[np_maximum].
  rewrite !np_maximum_R. split; tuple_eq; field.
Qed.

(** C7, as the source has it.  In exact arithmetic the root box is centred
    on the bounding box of the positions and is a cube: every axis extent
    is 1.1 times the largest of the three extents of the bounding box.  In
    binary64 this holds up to rounding only: for the two positions
    (10^16, 0, 0) and (10^16 + 2, 0, 0), whose bounding box has the extents
    (2, 0, 0), the root box reaches from 10^16 - 2 to 10^16 + 2 on the first
    axis and from -1.1000000000000001 to 1.1000000000000001 on the others,
    so its extents are 4, 2.2 and 2.2. *)
Theorem C7_root_bounds_cube (p : vec3 (F := R)) (ps : list (vec3 (F := R))) :
  let mn := np_min_axis0 p ps in
  let mx := np_max_axis0 p ps in
  let e := (largest_extent mn mx * (11 / 10))%R in
  (forall q, q ∈ p :: ps -> inside_box mn mx q)
  /\ extents (root_bounds p ps).1 (root_bounds p ps).2 = (e, e, e)
  /\ midpoint (root_bounds p ps).1 (root_bounds p ps).2 = midpoint mn mx
  /\ root_bounds (F := float) (10000000000000000, 0, 0)%float
       [(10000000000000002, 0, 0)%float]
     = ((9999999999999998, - 0x1.199999999999ap+0, - 0x1.199999999999ap+0),
        (10000000000000002, 0x1.199999999999ap+0, 0x1.199999999999ap+0))%float.
Proof.
  intros mn mx e. split; [apply aabb_R|].
  destruct (root_bounds_R p ps) as [Hextents Hmid].
  split; [exact Hextents|]. split; [exact Hmid|]. vm_compute. reflexivity.
Qed.

(** For the two points (0,0,0) and (1,0,0) the bounding box has extents
    (1,0,0); the root box has extents (1.1,1.1,1.1), not (1.1,0,0). *)
Lemma C7_counterexample :
  let p : vec3 (F := R) := (0, 0, 0)%R in
  let ps : list (vec3 (F := R)) := [(1, 0, 0)%R] in
  extents (np_min_axis0 p ps) (np_max_axis0 p ps) = (1, 0, 0)%R
  /\ extents (root_bounds p ps).1 (root_bounds p ps).2
     <> v3_scalar Rmult (extents (np_min_axis0 p ps) (np_max_axis0 p ps)) (11 / 10)%R.
Proof.
  intros p ps.
  assert (np_min_axis0 p ps = (0, 0, 0)%R) as Hmin.
  { rewrite np_min_axis0_R. cbn. rewrite Rmin_left by lra.
    rewrite Rmin_left by lra. reflexivity. }
  assert (np_max_axis0 p ps = (1, 0, 0)%R) as Hmax.
  { rewrite np_max_axis0_R. cbn. rewrite Rmax_right by lra.
    rewrite Rmax_left by lra. reflexivity. }
  destruct (root_bounds_R p ps) as [He _]. rewrite He, Hmin, Hmax.
  unfold extents, largest_extent; cbn. split; [tuple_eq; ring|].
  intros [= _ Hy _]. revert Hy.
  replace (1 - 0)%R with 1%R by ring. replace (0 - 0)%R with 0%R by ring.
  rewrite (Rmax_left 1 0) by lra. rewrite (Rmax_left 1 0) by lra. lra.
Qed.

(** ** Octant membership *)

(** Coordinate [k] (0, 1 or 2) of a point. *)
Definition coord {F} (k : nat) (v : vec3 (F := F)) : F :=
  match k with
  | O => v.1.1
  | S O => v.1.2
  | _ => v.2
  end.

(** The centre at which a node is split. *)
Definition split_center {F} `{Scalar F} (min_pos max_pos : vec3) : vec3 (F := F) :=
  v3_scalar fdiv (v3_map2 fadd min_pos max_pos) (float_of_int 2).

(** The octant on the other side of the splitting plane of axis [k]. *)
Definition mirror_octant (k : nat) (octant : Z) : Z :=
  Z.lxor octant (2 ^ Z.of_nat k).

(** The test applied to index [idx] by the inner loop, [false] when the
    index is not one of [self.splats]. *)
Definition passes_octant_test {F} `{Scalar F} (self : SplatAtlasGenerator)
    (oct_min oct_max : vec3 (F := F)) (idx : Z) : bool :=
  match py_getitem (splats self) idx with
  | Ok s => in_octant (pos s) oct_min oct_max
  | Raise _ => false
  end.

(** Componentwise [lo <= p <= hi]: six comparisons, each of them
    inclusive. *)
Definition within_inclusive {F} `{Scalar F} (p lo hi : vec3 (F := F)) : Prop :=
  fleb lo.1.1 p.1.1 = true /\ fleb p.1.1 hi.1.1 = true
  /\ fleb lo.1.2 p.1.2 = true /\ fleb p.1.2 hi.1.2 = true
  /\ fleb lo.2 p.2 = true /\ fleb p.2 hi.2 = true.

Section OctantFacts.
Context {F : Type} `{Scalar F}.
Implicit Types (self : SplatAtlasGenerator (F := F)) (p : vec3 (F := F)).

Lemma in_octant_within p oct_min oct_max :
  in_octant p oct_min oct_max = true <-> within_inclusive p oct_min oct_max.
Proof.
  destruct p as [[p0 p1] p2], oct_min as [[n0 n1] n2], oct_max as [[x0 x1] x2].
  unfold in_octant, within_inclusive. cbn [fst snd]. rewrite !andb_true_iff. tauto.
Qed.

(** On every axis an octant is the lower or the upper half of the node,
    as the bit of the axis in the octant number tells. *)
Lemma octant_bounds_halves (k : nat) (octant : Z) (min_pos max_pos center : vec3 (F := F)) :
  (k < 3)%nat -> octant ∈ py_range 8 ->
  let b := octant_bounds min_pos max_pos center octant in
  (coord k b.1, coord k b.2)
  = if Z.testbit octant (Z.of_nat k)
    then (coord k center, coord k max_pos)
    else (coord k min_pos, coord k center).
Proof.
  intros Hk Hoct.
  destruct center as [[c0 c1] c2], min_pos as [[n0 n1] n2], max_pos as [[x0 x1] x2].
  destruct k as [|[|[|k]]]; [| | |lia];
    apply list_elem_of_In in Hoct; cbn in Hoct;
    repeat (destruct Hoct as [<-|Hoct]; [reflexivity|]); done.
Qed.

Lemma octant_splats_acc self (indices acc l : list Z) oct_min oct_max :
  foldM (fun acc idx =>
           s <- py_getitem (splats self) idx ;;
           if in_octant (pos s) oct_min oct_max
           then Ok (acc ++ [idx]) else Ok acc) indices acc = Ok l ->
  l = acc ++ filter (fun idx => passes_octant_test self oct_min oct_max idx = true) indices
  /\ Forall (fun idx => is_ok (py_getitem (splats self) idx)) indices.
Proof.
  revert acc. induction indices as [|idx indices IH]; intros acc; cbn [foldM].
  - intros [= <-]. by rewrite filter_nil, app_nil_r.
  - destruct (py_getitem (splats self) idx) as [s|e] eqn:Hs; cbn [bind]; [|done].
    intros Hl.
    assert (passes_octant_test self oct_min oct_max idx
            = in_octant (pos s) oct_min oct_max) as Hp
      by (unfold passes_octant_test; by rewrite Hs).
    rewrite filter_cons.
    destruct (in_octant (pos s) oct_min oct_max) eqn:Hin.
    + apply IH in Hl as [-> Hall]. rewrite decide_True by done.
      rewrite <- app_assoc. split; [done|]. constructor; [by exists s|done].
    + apply IH in Hl as [-> Hall]. rewrite decide_False by (by rewrite Hp).
      split; [done|]. constructor; [by exists s|done].
Qed.

Lemma octant_splats_total self (indices acc : list Z) oct_min oct_max :
  Forall (fun idx => is_ok (py_getitem (splats self) idx)) indices ->
  is_ok (foldM (fun acc idx =>
           s <- py_getitem (splats self) idx ;;
           if in_octant (pos s) oct_min oct_max
           then Ok (acc ++ [idx]) else Ok acc) indices acc).
Proof.
  intros Hall. revert acc. induction Hall as [|idx indices [s Hs] _ IH]; intros acc; cbn.
  - by eexists.
  - rewrite Hs; cbn. destruct (in_octant _ _ _); apply IH.
Qed.

(** The list collected for an octant is the sub-list of the indices that
    pass the test, in their order. *)
Lemma octant_splats_spec self (indices l : list Z) oct_min oct_max :
  octant_splats self indices oct_min oct_max = Ok l ->
  l = filter (fun idx => passes_octant_test self oct_min oct_max idx = true) indices
  /\ Forall (fun idx => is_ok (py_getitem (splats self) idx)) indices.
Proof. intros Hl. by apply octant_splats_acc in Hl. Qed.

Lemma in_octant_mirror (k : nat) (octant : Z) p min_pos max_pos :
  let center := split_center min_pos max_pos in
  let b := octant_bounds min_pos max_pos center octant in
  let b' := octant_bounds min_pos max_pos center (mirror_octant k octant) in
  (k < 3)%nat -> octant ∈ py_range 8 ->
  coord k p = coord k center ->
  fleb (coord k min_pos) (coord k center) = true ->
  fleb (coord k center) (coord k max_pos) = true ->
  in_octant p b.1 b.2 = true -> in_octant p b'.1 b'.2 = true.
Proof.
  intros center b b' Hk Hoct. subst b b'.
  destruct center as [[c0 c1] c2], p as [[p0 p1] p2],
    min_pos as [[n0 n1] n2], max_pos as [[x0 x1] x2].
  destruct k as [|[|[|k]]]; [| | |lia]; cbn [coord fst snd];
    intros -> Hlo Hhi;
    apply list_elem_of_In in Hoct; cbn in Hoct;
    repeat (destruct Hoct as [<-|Hoct]; [|]); try done;
    cbn; rewrite !andb_true_iff; intros; destruct_and?; split_and?; done.
Qed.

End OctantFacts.

(** C9. The list collected for an octant holds exactly the indices of the
    node whose splat position passes six comparisons with the bounds of the
    octant, all of them inclusive; on every axis the octant is the lower or
    the upper half of the node, both halves ending at the centre.  So a
    splat whose coordinate on axis [k] equals the centre of the node is
    collected on both sides of that splitting plane: whenever it is in the
    list of an octant it is also in the list of the octant mirrored in the
    plane.  For this the centre is taken to lie between the two faces of the
    node on that axis. *)
Theorem C9_boundary_splat_in_touching_octants {F} `{Scalar F}
    (self : SplatAtlasGenerator (F := F)) (splat_indices : list Z)
    (min_pos max_pos : vec3 (F := F)) :
  let center := split_center min_pos max_pos in
  (forall (oct_min oct_max : vec3 (F := F)) (l : list Z),
     octant_splats self splat_indices oct_min oct_max = Ok l ->
     forall idx : Z,
       idx ∈ l <-> idx ∈ splat_indices
                   /\ exists s, py_getitem (splats self) idx = Ok s
                                /\ within_inclusive (pos s) oct_min oct_max)
  /\ (forall (k : nat) (octant : Z),
        (k < 3)%nat -> octant ∈ py_range 8 ->
        let b := octant_bounds min_pos max_pos center octant in
        (coord k b.1, coord k b.2)
        = if Z.testbit octant (Z.of_nat k)
          then (coord k center, coord k max_pos)
          else (coord k min_pos, coord k center))
  /\ (forall (k : nat) (octant idx : Z) (s : splat) (l : list Z),
        let b := octant_bounds min_pos max_pos center octant in
        let b' := octant_bounds min_pos max_pos center (mirror_octant k octant) in
        (k < 3)%nat -> octant ∈ py_range 8 ->
        py_getitem (splats self) idx = Ok s ->
        coord k (pos s) = coord k center ->
        fleb (coord k min_pos) (coord k center) = true ->
        fleb (coord k center) (coord k max_pos) = true ->
        octant_splats self splat_indices b.1 b.2 = Ok l -> idx ∈ l ->
        exists l', octant_splats self splat_indices b'.1 b'.2 = Ok l' /\ idx ∈ l').
Proof.
  intros center. split; [|split].
  - intros oct_min oct_max l [-> Hall]%octant_splats_spec idx.
    rewrite list_elem_of_filter. unfold passes_octant_test. split.
    + intros [Hpass Hin]. split; [done|].
      destruct (py_getitem (splats self) idx) as [s|e]; [|done].
      exists s. split; [done|]. by apply in_octant_within.
    + intros [Hin (s & -> & Hwithin)]. split; [|done]. by apply in_octant_within.
  - intros k octant Hk Hoct. by apply octant_bounds_halves.
  - intros k octant idx s l b b' Hk Hoct Hs Hplane Hlo Hhi Hl Hidx.
    apply octant_splats_spec in Hl as [-> Hall].
    apply list_elem_of_filter in Hidx as [Hpass Hin].
    destruct (octant_splats_total self splat_indices [] b'.1 b'.2 Hall) as [l' Hl'].
    exists l'. split; [done|].
    apply octant_splats_spec in Hl' as [-> _].
    apply list_elem_of_filter. split; [|done].
    unfold passes_octant_test in *. rewrite Hs in *.
    by apply in_octant_mirror.
Qed.

(** A white, opaque, unrotated binary64 splat of scale [sc] on every
    axis. *)
Definition f64_splat (x y z sc : float) : splat (F := float) :=
  {| pos := (x, y, z); color := (1, 1, 1)%float; alpha := 1%float;
     covariance := (sc * sc, 0, 0, sc * sc, 0, sc * sc)%float;
     scale := (sc, sc, sc); rotation := (0, 0, 0, 1)%float;
     atlas := None |}.

Definition f64_generator (l : list (splat (F := float))) (size layers depth : Z)
  : SplatAtlasGenerator (F := float) :=
  {| splats := l; atlas_size := size; atlas_layers := layers;
     octree_size := 512; max_octree_depth := depth |}.

(** A splat at x = 0.5 in the unit cube is collected by octant 0 and by
    octant 1. *)
Lemma C9_witness :
  let self := f64_generator [f64_splat 0.5 0.25 0.25 0.5] 1024 4 8 in
  let lo : vec3 (F := float) := (0, 0, 0)%float in
  let hi : vec3 (F := float) := (1, 1, 1)%float in
  let c := split_center lo hi in
  octant_splats self [0] (octant_bounds lo hi c 0).1 (octant_bounds lo hi c 0).2 = Ok [0]
  /\ exists l', octant_splats self [0] (octant_bounds lo hi c (mirror_octant 0 0)).1
                  (octant_bounds lo hi c (mirror_octant 0 0)).2 = Ok l'
                /\ 0 ∈ l'.
Proof.
  intros self lo hi c. split; [vm_compute; reflexivity|].
  apply (proj2 (proj2 (C9_boundary_splat_in_touching_octants self [0] lo hi))
           0%nat 0 0 (f64_splat 0.5 0.25 0.25 0.5) [0]).
  - lia.
  - vm_compute. left.
  - vm_compute; reflexivity.
  - vm_compute; reflexivity.
  - vm_compute; reflexivity.
  - vm_compute; reflexivity.
  - vm_compute; reflexivity.
  - left.
Defined.

(** ** Loops *)

Lemma bind_ok {A B} (m : result A) (k : A -> result B) (b : B) :
  (x <- m ;; k x) = Ok b -> exists a, m = Ok a /\ k a = Ok b.
Proof. destruct m as [a|e]; cbn; [by exists a | done]. Qed.

(** Splits a hypothesis [(x <- m ;; k) = Ok b] into its steps. *)
Ltac bind_inv H :=
  repeat match type of H with
         | bind ?m ?k = Ok _ =>
             let a := fresh "a" in
             let Ha := fresh "Hstep" in
             apply bind_ok in H as (a & Ha & H)
         end.

(** Invariant rule for a loop that ends without an exception: [Q] relates
    the items already visited to the accumulator. *)
Lemma foldM_invariant {A S} (Q : list A -> S -> Prop) (body : S -> A -> result S)
    (xs : list A) (acc r : S) :
  Q [] acc ->
  (forall pre x acc acc',
     x ∈ xs -> Q pre acc -> body acc x = Ok acc' -> Q (pre ++ [x]) acc') ->
  foldM body xs acc = Ok r -> Q xs r.
Proof.
  intros H0 Hstep.
  enough (forall pre xs' acc, pre ++ xs' = xs -> Q pre acc ->
            foldM body xs' acc = Ok r -> Q xs r) as Hgen
    by (by apply (Hgen [] xs acc)).
  intros pre xs'. revert pre. induction xs' as [|x xs' IH]; intros pre acc' Hxs HQ; cbn.
  - intros [= <-]. by rewrite app_nil_r in Hxs; subst.
  - intros Hr. bind_inv Hr. apply (IH (pre ++ [x]) a); [by rewrite <- app_assoc| |done].
    apply (Hstep pre x acc' a); [|done..]. subst xs. set_solver.
Qed.

Lemma mapM_ok {A B} (f : A -> result B) (g : A -> B) (xs : list A) :
  (forall x, x ∈ xs -> f x = Ok (g x)) -> mapM f xs = Ok (g <$> xs).
Proof.
  induction xs as [|x xs IH]; intros Hf; cbn; [done|].
  rewrite Hf by left; cbn. rewrite IH; [done|]. intros y Hy. apply Hf. by right.
Qed.

Lemma mapM_length {A B} (f : A -> result B) (xs : list A) (ys : list B) :
  mapM f xs = Ok ys -> length ys = length xs.
Proof.
  revert ys. induction xs as [|x xs IH]; intros ys; cbn.
  - by intros [= <-].
  - intros Hr. bind_inv Hr. injection Hr as <-. cbn. f_equal. by apply IH.
Qed.

(** ** Atlas packer *)

(** Two records that differ at most in the atlas keys. *)
Definition same_but_atlas {F} (s s' : splat (F := F)) : Prop :=
  pos s = pos s' /\ color s = color s' /\ alpha s = alpha s'
  /\ covariance s = covariance s' /\ scale s = scale s'
  /\ rotation s = rotation s'.

Section PackerFacts.
Context {F : Type} `{Scalar F}.
Variable math_exp : F -> F.
Implicit Types (self : SplatAtlasGenerator (F := F)) (s : splat (F := F)).

Lemma same_but_atlas_refl s : same_but_atlas s s.
Proof. by repeat split. Qed.

Lemma same_but_atlas_trans s1 s2 s3 :
  same_but_atlas s1 s2 -> same_but_atlas s2 s3 -> same_but_atlas s1 s3.
Proof. unfold same_but_atlas. intuition congruence. Qed.

Lemma same_but_atlas_set s a : same_but_atlas s (set_atlas a s).
Proof. by repeat split. Qed.

Lemma splat_size_px_range s sz : splat_size_px s = Ok sz -> 8 <= sz <= 64.
Proof. unfold splat_size_px. intros Hs. bind_inv Hs. injection Hs as <-. lia. Qed.

(** The cell computed for a splat always lies inside a layer of
    non-negative size: the row is reduced modulo the number of rows. *)
Lemma grid_cell_fits self (i sz gx gy : Z) :
  0 <= atlas_size self -> 0 < sz ->
  grid_cell self i sz = Ok (gx, gy) ->
  0 <= gx /\ gx * sz + sz <= atlas_size self
  /\ 0 <= gy /\ gy * sz + sz <= atlas_size self.
Proof.
  intros Hsize Hsz Hc. unfold grid_cell, py_floordiv, py_mod in Hc.
  bind_inv Hc. injection Hc as <- <-.
  repeat case_decide; simplify_eq.
  pose proof (Z.div_pos (atlas_size self) sz Hsize Hsz) as Hg.
  pose proof (Z.mul_div_le (atlas_size self) sz Hsz) as Hm.
  set (g := atlas_size self / sz) in *.
  pose proof (Z.mod_pos_bound (i / atlas_layers self) g ltac:(lia)).
  pose proof (Z.mod_pos_bound (i / atlas_layers self / g) g ltac:(lia)).
  nia.
Qed.

Lemma pack_step_skip self (st : pack_state) (i layer sz gx gy : Z) (ref : nat) s :
  py_mod i (atlas_layers self) = Ok layer ->
  splat_size_px s = Ok sz ->
  grid_cell self i sz = Ok (gx, gy) ->
  ~ gy * sz + sz <= atlas_size self ->
  pack_step math_exp self st (i, (ref, s)) = Ok st.
Proof.
  intros Hl Hs Hc Hg. unfold pack_step.
  rewrite Hl; cbn [bind]. rewrite Hs; cbn [bind]. rewrite Hc; cbn [bind].
  by rewrite decide_False.
Qed.

(** What a step that ends without an exception does to the state. *)
Lemma pack_step_cases self (st st' : pack_state) (i : Z) (ref : nat) s :
  pack_step math_exp self st (i, (ref, s)) = Ok st' ->
  exists sz gx gy,
    splat_size_px s = Ok sz /\ grid_cell self i sz = Ok (gx, gy)
    /\ ((~ gy * sz + sz <= atlas_size self /\ st' = st)
        \/ (gy * sz + sz <= atlas_size self
            /\ exists coords,
                 ps_splats st' = alter (set_atlas coords) ref (ps_splats st)
                 /\ packed_count st' = packed_count st + 1)).
Proof.
  unfold pack_step. intros Hst. bind_inv Hst.
  destruct a1 as [gx gy]. exists a0, gx, gy. split; [done|]. split; [done|].
  case_decide as Hg.
  - right. split; [done|]. bind_inv Hst. injection Hst as <-. by eexists.
  - left. by injection Hst as <-.
Qed.

Lemma alter_same_but_atlas (l : list (splat (F := F))) (ref : nat) a :
  Forall2 same_but_atlas l (alter (set_atlas a) ref l).
Proof.
  revert ref. induction l as [|s l IH]; intros [|ref]; cbn; constructor;
    auto using same_but_atlas_refl, same_but_atlas_set.
  apply Forall2_same_length_lookup_2; [done|].
  intros i x y ? ?; simplify_eq. apply same_but_atlas_refl.
Qed.

End PackerFacts.

Section PackerLoop.
Context {F : Type} `{Scalar F}.
Variable math_exp : F -> F.
Implicit Types (self : SplatAtlasGenerator (F := F)) (s : splat (F := F)).

Lemma insert_desc_perm (x : nat * splat (F := F)) l : insert_desc x l ≡ₚ x :: l.
Proof.
  induction l as [|y l IH]; cbn; [done|].
  destruct (fltb _ _); [|done]. rewrite IH. apply Permutation_swap.
Qed.

(** Sorting permutes the references. *)
Lemma sorted_desc_perm (l : list (nat * splat (F := F))) : sorted_desc l ≡ₚ l.
Proof.
  induction l as [|x l IH]; cbn; [done|].
  rewrite insert_desc_perm. by f_equiv.
Qed.

Lemma elem_of_enumerate {A} (l : list A) (i : nat) (x : A) :
  (i, x) ∈ enumerate l <-> l !! i = Some x.
Proof.
  unfold enumerate. rewrite list_elem_of_lookup. split.
  - intros [j Hj]. rewrite list_lookup_imap in Hj.
    destruct (l !! j) eqn:E; by simplify_eq/=.
  - intros Hi. exists i. by rewrite list_lookup_imap, Hi.
Qed.

(** The items visited by the packing loop: every reference occurs, with the
    record it refers to. *)
Definition pack_items self : list (Z * (nat * splat (F := F))) :=
  imap (fun i e => (Z.of_nat i, e)) (sorted_desc (enumerate (splats self))).

Lemma pack_items_ref self (i : Z) (ref : nat) s :
  (i, (ref, s)) ∈ pack_items self -> splats self !! ref = Some s.
Proof.
  unfold pack_items. rewrite list_elem_of_lookup. intros [j Hj].
  rewrite list_lookup_imap in Hj.
  destruct (sorted_desc _ !! j) as [e|] eqn:E; simplify_eq/=.
  apply list_elem_of_lookup_2 in E. rewrite sorted_desc_perm in E.
  by apply elem_of_enumerate.
Qed.

Lemma pack_items_cover self (ref : nat) s :
  splats self !! ref = Some s -> exists i, (i, (ref, s)) ∈ pack_items self.
Proof.
  intros Hs. apply elem_of_enumerate in Hs. rewrite <- sorted_desc_perm in Hs.
  apply list_elem_of_lookup in Hs as [j Hj]. exists (Z.of_nat j).
  unfold pack_items. apply list_elem_of_lookup. exists j.
  by rewrite list_lookup_imap, Hj.
Qed.

Lemma length_pack_items self : length (pack_items self) = length (splats self).
Proof.
  unfold pack_items. rewrite length_imap, sorted_desc_perm.
  unfold enumerate. by rewrite length_imap.
Qed.

(** The loop only ever touches the atlas keys, and keeps every record at
    its place in [self.splats]. *)
Lemma pack_loop_same self (xs : list (Z * (nat * splat (F := F)))) (st st' : pack_state) :
  foldM (pack_step math_exp self) xs st = Ok st' ->
  Forall2 same_but_atlas (ps_splats st) (ps_splats st').
Proof.
  intros Hr.
  apply (foldM_invariant
           (fun _ acc => Forall2 same_but_atlas (ps_splats st) (ps_splats acc))
           _ _ _ _) in Hr; [done| |].
  - apply Forall2_same_length_lookup_2; [done|].
    intros i x y ? ?; simplify_eq. apply same_but_atlas_refl.
  - intros pre [i [ref s]] acc acc' _ HQ Hstep.
    apply pack_step_cases in Hstep as (sz & gx & gy & _ & _ & [[_ ->]|[_ (c & -> & _)]]);
      [done|].
    eapply Forall2_trans; [apply same_but_atlas_trans|done|].
    apply alter_same_but_atlas.
Qed.

(** With a non-negative atlas size no step is skipped. *)
Lemma pack_loop_all self (st st' : pack_state) :
  0 <= atlas_size self ->
  length (ps_splats st) = length (splats self) ->
  foldM (pack_step math_exp self) (pack_items self) st = Ok st' ->
  packed_count st' = packed_count st + Z.of_nat (length (splats self))
  /\ Forall (fun s => atlas s <> None) (ps_splats st').
Proof.
  intros Hsize Hlen Hr.
  apply (foldM_invariant
           (fun pre acc =>
              packed_count acc = packed_count st + Z.of_nat (length pre)
              /\ length (ps_splats acc) = length (splats self)
              /\ forall e, e ∈ pre ->
                   exists s', ps_splats acc !! e.2.1 = Some s' /\ atlas s' <> None)
           _ _ _ _) in Hr.
  - destruct Hr as (Hcount & Hlen' & Hall). rewrite length_pack_items in Hcount.
    split; [done|]. apply Forall_lookup. intros ref s' Hs'.
    assert (is_Some (splats self !! ref)) as [s Hs].
    { apply lookup_lt_is_Some. rewrite <- Hlen'. by eapply lookup_lt_Some. }
    apply pack_items_cover in Hs as [i Hi].
    destruct (Hall _ Hi) as (s'' & Hs'' & Ha). cbn in Hs''. by simplify_eq.
  - split; [cbn; lia|]. split; [done|]. intros e He. by apply elem_of_nil in He.
  - intros pre [i [ref s]] acc acc' Hin (Hcount & Hlen' & Hall) Hstep.
    apply pack_step_cases in Hstep as (sz & gx & gy & Hsz & Hcell & Hcase).
    pose proof (splat_size_px_range _ _ Hsz).
    pose proof (grid_cell_fits self i sz gx gy Hsize ltac:(lia) Hcell) as (_ & _ & _ & Hfit).
    destruct Hcase as [[Hno _]|[_ (c & Hs' & Hc')]]; [done|].
    rewrite Hs', Hc', length_alter, length_app. cbn.
    split; [lia|]. split; [done|].
    intros e [He| ->%list_elem_of_singleton]%elem_of_app.
    + destruct (Hall e He) as (s' & Hs'' & Ha).
      destruct (decide (ref = e.2.1)) as [->|Hne].
      * exists (set_atlas c s'). by rewrite list_lookup_alter_eq, Hs''.
      * exists s'. by rewrite list_lookup_alter_ne.
    + cbn. apply pack_items_ref in Hin.
      assert (is_Some (ps_splats acc !! ref)) as [s' Hs''].
      { apply lookup_lt_is_Some. rewrite Hlen'. by eapply lookup_lt_Some. }
      exists (set_atlas c s'). by rewrite list_lookup_alter_eq, Hs''.
Qed.

End PackerLoop.

Section PackerResults.
Context {F : Type} `{Scalar F}.
Variable math_exp : F -> F.
Implicit Types (self : SplatAtlasGenerator (F := F)) (s : splat (F := F)).

Lemma generate_texture_atlas_inv self self' (atlases : list atlas_image) (n : Z) :
  generate_texture_atlas math_exp self = Ok (self', atlases, n) ->
  exists layers st,
    mapM (fun _ => np_zeros (atlas_size self)) (py_range (atlas_layers self)) = Ok layers
    /\ foldM (pack_step math_exp self) (pack_items self)
         {| ps_splats := splats self; ps_atlases := layers; packed_count := 0 |} = Ok st
    /\ self' = with_splats self (ps_splats st)
    /\ atlases = ps_atlases st /\ n = packed_count st.
Proof.
  unfold generate_texture_atlas. intros Hr. bind_inv Hr. injection Hr as <- <- <-.
  by exists a, a0.
Qed.

(** Every run of the packer that ends without an exception on a layer of
    non-negative size has placed every splat. *)
Lemma packer_places_all self self' (atlases : list atlas_image) (n : Z) :
  0 <= atlas_size self ->
  generate_texture_atlas math_exp self = Ok (self', atlases, n) ->
  n = Z.of_nat (length (splats self))
  /\ Forall (fun s => atlas s <> None) (splats self').
Proof.
  intros Hsize (layers & st & _ & Hloop & -> & _ & ->)%generate_texture_atlas_inv.
  apply pack_loop_all in Hloop as [Hcount Hall]; [|done..].
  cbn in Hcount. split; [lia|done].
Qed.

(** The packer leaves every record in its place and changes nothing but
    the atlas keys. *)
Lemma packer_keeps_records self self' (atlases : list atlas_image) (n : Z) :
  generate_texture_atlas math_exp self = Ok (self', atlases, n) ->
  Forall2 same_but_atlas (splats self) (splats self')
  /\ atlas_size self' = atlas_size self /\ atlas_layers self' = atlas_layers self
  /\ max_octree_depth self' = max_octree_depth self.
Proof.
  intros (layers & st & _ & Hloop & -> & _ & ->)%generate_texture_atlas_inv.
  by apply pack_loop_same in Hloop.
Qed.

(** C3, as the source has it.  A splat for which the test
    [grid_y * splat_size + splat_size <= atlas_size] fails is skipped: the
    step leaves the records, the layers and the count as they were.  But the
    row is taken modulo the number of rows, so on a layer of non-negative
    size the test never fails: a run of the packer that ends without an
    exception has placed every splat, and the count it reports is the
    number of splats. *)
Theorem C3_packer_places_every_splat self :
  (forall (st : pack_state) (i layer sz gx gy : Z) (ref : nat) s,
     py_mod i (atlas_layers self) = Ok layer ->
     splat_size_px s = Ok sz ->
     grid_cell self i sz = Ok (gx, gy) ->
     ~ gy * sz + sz <= atlas_size self ->
     pack_step math_exp self st (i, (ref, s)) = Ok st)
  /\ (0 <= atlas_size self ->
      is_ok (generate_texture_atlas math_exp self) ->
      exists self' atlases,
        generate_texture_atlas math_exp self
        = Ok (self', atlases, Z.of_nat (length (splats self)))
        /\ Forall (fun s => atlas s <> None) (splats self')).
Proof.
  split.
  - intros. by eapply pack_step_skip.
  - intros Hsize [[[self' atlases] n] Hr].
    destruct (packer_places_all _ _ _ _ Hsize Hr) as [-> Hall].
    by exists self', atlases.
Qed.

End PackerResults.

(** No binary64 input with a layer of non-negative size makes the packer
    report fewer placed splats than there are splats. *)
Lemma C3_counterexample :
  ~ exists (math_exp : float -> float) (self self' : SplatAtlasGenerator (F := float))
      (atlases : list atlas_image) (packed : Z),
      0 <= atlas_size self
      /\ generate_texture_atlas math_exp self = Ok (self', atlases, packed)
      /\ packed < Z.of_nat (length (splats self)).
Proof.
  intros (math_exp & self & self' & atlases & packed & Hsize & Hr & Hlt).
  apply packer_places_all in Hr as [-> _]; [lia|done].
Qed.

(** Two splats of different tile sizes (50 and 25 pixels) on two layers of
    64 pixels: both are placed.  And the skipping step, which needs a layer
    of negative size. *)
Lemma C3_witness :
  let self := f64_generator [f64_splat 0 0 0 0.25; f64_splat 1 0 0 0.5] 64 2 8 in
  let neg := f64_generator [f64_splat 0 0 0 0.5] (-1) (-1) 8 in
  let st : pack_state (F := float) :=
    {| ps_splats := splats neg; ps_atlases := []; packed_count := 0 |} in
  pack_step (fun _ => 1%float) neg st (0, (0%nat, f64_splat 0 0 0 0.5)) = Ok st
  /\ exists self' atlases,
       generate_texture_atlas (fun _ => 1%float) self = Ok (self', atlases, 2)
       /\ Forall (fun s => atlas s <> None) (splats self').
Proof.
  intros self neg st. split.
  - apply (proj1 (C3_packer_places_every_splat (fun _ => 1%float) neg)
             st 0 0 50 0 0 0%nat (f64_splat 0 0 0 0.5)).
    + vm_compute; reflexivity.
    + vm_compute; reflexivity.
    + vm_compute; reflexivity.
    + vm_compute. intros Hle. apply Hle. reflexivity.
  - apply (proj2 (C3_packer_places_every_splat (fun _ => 1%float) self)).
    + vm_compute. discriminate.
    + vm_compute. eexists. reflexivity.
Defined.

(** ** The packer can raise *)

(** C8 fails on the source: with layers of 32 pixels and a splat of scale
    0.5 (a tile of 50 pixels) the number of rows is 32 // 50 = 0 and the
    packer divides by it. *)
Theorem C8_packer_raises_on_small_atlas (math_exp : float -> float) :
  generate_texture_atlas math_exp (f64_generator [f64_splat 0 0 0 0.5] 32 4 8)
  = Raise ZeroDivisionError.
Proof. vm_compute. reflexivity. Qed.

(** ** Flattening the octree *)

(** The children of [Internal] nodes are visited as the elements of the
    list of children. *)
Lemma octree_node_ind {F} (P : octree_node (F := F) -> Prop) :
  (forall idxs b, P (Leaf idxs b)) ->
  (forall cs b, Forall (fun c => forall t, c = Some t -> P t) cs -> P (Internal cs b)) ->
  forall t, P t.
Proof.
  intros Hleaf Hint. fix IH 1. intros [idxs b|cs b]; [apply Hleaf|apply Hint].
  induction cs as [|c cs IHcs]; constructor; [|exact IHcs].
  destruct c as [c|]; intros t Ht; [|discriminate Ht].
  injection Ht as <-. apply IH.
Qed.

(** The array segment that flattening a tree appends when the array has
    [base] nodes: the node, then the segments of its children in order.
    [children_spec] gives the child slots and the segments of a list of
    children whose first segment starts at [next]. *)
Fixpoint children_spec {F}
    (rec : octree_node (F := F) -> nat -> list (flat_node (F := F)))
    (cs : list (option (octree_node (F := F)))) (next : nat)
  : list Z * list (flat_node (F := F)) :=
  match cs with
  | [] => ([], [])
  | None :: cs' =>
      let r := children_spec rec cs' next in (-1 :: r.1, r.2)
  | Some c :: cs' =>
      let seg := rec c next in
      let r := children_spec rec cs' (next + length seg) in
      (Z.of_nat next :: r.1, seg ++ r.2)
  end.

Fixpoint flat_spec {F} (t : octree_node (F := F)) (base : nat)
  : list (flat_node (F := F)) :=
  match t with
  | Leaf idxs b =>
      let count := Z.of_nat (length idxs) in
      [FlatLeaf count (idxs ++ replicate (Z.to_nat (8 - count)) 0) b]
  | Internal cs b =>
      let r := children_spec flat_spec cs (S base) in
      FlatInternal r.1 b :: r.2
  end.

(** Every [Internal] node has exactly eight children, and every leaf
    satisfies [P]; [root] tells whether the node is the root. *)
#[warnings="-register-all"]
Inductive tree_inv {F} (P : bool -> list Z -> list F -> Prop)
  : bool -> octree_node (F := F) -> Prop :=
| tree_inv_leaf root idxs b :
    P root idxs b -> tree_inv P root (Leaf idxs b)
| tree_inv_internal root cs b :
    length cs = 8%nat ->
    Forall (fun c => forall t, c = Some t -> tree_inv P false t) cs ->
    tree_inv P root (Internal cs b).

Section FlattenFacts.
Context {F : Type} `{Scalar F}.
Implicit Types (t : octree_node (F := F)) (array pre mid : list (flat_node (F := F))).

Lemma py_index_nat (len i : nat) : (i < len)%nat -> py_index len (Z.of_nat i) = Ok i.
Proof.
  intros Hi. unfold py_index. cbv zeta.
  destruct (decide (Z.of_nat i < 0)); [lia|].
  rewrite decide_True by lia. by rewrite Nat2Z.id.
Qed.

Lemma py_getitem_nat {A} (xs : list A) (i : nat) (x : A) :
  xs !! i = Some x -> py_getitem xs (Z.of_nat i) = Ok x.
Proof.
  intros Hx. unfold py_getitem. rewrite py_index_nat by (by eapply lookup_lt_Some).
  cbn. by rewrite Hx.
Qed.

Lemma set_child_offset_middle pre mid (offsets : list Z) (b : list F) (i : nat) (v : Z) :
  (i < length offsets)%nat ->
  set_child_offset (pre ++ FlatInternal offsets b :: mid) (Z.of_nat (length pre))
    (Z.of_nat i) v
  = Ok (pre ++ FlatInternal (<[i := v]> offsets) b :: mid).
Proof.
  intros Hi. unfold set_child_offset.
  rewrite (py_getitem_nat _ _ (FlatInternal offsets b)) by apply list_lookup_middle, eq_refl.
  cbn [bind]. rewrite py_index_nat by done. cbn [bind].
  unfold py_mutated. rewrite py_index_nat by (rewrite length_app; cbn; lia).
  f_equal. rewrite insert_app_r_alt by done. by rewrite Nat.sub_diag.
Qed.

Lemma children_loop_spec (cs : list (option (octree_node (F := F)))) :
  Forall (fun c => forall t, c = Some t -> forall array,
            flatten_node t array
            = Ok (Z.of_nat (length array), array ++ flat_spec t (length array))) cs ->
  forall (i : nat) (offsets : list Z) (b : list F) pre mid,
    length offsets = 8%nat -> (i + length cs <= 8)%nat ->
    let r := children_spec flat_spec cs (length pre + 1 + length mid) in
    children_loop flatten_node (Z.of_nat (length pre)) cs (Z.of_nat i)
      (pre ++ FlatInternal offsets b :: mid)
    = Ok (pre ++ FlatInternal (take i offsets ++ r.1 ++ drop (i + length cs) offsets) b
              :: mid ++ r.2).
Proof.
  induction 1 as [|c cs Hc _ IH]; intros i offsets b pre mid Hlen Hi; cbn [children_loop].
  - cbn. by rewrite Nat.add_0_r, take_drop, app_nil_r.
  - cbn [length] in Hi.
    assert (forall v, take (S i) (<[i:=v]> offsets) = take i offsets ++ [v]) as Htake.
    { intros v. rewrite (take_S_r _ _ v) by (apply list_lookup_insert_eq; lia).
      by rewrite take_insert_ge. }
    assert (forall v n, drop (S i + n) (<[i:=v]> offsets) = drop (i + S n) offsets) as Hdrop.
    { intros v n. rewrite drop_insert_lt by lia. f_equal; lia. }
    destruct c as [c|].
    + rewrite (Hc c eq_refl). cbn [bind fst snd].
      rewrite length_app; cbn [length].
      rewrite <- app_assoc; cbn [app].
      rewrite Nat2Z.inj_add, Nat2Z.inj_succ.
      replace (Z.of_nat (length pre) + Z.succ (Z.of_nat (length mid)))
        with (Z.of_nat (length pre + 1 + length mid)) by lia.
      rewrite (set_child_offset_middle pre (mid ++ _)) by lia. cbn [bind].
      replace (Z.of_nat i + 1) with (Z.of_nat (S i)) by lia.
      rewrite IH by (rewrite ?length_insert; lia).
      rewrite Htake, Hdrop, length_app. cbn [children_spec fst snd].
      replace (length pre + S (length mid))%nat with (length pre + 1 + length mid)%nat by lia.
      rewrite Nat.add_assoc. by rewrite <- !app_assoc.
    + rewrite (set_child_offset_middle pre mid) by lia. cbn [bind].
      replace (Z.of_nat i + 1) with (Z.of_nat (S i)) by lia.
      rewrite IH by (rewrite ?length_insert; lia).
      rewrite Htake, Hdrop. cbn [children_spec fst snd].
      by rewrite <- !app_assoc.
Qed.

Lemma children_spec_slots (rec : octree_node -> nat -> list flat_node)
    (cs : list (option (octree_node (F := F)))) (next : nat) :
  length (children_spec rec cs next).1 = length cs.
Proof.
  revert next. induction cs as [|[c|] cs IH]; intros next; cbn; [done|..];
    by rewrite IH.
Qed.

(** Flattening a tree whose inner nodes have eight children raises
    nothing, returns the index at which the node was appended, and appends
    [flat_spec]. *)
Lemma flatten_node_spec (P : bool -> list Z -> list F -> Prop) t :
  forall root, tree_inv P root t ->
  forall array,
    flatten_node t array
    = Ok (Z.of_nat (length array), array ++ flat_spec t (length array)).
Proof.
  induction t as [idxs b|cs b IH] using octree_node_ind; intros root Ht array; [done|].
  inversion Ht as [|? ? ? Hlen Hcs]; subst. cbn [flatten_node flat_spec].
  pose proof (children_loop_spec cs) as Hloop.
  specialize (Hloop ltac:(
    apply Forall_forall; intros c Hc t ->;
    rewrite Forall_forall in IH; rewrite Forall_forall in Hcs;
    by eapply (IH _ Hc), Hcs)).
  specialize (Hloop 0%nat (replicate 8 0) b array [] eq_refl ltac:(lia)).
  cbn [length app take] in Hloop. rewrite Nat.add_0_r, Nat.add_1_r in Hloop.
  change (Z.of_nat 0) with 0 in Hloop. rewrite Hloop. cbn [bind].
  rewrite Hlen. cbn [Nat.add replicate drop app]. by rewrite app_nil_r.
Qed.

End FlattenFacts.

(** ** Invariants of the flattened array *)

(** The node at [index] of an array of [n] nodes: a leaf holds the splat
    indices [idxs0], which satisfy [P], and is padded with zeros to eight
    slots; an internal node has eight slots, each -1 or the index of a
    later node of the array. *)
Definition flat_node_inv {F} (P : bool -> list Z -> list F -> Prop)
    (n index : nat) (root : bool) (node : flat_node (F := F)) : Prop :=
  match node with
  | FlatLeaf count idxs b =>
      exists idxs0,
        count = Z.of_nat (length idxs0)
        /\ idxs = idxs0 ++ replicate (Z.to_nat (8 - count)) 0
        /\ P root idxs0 b
  | FlatInternal offsets _ =>
      length offsets = 8%nat
      /\ Forall (fun o => o = -1 \/ Z.of_nat index < o < Z.of_nat n) offsets
  end.

(** C6 for one node. *)
Definition node_ok {F} (n index : nat) (node : flat_node (F := F)) : Prop :=
  match node with
  | FlatLeaf count idxs _ =>
      0 <= count <= 8 /\ length idxs = 8%nat
      /\ forall j : nat, count <= Z.of_nat j < 8 -> idxs !! j = Some 0
  | FlatInternal offsets _ =>
      length offsets = 8%nat
      /\ Forall (fun o => o = -1 \/ Z.of_nat index < o < Z.of_nat n) offsets
  end.

Section FlatInvariants.
Context {F : Type}.
Implicit Types (t : octree_node (F := F)) (node : flat_node (F := F)).
Variable P : bool -> list Z -> list F -> Prop.

Lemma flat_node_inv_mono (n n' index : nat) (root : bool) node :
  (n <= n')%nat -> flat_node_inv P n index root node -> flat_node_inv P n' index root node.
Proof.
  intros Hn. destruct node as [count idxs b|offsets b]; cbn; [done|].
  intros [Hlen Hall]. split; [done|].
  eapply Forall_impl; [done|]. cbn. intros o [->|Ho]; [by left|right; lia].
Qed.

Lemma flat_spec_nonempty t (base : nat) : (0 < length (flat_spec t base))%nat.
Proof. destruct t; cbn; lia. Qed.

Lemma children_spec_inv (cs : list (option (octree_node (F := F)))) :
  Forall (fun c => forall t, c = Some t -> forall base k node,
            flat_spec t base !! k = Some node ->
            flat_node_inv P (base + length (flat_spec t base)) (base + k)
              (false && bool_decide (k = 0%nat)) node) cs ->
  forall next : nat,
    let r := children_spec flat_spec cs next in
    Forall (fun o => o = -1 \/ Z.of_nat next <= o < Z.of_nat (next + length r.2)) r.1
    /\ forall k node, r.2 !! k = Some node ->
         flat_node_inv P (next + length r.2) (next + k) false node.
Proof.
  induction 1 as [|c cs Hc _ IH]; intros next; cbn [children_spec].
  - cbn. split; [constructor|]. intros k node Hk. by rewrite lookup_nil in Hk.
  - destruct c as [c|]; cbn [fst snd].
    + specialize (IH (next + length (flat_spec c next))%nat) as [Hslots Hnodes].
      pose proof (flat_spec_nonempty c next) as Hpos.
      rewrite length_app. split.
      * constructor; [right; lia|].
        eapply Forall_impl; [done|]. cbn. intros o [->|Ho]; [by left|right; lia].
      * intros k node Hk. apply lookup_app_Some in Hk as [Hk|[Hge Hk]].
        -- eapply flat_node_inv_mono; [|by apply (Hc c eq_refl next k node)]. lia.
        -- apply Hnodes in Hk.
           replace (next + length (flat_spec c next) + (k - length (flat_spec c next)))%nat
             with (next + k)%nat in Hk by lia.
           by rewrite Nat.add_assoc.
    + specialize (IH next) as [Hslots Hnodes]. split; [|done].
      constructor; [by left|done].
Qed.

(** Every node of the segment of a tree satisfies the invariant, with
    the first node of the segment being the root when the tree is. *)
Lemma flat_spec_inv t :
  forall root, tree_inv P root t ->
  forall base k node,
    flat_spec t base !! k = Some node ->
    flat_node_inv P (base + length (flat_spec t base)) (base + k)
      (root && bool_decide (k = 0%nat)) node.
Proof.
  induction t as [idxs b|cs b IH] using octree_node_ind; intros root Ht base k node Hk.
  - inversion Ht; subst. destruct k as [|[|k]]; try discriminate Hk.
    injection Hk as <-. cbn. rewrite andb_true_r. by exists idxs.
  - inversion Ht as [|? ? ? Hlen Hcs]; subst. cbn [flat_spec] in *.
    assert (Forall (fun c => forall t, c = Some t -> forall base k node,
              flat_spec t base !! k = Some node ->
              flat_node_inv P (base + length (flat_spec t base)) (base + k)
                (false && bool_decide (k = 0%nat)) node) cs) as Hch.
    { apply Forall_forall. intros c Hc t -> base' k' node' Hk'.
      rewrite Forall_forall in IH. rewrite Forall_forall in Hcs.
      apply (IH _ Hc _ eq_refl false); [|done]. by eapply Hcs. }
    destruct (children_spec_inv cs Hch (S base)) as [Hslots Hnodes].
    destruct k as [|k]; cbn in Hk.
    + injection Hk as <-. cbn. rewrite children_spec_slots. split; [done|].
      eapply Forall_impl; [done|]. cbn. intros o [->|Ho]; [by left|right; lia].
    + apply Hnodes in Hk. rewrite andb_false_r. cbn [length].
      by replace (base + S k)%nat with (S base + k)%nat by lia;
        replace (base + S (length (children_spec flat_spec cs (S base)).2))%nat
          with (S base + length (children_spec flat_spec cs (S base)).2)%nat by lia.
Qed.

Lemma flat_node_inv_ok (n index : nat) (root : bool) node :
  (forall r idxs b, P r idxs b -> (length idxs <= 8)%nat) ->
  flat_node_inv P n index root node -> node_ok n index node.
Proof.
  intros HP. destruct node as [count idxs b|offsets b]; cbn; [|done].
  intros (idxs0 & -> & -> & Hp%HP). rewrite length_app, length_replicate.
  split; [lia|]. split; [lia|]. intros j Hj.
  rewrite lookup_app_r by lia. apply lookup_replicate_2. lia.
Qed.

End FlatInvariants.

(** ** Building the octree *)

Lemma mapM_Forall {A B} (f : A -> result B) (xs : list A) (ys : list B) :
  mapM f xs = Ok ys -> Forall (fun y => exists x, x ∈ xs /\ f x = Ok y) ys.
Proof.
  revert ys. induction xs as [|x xs IH]; intros ys; cbn.
  - intros [= <-]. constructor.
  - intros Hr. bind_inv Hr. injection Hr as <-. constructor.
    + exists x. split; [left|done].
    + eapply Forall_impl; [by apply IH|]. cbn. intros y (x' & Hx' & Hy).
      exists x'. split; [by right|done].
Qed.

Lemma mapM_total {A B} (f : A -> result B) (xs : list A) :
  (forall x, x ∈ xs -> is_ok (f x)) -> is_ok (mapM f xs).
Proof.
  induction xs as [|x xs IH]; intros Hf; cbn; [by eexists|].
  destruct (Hf x) as [y ->]; [left|]. cbn.
  destruct IH as [ys ->]; [intros x' Hx'; apply Hf; by right|]. by eexists.
Qed.

(** What [_build_octree_recursive] guarantees of a leaf: at most eight
    indices, all among [all], and, unless the leaf is the root, every one of
    them the index of a splat whose position passes the inclusive test of the
    bounds stored in the leaf. *)
Definition built_leaf {F} `{Scalar F} (self : SplatAtlasGenerator (F := F))
    (all : list Z) (root : bool) (idxs : list Z) (b : list F) : Prop :=
  (length idxs <= 8)%nat
  /\ Forall (fun idx => idx ∈ all) idxs
  /\ (root = false ->
      exists lo hi, b = bounds_list lo hi
        /\ Forall (fun idx => passes_octant_test self lo hi idx = true) idxs).

Section BuildFacts.
Context {F : Type} `{Scalar F}.
Implicit Types (self : SplatAtlasGenerator (F := F)) (t : octree_node (F := F)).

Lemma build_leaf_inv self (all indices : list Z) (lo hi : vec3 (F := F)) (root : bool) :
  (root = false -> Forall (fun idx => passes_octant_test self lo hi idx = true) indices) ->
  Forall (fun idx => idx ∈ all) indices ->
  tree_inv (built_leaf self all) root (Leaf (take 8 indices) (bounds_list lo hi)).
Proof.
  intros Hpass Hall. constructor. split; [rewrite length_take; lia|].
  split; [by apply Forall_take|]. intros Hr. exists lo, hi.
  split; [done|]. by apply Forall_take, Hpass.
Qed.

Lemma build_inv self (all : list Z) (remaining : nat) :
  forall (indices : list Z) (lo hi : vec3 (F := F)) (root : bool) t,
    (root = false -> Forall (fun idx => passes_octant_test self lo hi idx = true) indices) ->
    Forall (fun idx => idx ∈ all) indices ->
    _build_octree_recursive self remaining indices lo hi = Ok t ->
    tree_inv (built_leaf self all) root t.
Proof.
  induction remaining as [|remaining IH]; intros indices lo hi root t Hpass Hall;
    cbn [_build_octree_recursive].
  - intros [= <-]. by apply build_leaf_inv.
  - case_decide as Hlen; [intros [= <-]; by apply build_leaf_inv|].
    intros Hr. bind_inv Hr. injection Hr as <-.
    constructor; [by rewrite (mapM_length _ _ _ Hstep)|].
    apply mapM_Forall in Hstep.
    eapply Forall_impl; [done|]. cbn. intros c (octant & _ & Hc) t ->.
    destruct (octant_bounds lo hi _ octant) as [oct_min oct_max].
    bind_inv Hc. apply octant_splats_spec in Hstep0 as [-> _].
    destruct (filter _ indices) as [|idx inside] eqn:Hf; [done|].
    bind_inv Hc. injection Hc as <-. rewrite <- Hf in Hstep0.
    eapply IH; [| |done].
    + intros _. apply Forall_forall. by intros idx' [? _]%list_elem_of_filter.
    + apply Forall_forall. intros idx' [_ ?]%list_elem_of_filter.
      rewrite Forall_forall in Hall. by apply Hall.
Qed.

Lemma build_total self (remaining : nat) :
  forall (indices : list Z) (lo hi : vec3 (F := F)),
    Forall (fun idx => is_ok (py_getitem (splats self) idx)) indices ->
    is_ok (_build_octree_recursive self remaining indices lo hi).
Proof.
  induction remaining as [|remaining IH]; intros indices lo hi Hvalid;
    cbn [_build_octree_recursive]; [by eexists|].
  case_decide; [by eexists|].
  destruct (mapM_total
    (fun octant =>
       let '(oct_min, oct_max) :=
         octant_bounds lo hi
           (v3_scalar fdiv (v3_map2 fadd lo hi) (float_of_int 2)) octant in
       inside <- octant_splats self indices oct_min oct_max ;;
       match inside with
       | [] => Ok None
       | _ :: _ =>
           child <- _build_octree_recursive self remaining inside oct_min oct_max ;;
           Ok (Some child)
       end) (py_range 8)) as [children Hch].
  - intros octant _. destruct (octant_bounds lo hi _ octant) as [oct_min oct_max].
    destruct (octant_splats_total self indices [] oct_min oct_max Hvalid) as [inside Hin].
    unfold octant_splats. rewrite Hin. cbn [bind].
    apply octant_splats_acc in Hin as [Hin _]. cbn [app] in Hin.
    destruct inside as [|idx inside]; [by eexists|].
    destruct (IH (idx :: inside) oct_min oct_max) as [child ->]; [|by eexists].
    rewrite Hin. apply Forall_forall. intros idx' [_ ?]%list_elem_of_filter.
    rewrite Forall_forall in Hvalid. by apply Hvalid.
  - rewrite Hch. by eexists.
Qed.

Lemma py_range_valid {A} (xs : list A) :
  Forall (fun idx => is_ok (py_getitem xs idx)) (py_range (Z.of_nat (length xs))).
Proof.
  apply Forall_forall. intros idx (i & -> & Hi)%list_elem_of_fmap.
  apply elem_of_seq in Hi. rewrite Nat2Z.id in Hi.
  destruct (lookup_lt_is_Some_2 xs i) as [x Hx]; [lia|].
  exists x. by apply py_getitem_nat.
Qed.

(** For a non-empty splat list [build_octree_index] raises nothing and
    returns the flattening of a tree that [_build_octree_recursive] built
    from the indices of all splats. *)
Lemma build_octree_index_spec self :
  splats self <> [] ->
  exists root,
    build_octree_index self = Ok (Some (flat_spec root 0))
    /\ tree_inv (built_leaf self (py_range (Z.of_nat (length (splats self))))) true root.
Proof.
  intros Hne. unfold build_octree_index.
  destruct (splats self) as [|s l] eqn:Hs; [done|]. cbn [fmap list_fmap].
  rewrite <- Hs. clear Hne.
  destruct (root_bounds (pos s) _) as [lo hi].
  destruct (build_total self (Z.to_nat (max_octree_depth self - 0))
              (py_range (Z.of_nat (length (splats self)))) lo hi) as [root Hroot];
    [apply py_range_valid|].
  exists root. rewrite Hroot. cbn [bind _flatten_octree].
  assert (tree_inv (built_leaf self (py_range (Z.of_nat (length (splats self))))) true root)
    as Hinv.
  { eapply build_inv; [| |done]; [done|]. by apply Forall_forall. }
  split; [|done].
  by rewrite (flatten_node_spec _ root true Hinv []).
Qed.

End BuildFacts.

(** C6. For a non-empty splat list the octree builder returns a non-empty
    array in which every leaf has at most eight splats in eight slots, the
    slots after the count being zero, and every internal node has eight
    child slots, each -1 or the index of a node of the array that comes
    after the node itself. *)
Theorem C6_flattened_octree_invariant {F} `{Scalar F}
    (self : SplatAtlasGenerator (F := F)) :
  splats self <> [] ->
  exists octree,
    build_octree_index self = Ok (Some octree)
    /\ octree <> []
    /\ forall (index : nat) (node : flat_node),
         octree !! index = Some node -> node_ok (length octree) index node.
Proof.
  intros (root & Hr & Hinv)%build_octree_index_spec.
  exists (flat_spec root 0). split; [done|]. split.
  - pose proof (flat_spec_nonempty root 0) as Hpos.
    intros Hnil. rewrite Hnil in Hpos. cbn in Hpos. lia.
  - intros index node Hnode.
    eapply flat_node_inv_ok; [|by apply (flat_spec_inv _ root true Hinv 0 index node)].
    by intros r idxs b [? _].
Qed.

Definition f64_cube_corners : list (splat (F := float)) :=
  [f64_splat 0 0 0 0.125; f64_splat 1 0 0 0.25; f64_splat 0 1 0 0.25;
   f64_splat 0 0 1 0.25; f64_splat 1 1 0 0.25; f64_splat 1 0 1 0.25;
   f64_splat 0 1 1 0.25; f64_splat 1 1 1 0.25; f64_splat 0.5 0.25 0.25 0.25].

(** Nine splats: the root is split, and the array has nine nodes. *)
Lemma C6_witness :
  exists octree,
    build_octree_index (f64_generator f64_cube_corners 1024 4 8) = Ok (Some octree)
    /\ length octree = 9%nat
    /\ forall (index : nat) (node : flat_node),
         octree !! index = Some node -> node_ok (length octree) index node.
Proof.
  destruct (C6_flattened_octree_invariant (f64_generator f64_cube_corners 1024 4 8))
    as (octree & Hoct & _ & Hok); [vm_compute; discriminate|].
  exists octree. split; [done|]. split; [|done].
  vm_compute in Hoct. injection Hoct as <-. reflexivity.
Defined.

(** ** Files *)

Lemma w_write_inv (r : result (list Byte.byte)) (bs : list Byte.byte) :
  w_write r = (bs, Ok tt) -> r = Ok bs.
Proof. destruct r; cbn; [by intros [= ->]|done]. Qed.

Lemma w_seq_inv (a b : writer) (bs : list Byte.byte) :
  w_seq a b = (bs, Ok tt) ->
  exists x y, a = (x, Ok tt) /\ b = (y, Ok tt) /\ bs = x ++ y.
Proof.
  destruct a as [x [[]|e]], b as [y rb]; unfold w_seq; cbn; [|done].
  intros [= <- ->]. by exists x, y.
Qed.

Lemma w_for_inv {A} (xs : list A) (body : A -> writer) (bs : list Byte.byte) :
  w_for xs body = (bs, Ok tt) ->
  exists segs, Forall2 (fun x seg => body x = (seg, Ok tt)) xs segs /\ bs = concat segs.
Proof.
  revert bs. induction xs as [|x xs IH]; intros bs; cbn.
  - intros [= <-]. exists []. by split; [constructor|].
  - intros (seg & rest & Hx & Hrest & ->)%w_seq_inv.
    apply IH in Hrest as (segs & Hsegs & ->).
    exists (seg :: segs). by split; [constructor|].
Qed.

Lemma w_for_const {A} (xs : list A) (body : A -> writer) (seg : list Byte.byte) :
  (forall x, x ∈ xs -> body x = (seg, Ok tt)) ->
  w_for xs body = (concat (replicate (length xs) seg), Ok tt).
Proof.
  induction xs as [|x xs IH]; intros Hb; cbn; [done|].
  rewrite Hb by left. rewrite IH by (intros y Hy; apply Hb; by right). done.
Qed.

Lemma length_le_bytes (n : nat) (v : Z) : length (le_bytes n v) = n.
Proof. revert v. induction n as [|n IH]; intros v; cbn; [done|]. by rewrite IH. Qed.

Lemma pack_I_length (v : Z) (bs : list Byte.byte) : pack_I v = Ok bs -> length bs = 4%nat.
Proof. unfold pack_I. case_decide; [|done]. by intros [= <-]. Qed.

Section WriterFacts.
Context {F : Type} `{Scalar F} `{Pack32 F}.
Implicit Types (s : splat (F := F)) (self : SplatAtlasGenerator (F := F)).

Lemma pack_floats_length (xs : list F) (bs : list Byte.byte) :
  pack_floats xs = Ok bs -> length bs = (4 * length xs)%nat.
Proof.
  unfold pack_floats. revert bs. induction xs as [|x xs IH]; intros bs Hr; cbn in Hr.
  - by injection Hr as <-.
  - bind_inv Hr. injection Hr as <-. bind_inv Hstep. injection Hstep as <-.
    cbn. rewrite length_app, (pack_f_length _ _ Hstep0), (IH (concat a1)); [lia|].
    by rewrite Hstep1.
Qed.

(** The six segments of the record of one splat. *)
Lemma splat_writer_inv s (bs : list Byte.byte) :
  splat_writer s = (bs, Ok tt) ->
  exists position pad1 cov pad2 rgba uvsl,
    bs = position ++ pad1 ++ cov ++ pad2 ++ rgba ++ uvsl
    /\ pack_floats [(pos s).1.1; (pos s).1.2; (pos s).2] = Ok position
    /\ pack_f (float_of_int 0) = Ok pad1
    /\ pack_floats [(covariance s).1.1.1.1.1; (covariance s).1.1.1.1.2;
                    (covariance s).1.1.1.2; (covariance s).1.1.2;
                    (covariance s).1.2; (covariance s).2] = Ok cov
    /\ pack_floats [float_of_int 0; float_of_int 0] = Ok pad2
    /\ pack_floats [(color s).1.1; (color s).1.2; (color s).2; alpha s] = Ok rgba
    /\ pack_floats
         match atlas s with
         | Some a => [a_u a; a_v a; a_size a; float_of_int (a_layer a)]
         | None => [float_of_int 0; float_of_int 0; float_of_int 0; float_of_int 0]
         end = Ok uvsl.
Proof.
  unfold splat_writer.
  destruct (pos s) as [[p0 p1] p2], (covariance s) as [[[[[c0 c1] c2] c3] c4] c5],
    (color s) as [[r g] b].
  intros Hw.
  destruct (atlas s) as [a|];
    apply w_seq_inv in Hw as (position & r1 & Hp%w_write_inv & Hw & ->);
    apply w_seq_inv in Hw as (pad1 & r2 & Hp1%w_write_inv & Hw & ->);
    apply w_seq_inv in Hw as (cov & r3 & Hc%w_write_inv & Hw & ->);
    apply w_seq_inv in Hw as (pad2 & r4 & Hp2%w_write_inv & Hw & ->);
    apply w_seq_inv in Hw as (rgba & uvsl & Hrgba%w_write_inv & Hu%w_write_inv & ->);
    by exists position, pad1, cov, pad2, rgba, uvsl.
Qed.

Lemma splat_writer_length s (bs : list Byte.byte) :
  splat_writer s = (bs, Ok tt) -> length bs = 80%nat.
Proof.
  intros (position & pad1 & cov & pad2 & rgba & uvsl & -> & Hp & Hp1 & Hc & Hp2 & Hr & Hu)
    %splat_writer_inv.
  apply pack_floats_length in Hp, Hc, Hp2, Hr, Hu. apply pack_f_length in Hp1.
  rewrite !length_app, Hp, Hp1, Hc, Hp2, Hr, Hu. by destruct (atlas s).
Qed.

(** The content of [scene.splat]: the count, the magic constant, and one
    record per element of [self.splats], in the order of that list. *)
Lemma scene_writer_inv self (bs : list Byte.byte) :
  scene_writer self = (bs, Ok tt) ->
  exists count magic records,
    bs = count ++ magic ++ concat records
    /\ pack_I (Z.of_nat (length (splats self))) = Ok count
    /\ pack_I SPLT_magic = Ok magic
    /\ Forall2 (fun s r => splat_writer s = (r, Ok tt)) (splats self) records.
Proof.
  unfold scene_writer.
  intros (count & r1 & Hc%w_write_inv & Hw & ->)%w_seq_inv.
  apply w_seq_inv in Hw as (magic & r2 & Hm%w_write_inv & Hw & ->).
  apply w_for_inv in Hw as (records & Hrec & ->).
  by exists count, magic, records.
Qed.

End WriterFacts.

(** C2, as the source has it.  Whenever a record is written in full it is
    the concatenation of six segments: the three coordinates of the position
    packed as floats (12 bytes), the number 0 packed as a float (4 bytes of
    padding), the six covariance values (24 bytes), two packed zeros (8
    bytes of padding), the three colour components and the alpha (16 bytes),
    and the atlas u, v, size and layer, or four zeros for a splat without
    atlas keys (16 bytes): 80 bytes.  [scene.splat] is the 4-byte splat
    count, the 4-byte magic constant and these records, one for each splat
    in the order of [self.splats]. *)
Theorem C2_splat_record_layout {F} `{Scalar F} `{Pack32 F}
    (self : SplatAtlasGenerator (F := F)) (bs : list Byte.byte) :
  scene_writer self = (bs, Ok tt) ->
  exists count magic records,
    bs = count ++ magic ++ concat records
    /\ pack_I (Z.of_nat (length (splats self))) = Ok count /\ length count = 4%nat
    /\ pack_I SPLT_magic = Ok magic /\ length magic = 4%nat
    /\ length bs = (8 + 80 * length (splats self))%nat
    /\ Forall2 (fun s r =>
         splat_writer s = (r, Ok tt)
         /\ length r = 80%nat
         /\ exists position pad1 cov pad2 rgba uvsl,
              r = position ++ pad1 ++ cov ++ pad2 ++ rgba ++ uvsl
              /\ pack_floats [(pos s).1.1; (pos s).1.2; (pos s).2] = Ok position
              /\ length position = 12%nat
              /\ pack_f (float_of_int 0) = Ok pad1 /\ length pad1 = 4%nat
              /\ pack_floats [(covariance s).1.1.1.1.1; (covariance s).1.1.1.1.2;
                              (covariance s).1.1.1.2; (covariance s).1.1.2;
                              (covariance s).1.2; (covariance s).2] = Ok cov
              /\ length cov = 24%nat
              /\ pack_floats [float_of_int 0; float_of_int 0] = Ok pad2
              /\ length pad2 = 8%nat
              /\ pack_floats [(color s).1.1; (color s).1.2; (color s).2; alpha s]
                 = Ok rgba
              /\ length rgba = 16%nat
              /\ pack_floats
                   match atlas s with
                   | Some a => [a_u a; a_v a; a_size a; float_of_int (a_layer a)]
                   | None => [float_of_int 0; float_of_int 0; float_of_int 0;
                              float_of_int 0]
                   end = Ok uvsl
              /\ length uvsl = 16%nat)
         (splats self) records.
Proof.
  intros (count & magic & records & -> & Hc & Hm & Hrec)%scene_writer_inv.
  exists count, magic, records.
  pose proof (pack_I_length _ _ Hc) as Hlc. pose proof (pack_I_length _ _ Hm) as Hlm.
  repeat (split; [done|]). split.
  - rewrite !length_app, Hlc, Hlm.
    enough (length (concat records) = (80 * length (splats self))%nat) by lia.
    clear Hc. induction Hrec as [|s r l rs Hs _ IH]; cbn; [done|].
    rewrite length_app, IH, (splat_writer_length _ _ Hs). lia.
  - eapply Forall2_impl; [done|]. cbn. intros s r Hs.
    split; [done|]. split; [by eapply splat_writer_length|].
    apply splat_writer_inv in Hs
      as (position & pad1 & cov & pad2 & rgba & uvsl & -> & Hp & Hp1 & Hcv & Hp2 & Hr & Hu).
    pose proof (pack_floats_length _ _ Hp) as Hlp.
    pose proof (pack_f_length _ _ Hp1) as Hlp1.
    pose proof (pack_floats_length _ _ Hcv) as Hlcv.
    pose proof (pack_floats_length _ _ Hp2) as Hlp2.
    pose proof (pack_floats_length _ _ Hr) as Hlr.
    pose proof (pack_floats_length _ _ Hu) as Hlu.
    exists position, pad1, cov, pad2, rgba, uvsl.
    repeat (split; [done|]). by destruct (atlas s).
Qed.

(** The record of a binary64 splat is written in full and has 80 bytes,
    not 68. *)
Lemma C2_counterexample :
  (splat_writer (f64_splat 1 2 3 0.5)).2 = Ok tt
  /\ length (splat_writer (f64_splat 1 2 3 0.5)).1 = 80%nat
  /\ length (splat_writer (f64_splat 1 2 3 0.5)).1 <> 68%nat.
Proof. vm_compute. repeat split. discriminate. Qed.

(** [scene.splat] for two binary64 splats has 8 + 2 * 80 bytes. *)
Lemma C2_witness :
  let self := f64_generator [f64_splat 1 2 3 0.5; f64_splat 0 0 0 0.25] 1024 4 8 in
  (scene_writer self).2 = Ok tt /\ length (scene_writer self).1 = 168%nat.
Proof.
  intros self.
  destruct (C2_splat_record_layout self (scene_writer self).1)
    as (count & magic & records & _ & _ & _ & _ & _ & Hlen & _).
  - vm_compute. reflexivity.
  - split; [vm_compute; reflexivity|]. rewrite Hlen. reflexivity.
Defined.

(** ** The exporter *)

(** An atlas layer that nothing was drawn on, as written to its file. *)
Definition zero_atlas_bytes (size : Z) : list Byte.byte :=
  replicate (Z.to_nat size * Z.to_nat size * 4) Byte.x00.

(** The files [atlas_t{i}.raw] for [i] in [indices], all with content
    [bs], written over [fs]. *)
Definition with_atlas_files (bs : list Byte.byte) (indices : list nat)
    (fs : filesystem) : filesystem :=
  foldl (fun fs i => <[atlas_name i := bs]> fs) fs indices.

Lemma concat_replicate_replicate {A} (n m : nat) (x : A) :
  concat (replicate n (replicate m x)) = replicate (n * m) x.
Proof.
  induction n as [|n IH]; cbn; [done|]. by rewrite IH, replicate_add.
Qed.

Lemma with_atlas_files_lookup_other bs indices (fs : filesystem) (name : string) :
  (forall i, i ∈ indices -> atlas_name i <> name) ->
  with_atlas_files bs indices fs !! name = fs !! name.
Proof.
  unfold with_atlas_files. revert fs.
  induction indices as [|j indices IH]; intros fs Hne; cbn; [done|].
  rewrite IH by (intros i Hi; apply Hne; by right).
  apply lookup_insert_ne, Hne. left.
Qed.

Lemma with_atlas_files_lookup bs indices (fs : filesystem) (name : string) :
  fs !! name = Some bs \/ (exists i, i ∈ indices /\ atlas_name i = name) ->
  with_atlas_files bs indices fs !! name = Some bs.
Proof.
  unfold with_atlas_files. revert fs.
  induction indices as [|j indices IH]; intros fs Hcase; cbn.
  - destruct Hcase as [?|(i & Hi & _)]; [done|]. by apply elem_of_nil in Hi.
  - apply IH. destruct (decide (atlas_name j = name)) as [<-|Hne].
    + left. apply lookup_insert_eq.
    + destruct Hcase as [Hfs|(i & Hi & Hname)].
      * left. by rewrite lookup_insert_ne.
      * apply elem_of_cons in Hi as [->|Hi]; [done|]. right. by exists i.
Qed.

Lemma atlas_name_not (i : nat) (name : string) :
  (forall rest, name <> String (Ascii.ascii_of_nat 97) rest) -> atlas_name i <> name.
Proof. intros Hn Heq. exact (Hn _ (eq_sym Heq)). Qed.

Section ExportFacts.
Context {F : Type} `{Scalar F} `{Pack32 F}.
Variable math_exp : F -> F.
Implicit Types (self : SplatAtlasGenerator (F := F)) (fs : filesystem).

Lemma with_splats_id self : with_splats self (splats self) = self.
Proof. by destruct self. Qed.

Lemma np_zeros_ok (n : Z) :
  0 <= n ->
  np_zeros n = Ok (replicate (Z.to_nat n) (replicate (Z.to_nat n) (0, 0, 0, 0))).
Proof. intros Hn. unfold np_zeros. by rewrite decide_False by lia. Qed.

Lemma elem_of_py_range (n x : Z) : x ∈ py_range n <-> 0 <= x < n.
Proof.
  unfold py_range. rewrite list_elem_of_fmap. split.
  - intros (i & -> & Hi). apply elem_of_seq in Hi. lia.
  - intros Hx. exists (Z.to_nat x). split; [lia|]. apply elem_of_seq. lia.
Qed.

Lemma length_py_range (n : Z) : length (py_range n) = Z.to_nat n.
Proof. unfold py_range. by rewrite length_fmap, length_seq. Qed.

(** The file of a layer that nothing was drawn on. *)
Lemma atlas_writer_zeros self :
  atlas_writer self
    (replicate (Z.to_nat (atlas_size self))
       (replicate (Z.to_nat (atlas_size self)) (0, 0, 0, 0)))
  = (zero_atlas_bytes (atlas_size self), Ok tt).
Proof.
  unfold atlas_writer, zero_atlas_bytes. set (n := atlas_size self).
  rewrite (w_for_const _ _ (replicate (Z.to_nat n * 4) Byte.x00)).
  - rewrite length_py_range, concat_replicate_replicate. do 2 f_equal. lia.
  - intros y (i & -> & Hi%elem_of_seq)%list_elem_of_fmap.
    rewrite (w_for_const _ _ (replicate 4 Byte.x00)).
    + by rewrite length_py_range, concat_replicate_replicate.
    + intros x (j & -> & Hj%elem_of_seq)%list_elem_of_fmap. unfold np_getitem.
      rewrite py_index_nat by (rewrite length_replicate; lia).
      cbn [bind]. unfold atlas_image, pixel. rewrite lookup_replicate_2 by lia.
      rewrite (py_getitem_nat _ _ (0, 0, 0, 0)) by (apply lookup_replicate_2; lia).
      reflexivity.
Qed.

Lemma io_for_atlases self (bs : list Byte.byte) (atlases : list atlas_image) :
  (forall a, a ∈ atlases -> atlas_writer self a = (bs, Ok tt)) ->
  forall (k : nat) fs,
    io_for (imap (fun i x => ((k + i)%nat, x)) atlases)
      (fun e => open_wb (atlas_name e.1) (atlas_writer self e.2)) fs
    = (Ok tt, with_atlas_files bs (seq k (length atlases)) fs).
Proof.
  induction atlases as [|a atlases IH]; intros Hw k fs; [done|].
  cbn [imap io_for length seq]. unfold io_bind, open_wb at 1. cbn [fst snd].
  rewrite Hw by left. cbn [fst snd].
  rewrite (imap_ext _ (fun i x => ((S k + i)%nat, x))) by (intros; cbn; f_equal; lia).
  rewrite IH by (intros a' Ha'; apply Hw; by right).
  by rewrite Nat.add_0_r.
Qed.

(** What [export_assets] does when no splat was loaded and the atlas size
    is not negative: no exception, the layers written as zeros, no
    [octree.idx], a [scene.splat] that holds the count 0 and the magic
    constant, and the metadata. *)
Lemma export_assets_empty self fs :
  splats self = [] -> 0 <= atlas_size self ->
  export_assets math_exp self fs
  = (Ok self,
     <["metadata.json" := String.list_byte_of_string (metadata_json self None)]>
       (<["scene.splat" := le_bytes 4 0 ++ le_bytes 4 SPLT_magic]>
          (with_atlas_files (zero_atlas_bytes (atlas_size self))
             (seq 0 (Z.to_nat (atlas_layers self))) fs))).
Proof.
  intros Hs Hsize. unfold export_assets, generate_texture_atlas.
  rewrite (mapM_ok _ (fun _ => replicate (Z.to_nat (atlas_size self))
                                 (replicate (Z.to_nat (atlas_size self)) (0, 0, 0, 0))))
    by (intros; by apply np_zeros_ok).
  rewrite Hs. cbn [bind enumerate imap sorted_desc foldr foldM].
  rewrite <- Hs, with_splats_id.
  unfold io_bind at 1, io_lift at 1. cbn [fst snd].
  unfold io_bind at 1. unfold enumerate.
  rewrite (io_for_atlases self (zero_atlas_bytes (atlas_size self)) _) with (k := 0%nat).
  2:{ intros a (x & -> & _)%list_elem_of_fmap. apply atlas_writer_zeros. }
  cbn [ps_atlases]. rewrite length_fmap, length_py_range.
  unfold io_bind at 1, io_lift at 1, build_octree_index. rewrite Hs.
  cbn [fmap list_fmap]. unfold io_bind, io_ret, open_wb, scene_writer.
  rewrite Hs. reflexivity.
Qed.

End ExportFacts.

Section ExportEmpty.
Context {F : Type} `{Scalar F} `{Pack32 F}.
Variable math_exp : F -> F.

Lemma empty_export_files (self : SplatAtlasGenerator (F := F)) (fs : filesystem) :
  let fs' :=
    <["metadata.json" := String.list_byte_of_string (metadata_json self None)]>
      (<["scene.splat" := le_bytes 4 0 ++ le_bytes 4 SPLT_magic]>
         (with_atlas_files (zero_atlas_bytes (atlas_size self))
            (seq 0 (Z.to_nat (atlas_layers self))) fs)) in
  (forall i : nat, (i < Z.to_nat (atlas_layers self))%nat ->
     fs' !! atlas_name i = Some (zero_atlas_bytes (atlas_size self)))
  /\ fs' !! "scene.splat" = Some (le_bytes 4 0 ++ le_bytes 4 SPLT_magic)
  /\ fs' !! "metadata.json"
     = Some (String.list_byte_of_string (metadata_json self None))
  /\ fs' !! "octree.idx" = fs !! "octree.idx".
Proof.
  intros fs'. subst fs'. split; [|split; [|split]].
  - intros i Hi.
    rewrite lookup_insert_ne by (apply not_eq_sym, atlas_name_not; by intros).
    rewrite lookup_insert_ne by (apply not_eq_sym, atlas_name_not; by intros).
    apply with_atlas_files_lookup. right. exists i. split; [|done].
    apply elem_of_seq. lia.
  - rewrite lookup_insert_ne by done. apply lookup_insert_eq.
  - apply lookup_insert_eq.
  - rewrite !lookup_insert_ne by done.
    apply with_atlas_files_lookup_other. intros i _. apply atlas_name_not. by intros.
Qed.

(** C1, as the source has it.  When no usable point survived ingestion and
    the atlas size is not negative, [export_assets] raises nothing: it
    writes one file of zeros per atlas layer, a [scene.splat] that holds the
    count 0 and the magic constant, and [metadata.json]; [octree.idx] is the
    one file it does not write. *)
Theorem C1_empty_dataset_is_exported (self : SplatAtlasGenerator (F := F))
    (fs : filesystem) :
  splats self = [] -> 0 <= atlas_size self ->
  (export_assets math_exp self fs).1 = Ok self
  /\ (forall i : nat, (i < Z.to_nat (atlas_layers self))%nat ->
        (export_assets math_exp self fs).2 !! atlas_name i
        = Some (zero_atlas_bytes (atlas_size self)))
  /\ (export_assets math_exp self fs).2 !! "scene.splat"
     = Some (le_bytes 4 0 ++ le_bytes 4 SPLT_magic)
  /\ (export_assets math_exp self fs).2 !! "metadata.json"
     = Some (String.list_byte_of_string (metadata_json self None))
  /\ (export_assets math_exp self fs).2 !! "octree.idx" = fs !! "octree.idx".
Proof.
  intros Hs Hsize. rewrite export_assets_empty by done. cbn [fst snd].
  split; [done|]. apply empty_export_files.
Qed.

End ExportEmpty.

(** With the default configuration and no splat, the export ends without
    an exception and has written [scene.splat] (eight bytes), the first
    atlas layer and the metadata. *)
Lemma C1_counterexample :
  let self := f64_generator [] 1024 4 8 in
  let r := export_assets (fun x => x) self ∅ in
  r.1 = Ok self
  /\ r.2 !! "scene.splat"
     = Some [Byte.x00; Byte.x00; Byte.x00; Byte.x00;
             Byte.x54; Byte.x4c; Byte.x50; Byte.x53]
  /\ is_Some (r.2 !! "atlas_t0.raw")
  /\ is_Some (r.2 !! "metadata.json").
Proof.
  intros self r. subst r.
  rewrite export_assets_empty by (vm_compute; done). cbn [fst snd].
  destruct (empty_export_files self ∅) as (Hatlas & Hscene & Hmeta & _).
  split; [done|]. split; [exact Hscene|]. split; [|by eexists].
  exists (zero_atlas_bytes (atlas_size self)). apply (Hatlas 0%nat).
  vm_compute. lia.
Qed.

(** Two layers of two by two pixels and no splat. *)
Lemma C1_witness :
  let self := f64_generator [] 2 2 8 in
  let r := export_assets (fun x => x) self ∅ in
  r.1 = Ok self
  /\ r.2 !! "atlas_t1.raw" = Some (replicate 16 Byte.x00)
  /\ r.2 !! "scene.splat"
     = Some [Byte.x00; Byte.x00; Byte.x00; Byte.x00;
             Byte.x54; Byte.x4c; Byte.x50; Byte.x53]
  /\ r.2 !! "octree.idx" = None.
Proof.
  intros self r.
  destruct (C1_empty_dataset_is_exported (fun x => x) self ∅)
    as (Hok & Hatlas & Hscene & _ & Hoct).
  - reflexivity.
  - vm_compute. discriminate.
  - split; [exact Hok|]. split; [|split; [exact Hscene|exact Hoct]].
    apply (Hatlas 1%nat). vm_compute. lia.
Defined.

Section ExportOrder.
Context {F : Type} `{Scalar F} `{Pack32 F}.
Variable math_exp : F -> F.
Implicit Types (self : SplatAtlasGenerator (F := F)) (fs : filesystem).

(** The steps of an export that ended without an exception. *)
Lemma export_assets_inv self fs self' fs' :
  export_assets math_exp self fs = (Ok self', fs') ->
  exists (atlases : list atlas_image) (n : Z) octree (scene : list Byte.byte)
         (fs2 : filesystem),
    generate_texture_atlas math_exp self = Ok (self', atlases, n)
    /\ build_octree_index self' = Ok octree
    /\ scene_writer self' = (scene, Ok tt)
    /\ fs' = <["metadata.json" :=
                 String.list_byte_of_string (metadata_json self' octree)]>
               (<["scene.splat" := scene]> fs2)
    /\ match octree with
       | Some (node :: l) =>
           exists bs, octree_writer self' (node :: l) = (bs, Ok tt)
                      /\ fs2 !! "octree.idx" = Some bs
       | _ => True
       end.
Proof.
  unfold export_assets, io_bind, io_lift, io_ret.
  destruct (generate_texture_atlas math_exp self) as [[[self1 atlases] n]|e]
    eqn:Hgen; cbn [fst snd]; [|done].
  destruct (io_for _ _ fs) as [[[]|e] fs1]; [|done].
  destruct (build_octree_index self1) as [octree|e] eqn:Hbuild; [|done].
  intros Hr.
  assert (exists fs2,
            match octree with
            | Some (node :: l) =>
                exists bs, octree_writer self1 (node :: l) = (bs, Ok tt)
                           /\ fs2 !! "octree.idx" = Some bs
            | _ => True
            end
            /\ (let (r, fs'0) := open_wb "scene.splat" (scene_writer self1) fs2 in
                match r with
                | Ok _ =>
                    let (r0, fs'1) :=
                      open_wb "metadata.json"
                        (w_write (Ok (String.list_byte_of_string
                                        (metadata_json self1 octree)))) fs'0 in
                    match r0 with
                    | Ok _ => (Ok self1, fs'1)
                    | Raise e => (Raise e, fs'1)
                    end
                | Raise e => (Raise e, fs'0)
                end) = (Ok self', fs')) as (fs2 & Hoct & Hrest).
  { destruct octree as [[|node l]|]; try (exists fs1; by split).
    unfold open_wb at 1 in Hr. cbn [fst snd] in Hr.
    destruct (octree_writer self1 (node :: l)) as [bs [[]|e]] eqn:Hw; [|done].
    cbn [fst snd] in Hr. eexists. split; [|exact Hr].
    exists bs. split; [done|]. apply lookup_insert_eq. }
  clear Hr. unfold open_wb in Hrest. cbn [fst snd w_write] in Hrest.
  destruct (scene_writer self1) as [scene [[]|e]] eqn:Hscene; [|done].
  cbn [fst snd] in Hrest. injection Hrest as <- <-.
  by exists atlases, n, octree, scene, fs2.
Qed.

(** The bytes of the [i]-th of a list of segments of [n] bytes each. *)
Lemma concat_slice {A} (n : nat) (segs : list (list A)) (i : nat) (seg : list A) :
  Forall (fun s => length s = n) segs ->
  segs !! i = Some seg ->
  take n (drop (i * n) (concat segs)) = seg.
Proof.
  intros Hall. revert i. induction Hall as [|s segs Hs _ IH]; intros i Hi; [done|].
  destruct i as [|i].
  - injection Hi as ->. change (take n (seg ++ concat segs) = seg).
    by rewrite take_app_length'.
  - cbn [concat]. change (S i * n)%nat with (n + i * n)%nat.
    rewrite drop_app_add' by done. by apply IH.
Qed.

End ExportOrder.

Lemma py_getitem_inv {A} (xs : list A) (i : Z) (x : A) :
  0 <= i -> py_getitem xs i = Ok x -> xs !! Z.to_nat i = Some x.
Proof.
  intros Hi. unfold py_getitem, py_index. cbv zeta.
  destruct (decide (i < 0)); [lia|]. case_decide; [|done]. cbn [bind].
  by destruct (xs !! Z.to_nat i); intros [= ->].
Qed.

(** C10. When an export ends without an exception: the records of
    [self.splats] are, place by place, the ingested records up to their
    atlas keys; the bytes 8 + 80 i to 8 + 80 (i + 1) of [scene.splat] are the
    record of the splat at place [i]; the octree written to [octree.idx] is
    the one built from these records; and every index stored in a leaf is
    the place of a splat of that list, whose position, in a leaf other than
    the root, passes the inclusive test of the bounds of the leaf. *)
Theorem C10_splat_order_is_kept {F} `{Scalar F} `{Pack32 F} (math_exp : F -> F)
    (self self' : SplatAtlasGenerator (F := F)) (fs fs' : filesystem) :
  export_assets math_exp self fs = (Ok self', fs') ->
  Forall2 same_but_atlas (splats self) (splats self')
  /\ (exists scene,
        fs' !! "scene.splat" = Some scene
        /\ length scene = (8 + 80 * length (splats self))%nat
        /\ forall (i : nat) s,
             splats self' !! i = Some s ->
             splat_writer s = (take 80 (drop (8 + 80 * i) scene), Ok tt))
  /\ (splats self <> [] ->
      exists octree bs,
        build_octree_index self' = Ok (Some octree)
        /\ octree_writer self' octree = (bs, Ok tt)
        /\ fs' !! "octree.idx" = Some bs)
  /\ (forall octree (index : nat) (count : Z) (idxs : list Z) (b : list F)
             (j : nat) (idx : Z),
        build_octree_index self' = Ok (Some octree) ->
        octree !! index = Some (FlatLeaf count idxs b) ->
        Z.of_nat j < count -> idxs !! j = Some idx ->
        exists s,
          0 <= idx /\ splats self' !! Z.to_nat idx = Some s
          /\ (index <> 0%nat ->
              exists lo hi, b = bounds_list lo hi /\ in_octant (pos s) lo hi = true)).
Proof.
  intros (atlases & n & octree & scene & fs2 & Hgen & Hbuild & Hscene & -> & Hoct)
    %export_assets_inv.
  destruct (packer_keeps_records _ _ _ _ _ Hgen) as (Hsame & _).
  pose proof (Forall2_length _ _ _ Hsame) as Hlen.
  split; [done|]. split; [|split].
  - exists scene. split; [by rewrite lookup_insert_ne, lookup_insert_eq|].
    apply scene_writer_inv in Hscene as (count & magic & records & -> & Hc & Hm & Hrec).
    apply pack_I_length in Hc, Hm.
    assert (Forall (fun r => length r = 80%nat) records) as Hall.
    { apply Forall_forall. intros r [i Hr]%list_elem_of_lookup.
      destruct (Forall2_lookup_r _ _ _ _ _ Hrec Hr) as (s & _ & Hs).
      by eapply splat_writer_length. }
    split.
    + rewrite !length_app, Hc, Hm, Hlen, (Forall2_length _ _ _ Hrec).
      enough (length (concat records) = (80 * length records)%nat) by lia.
      clear Hrec. induction Hall as [|r rs Hr _ IH]; cbn; [done|].
      rewrite length_app, IH, Hr. lia.
    + intros i s Hs.
      destruct (Forall2_lookup_l _ _ _ _ _ Hrec Hs) as (r & Hr & Hw).
      rewrite app_assoc, drop_app_add' by (rewrite length_app; lia).
      replace (80 * i)%nat with (i * 80)%nat by lia.
      by rewrite (concat_slice 80 records i r).
  - intros Hne.
    assert (splats self' <> []) as Hne' by (intros Hnil; rewrite Hnil in Hsame; by inversion Hsame).
    destruct (build_octree_index_spec self' Hne') as (root & Hroot & _).
    rewrite Hroot in Hbuild. injection Hbuild as <-.
    pose proof (flat_spec_nonempty root 0) as Hpos.
    remember (flat_spec root 0) as octree eqn:Hflat.
    destruct octree as [|node l]; [cbn in Hpos; lia|].
    destruct Hoct as (bs & Hw & Hfs). exists (node :: l), bs.
    split; [done|]. split; [done|].
    by rewrite !lookup_insert_ne.
  - intros octree' index count idxs b j idx Hbuild' Hnode Hj Hidx.
    assert (splats self' <> []) as Hne'.
    { intros Hnil. unfold build_octree_index in Hbuild'. by rewrite Hnil in Hbuild'. }
    destruct (build_octree_index_spec self' Hne') as (root & Hroot & Hinv).
    rewrite Hroot in Hbuild'. injection Hbuild' as <-.
    pose proof (flat_spec_inv _ root true Hinv 0 index _ Hnode) as Hleaf.
    cbn [flat_node_inv andb] in Hleaf.
    destruct Hleaf as (idxs0 & -> & -> & _ & Hall & Hpass).
    rewrite lookup_app_l in Hidx by lia.
    rewrite Forall_forall in Hall.
    pose proof (Hall idx (list_elem_of_lookup_2 _ _ _ Hidx)) as Hrange.
    apply elem_of_py_range in Hrange.
    destruct (lookup_lt_is_Some_2 (splats self') (Z.to_nat idx)) as [s Hs]; [lia|].
    exists s. split; [lia|]. split; [done|]. intros Hindex.
    rewrite bool_decide_eq_false_2 in Hpass by done.
    destruct (Hpass eq_refl) as (lo & hi & -> & Htest). exists lo, hi. split; [done|].
    rewrite Forall_forall in Htest.
    pose proof (Htest idx (list_elem_of_lookup_2 _ _ _ Hidx)) as Hp.
    unfold passes_octant_test in Hp.
    rewrite <- (Z2Nat.id idx), (py_getitem_nat _ _ s) in Hp by (done || lia). done.
Qed.

(** Two binary64 splats, one layer of sixteen pixels: the export ends
    without an exception and [scene.splat] has 8 + 2 * 80 bytes. *)
Lemma C10_witness :
  let self := f64_generator [f64_splat 0 0 0 0.0625; f64_splat 1 0 0 0.0625] 16 1 8 in
  exists self' fs',
    export_assets (fun _ => 1%float) self ∅ = (Ok self', fs')
    /\ Forall2 same_but_atlas (splats self) (splats self')
    /\ exists scene, fs' !! "scene.splat" = Some scene /\ length scene = 168%nat.
Proof.
  intros self.
  destruct (export_assets (fun _ => 1%float) self ∅) as [[self'|e] fs'] eqn:Hexport;
    [|vm_compute in Hexport; discriminate].
  exists self', fs'. split; [reflexivity|].
  destruct (C10_splat_order_is_kept (fun _ => 1%float) self self' ∅ fs' Hexport)
    as (Hsame & (scene & Hscene & Hlen & _) & _).
  split; [exact Hsame|]. exists scene. split; [exact Hscene|exact Hlen].
Defined.

(** ** Octants in exact arithmetic *)

Lemma split_center_between_R (lo hi : vec3 (F := R)) (k : nat) :
  (coord k lo <= coord k hi)%R ->
  fleb (coord k lo) (coord k (split_center lo hi)) = true
  /\ fleb (coord k (split_center lo hi)) (coord k hi) = true.
Proof.
  destruct lo as [[l0 l1] l2], hi as [[h0 h1] h2].
  destruct k as [|[|k]]; cbn; intros Hle;
    split; destruct (Rle_dec _ _); try reflexivity; lra.
Qed.

(** Evaluates the bit tests of a given octant. *)
Ltac eval_octant_bits :=
  repeat match goal with
         | |- context [Z.land ?a ?b] =>
             let v := eval vm_compute in (Z.land a b) in
             change (Z.land a b) with v
         | H : context [Z.land ?a ?b] |- _ =>
             let v := eval vm_compute in (Z.land a b) in
             change (Z.land a b) with v in H
         end.

(** A point of the node lies in at least one of its eight octants. *)
Lemma octants_cover_R (lo hi p : vec3 (F := R)) :
  inside_box lo hi p ->
  exists octant, octant ∈ py_range 8
    /\ in_octant p (octant_bounds lo hi (split_center lo hi) octant).1
         (octant_bounds lo hi (split_center lo hi) octant).2 = true.
Proof.
  destruct lo as [[l0 l1] l2], hi as [[h0 h1] h2], p as [[p0 p1] p2].
  unfold inside_box; cbn [fst snd]. intros (H0 & H1 & H2).
  destruct (Rle_dec ((l0 + h0) / 2) p0), (Rle_dec ((l1 + h1) / 2) p1),
    (Rle_dec ((l2 + h2) / 2) p2);
    [exists 7|exists 3|exists 5|exists 1|exists 6|exists 2|exists 4|exists 0];
    (split; [apply elem_of_py_range; lia|]);
    cbn; eval_octant_bits;
    cbn; repeat (destruct (Rle_dec _ _); [|lra]); reflexivity.
Qed.

(** The flattened octree of nine binary64 splats, eight on the corners of
    the unit cube and one at x = 0.5 on the first splitting plane: the
    splat of index 8 is stored in the leaves of octant 0 and of octant 1. *)
Example boundary_splat_counted_twice :
  exists octree b1 b2,
    build_octree_index (f64_generator f64_cube_corners 1024 4 8) = Ok (Some octree)
    /\ octree !! 1%nat = Some (FlatLeaf 2 [0; 8; 0; 0; 0; 0; 0; 0] b1)
    /\ octree !! 2%nat = Some (FlatLeaf 2 [1; 8; 0; 0; 0; 0; 0; 0] b2).
Proof. vm_compute. do 3 eexists. repeat split. Qed.

Lemma in_octant_faces_R (lo hi p : vec3 (F := R)) (k : nat) (octant : Z) :
  (k < 3)%nat -> octant ∈ py_range 8 ->
  coord k p = coord k (split_center lo hi) ->
  in_octant p (octant_bounds lo hi (split_center lo hi) octant).1
    (octant_bounds lo hi (split_center lo hi) octant).2 = true ->
  (coord k lo <= coord k hi)%R.
Proof.
  destruct lo as [[l0 l1] l2], hi as [[h0 h1] h2], p as [[p0 p1] p2].
  intros Hk Hoct. apply list_elem_of_In in Hoct. cbn in Hoct.
  destruct k as [|[|[|k]]]; [| | |lia]; cbn [coord fst snd split_center v3_scalar v3_map2];
    intros Hp;
    repeat (destruct Hoct as [<-|Hoct]; [|]); try done;
    cbn; eval_octant_bits; cbn; rewrite !andb_true_iff; intros Hin; destruct_and?;
    repeat match goal with
           | H : (if Rle_dec ?a ?b then true else false) = true |- _ =>
               destruct (Rle_dec a b); [clear H|discriminate H]
           end;
    cbn in Hp; lra.
Qed.

(** In exact arithmetic the centre always lies between the faces of a node
    that holds the splat, so a splat on a splitting plane is collected on
    both sides of it. *)
Lemma boundary_splat_in_touching_octants_R
    (self : SplatAtlasGenerator (F := R)) (splat_indices l : list Z)
    (lo hi : vec3 (F := R)) (k : nat) (octant idx : Z) (s : splat) :
  let center := split_center lo hi in
  let b := octant_bounds lo hi center octant in
  let b' := octant_bounds lo hi center (mirror_octant k octant) in
  (k < 3)%nat -> octant ∈ py_range 8 ->
  py_getitem (splats self) idx = Ok s ->
  coord k (pos s) = coord k center ->
  octant_splats self splat_indices b.1 b.2 = Ok l -> idx ∈ l ->
  exists l', octant_splats self splat_indices b'.1 b'.2 = Ok l' /\ idx ∈ l'.
Proof.
  intros center b b' Hk Hoct Hs Hplane Hl Hidx.
  apply octant_splats_spec in Hl as [-> Hall].
  apply list_elem_of_filter in Hidx as [Hpass Hin].
  destruct (octant_splats_total self splat_indices [] b'.1 b'.2 Hall) as [l' Hl'].
  exists l'. split; [done|].
  apply octant_splats_spec in Hl' as [-> _].
  apply list_elem_of_filter. split; [|done].
  unfold passes_octant_test in *. rewrite Hs in *.
  pose proof (in_octant_faces_R lo hi (pos s) k octant Hk Hoct Hplane Hpass) as Hle.
  destruct (split_center_between_R lo hi k Hle).
  by apply in_octant_mirror.
Qed.

(** ** The binary64 instance at work *)

(** Identity quaternion and unit scale give the identity covariance. *)
Example identity_covariance_f64 :
  _compute_covariance_from_scale_rot (1, 1, 1)%float (0, 0, 0, 1)%float
  = Ok (1, 0, 0, 1, 0, 1)%float.
Proof. vm_compute. reflexivity. Qed.

(** A rotation by 120 degrees about the diagonal permutes the axes. *)
Example permuted_covariance_f64 :
  _compute_covariance_from_scale_rot (1, 2, 3)%float (0.5, 0.5, 0.5, 0.5)%float
  = Ok (9, 0, 0, 1, 0, 4)%float.
Proof. vm_compute. reflexivity. Qed.

(** [struct.pack('f', -1.5)] is [00 00 c0 bf], and a number beyond the
    binary32 range raises. *)
Example pack_f_f64 :
  pack_f (-1.5)%float = Ok [Byte.x00; Byte.x00; Byte.xc0; Byte.xbf]
  /\ pack_f 0x1p+128%float = Raise OverflowError.
Proof. vm_compute. by split. Qed.

(** [int(0.5 * 100)] is 50, and [int] truncates towards zero. *)
Example int_of_float_f64 :
  int_of_float (0.5 * 100)%float = Ok 50
  /\ int_of_float (-2.75)%float = Ok (-2)
  /\ int_of_float (PrimFloat.div 0 0) = Raise ValueError.
Proof. vm_compute. by repeat split. Qed.

(** * Further properties *)

(** ** The cell of a placed splat *)

(** What the packer stores in a record: the layer, and the corner and the
    edge of a square cell of whole tiles that lies inside the layer, each
    divided by the atlas size. *)
Definition placed_in_atlas {F} `{Scalar F} (self : SplatAtlasGenerator (F := F))
    (c : atlas_coords (F := F)) : Prop :=
  exists x y sz : Z,
    8 <= sz <= 64
    /\ 0 <= x /\ x + sz <= atlas_size self /\ x mod sz = 0
    /\ 0 <= y /\ y + sz <= atlas_size self /\ y mod sz = 0
    /\ 0 <= a_layer c < atlas_layers self
    /\ a_u c = fdiv (float_of_int x) (float_of_int (atlas_size self))
    /\ a_v c = fdiv (float_of_int y) (float_of_int (atlas_size self))
    /\ a_size c = fdiv (float_of_int sz) (float_of_int (atlas_size self)).

Section PackerCells.
Context {F : Type} `{Scalar F}.
Variable math_exp : F -> F.
Implicit Types (self : SplatAtlasGenerator (F := F)) (s : splat (F := F)).

Lemma py_truediv_ok (a b u : F) : py_truediv a b = Ok u -> u = fdiv a b.
Proof. unfold py_truediv. destruct (feqb _ _); [done|]. by intros [= <-]. Qed.

Lemma length_py_mutated {A} (xs : list A) (i : Z) (v : A) :
  length (py_mutated xs i v) = length xs.
Proof. unfold py_mutated. destruct (py_index _ _); [apply length_insert|done]. Qed.

Lemma py_getitem_range {A} (xs : list A) (i : Z) (x : A) :
  py_getitem xs i = Ok x -> - Z.of_nat (length xs) <= i < Z.of_nat (length xs).
Proof.
  unfold py_getitem, py_index. cbv zeta. intros Hx. bind_inv Hx.
  repeat case_decide; simplify_eq; lia.
Qed.

(** A step that ends without an exception on layers of non-negative size
    stores a cell that lies inside the layer. *)
Lemma pack_step_placed self (st st' : pack_state) (i : Z) (ref : nat) s :
  0 <= atlas_size self ->
  length (ps_atlases st) = Z.to_nat (atlas_layers self) ->
  pack_step math_exp self st (i, (ref, s)) = Ok st' ->
  length (ps_atlases st') = length (ps_atlases st)
  /\ exists c, placed_in_atlas self c
               /\ ps_splats st' = alter (set_atlas c) ref (ps_splats st).
Proof.
  intros Hsize Hlayers. unfold pack_step. intros Hst. bind_inv Hst.
  destruct a1 as [gx gy].
  pose proof (splat_size_px_range _ _ Hstep0) as Hsz.
  pose proof (grid_cell_fits self i a0 gx gy Hsize ltac:(lia) Hstep1)
    as (Hx0 & Hx1 & Hy0 & Hy1).
  rewrite decide_True in Hst by done. bind_inv Hst. injection Hst as <-.
  cbn [ps_atlases ps_splats]. split; [apply length_py_mutated|].
  eexists. split; [|reflexivity].
  exists (gx * a0), (gy * a0), a0. cbn [a_layer a_u a_v a_size].
  apply py_truediv_ok in Hstep4, Hstep5, Hstep6.
  apply py_getitem_range in Hstep2. rewrite Hlayers in Hstep2.
  unfold py_mod in Hstep. case_decide; [done|]. injection Hstep as <-.
  assert (0 < atlas_layers self) by lia.
  pose proof (Z.mod_pos_bound i (atlas_layers self) ltac:(lia)).
  rewrite !Z.mod_mul by lia.
  repeat split; try done; lia.
Qed.

Lemma pack_loop_placed self (st st' : pack_state) :
  0 <= atlas_size self ->
  length (ps_atlases st) = Z.to_nat (atlas_layers self) ->
  length (ps_splats st) = length (splats self) ->
  foldM (pack_step math_exp self) (pack_items self) st = Ok st' ->
  length (ps_atlases st') = Z.to_nat (atlas_layers self)
  /\ Forall (fun s => exists c, atlas s = Some c /\ placed_in_atlas self c)
       (ps_splats st').
Proof.
  intros Hsize Hlayers Hlen Hr.
  apply (foldM_invariant
           (fun pre acc =>
              length (ps_atlases acc) = Z.to_nat (atlas_layers self)
              /\ length (ps_splats acc) = length (splats self)
              /\ forall e, e ∈ pre ->
                   exists s' c, ps_splats acc !! e.2.1 = Some s'
                                /\ atlas s' = Some c /\ placed_in_atlas self c)
           _ _ _ _) in Hr.
  - destruct Hr as (Hl & Hlen' & Hall). split; [done|].
    apply Forall_lookup. intros ref s' Hs'.
    assert (is_Some (splats self !! ref)) as [s Hs].
    { apply lookup_lt_is_Some. rewrite <- Hlen'. by eapply lookup_lt_Some. }
    apply pack_items_cover in Hs as [i Hi].
    destruct (Hall _ Hi) as (s'' & c & Hs'' & Ha & Hc). cbn in Hs''.
    simplify_eq. by exists c.
  - split; [done|]. split; [done|]. intros e He. by apply elem_of_nil in He.
  - intros pre [i [ref s]] acc acc' Hin (Hl & Hlen' & Hall) Hstep.
    apply pack_step_placed in Hstep as (Hl' & c & Hc & Hs'); [|done..].
    rewrite Hl', Hs', length_alter. split; [done|]. split; [done|].
    intros e [He| ->%list_elem_of_singleton]%elem_of_app.
    + destruct (Hall e He) as (s' & c' & Hs'' & Ha & Hc').
      destruct (decide (ref = e.2.1)) as [->|Hne].
      * exists (set_atlas c s'), c. by rewrite list_lookup_alter_eq, Hs''.
      * exists s', c'. by rewrite list_lookup_alter_ne.
    + cbn. apply pack_items_ref in Hin.
      assert (is_Some (ps_splats acc !! ref)) as [s' Hs''].
      { apply lookup_lt_is_Some. rewrite Hlen'. by eapply lookup_lt_Some. }
      exists (set_atlas c s'), c. by rewrite list_lookup_alter_eq, Hs''.
Qed.

End PackerCells.

(** X1. After a run of the packer that ends without an exception, with an
    atlas size that is not negative, every splat carries atlas coordinates
    that describe a square cell of 8 to 64 pixels, aligned to its own size,
    that lies inside a layer, and a layer index below the number of
    layers. *)
Theorem X1_packed_cells_lie_inside_the_atlas {F} `{Scalar F} (math_exp : F -> F)
    (self self' : SplatAtlasGenerator (F := F)) (atlases : list atlas_image)
    (n : Z) :
  0 <= atlas_size self ->
  generate_texture_atlas math_exp self = Ok (self', atlases, n) ->
  length atlases = Z.to_nat (atlas_layers self)
  /\ Forall (fun s => exists c, atlas s = Some c /\ placed_in_atlas self c)
       (splats self').
Proof.
  intros Hsize (layers & st & Hm & Hloop & -> & -> & ->)%generate_texture_atlas_inv.
  apply mapM_length in Hm. rewrite length_py_range in Hm.
  by apply pack_loop_placed in Hloop.
Qed.

Lemma X1_witness :
  let self := f64_generator [f64_splat 0 0 0 0.25; f64_splat 1 0 0 0.5] 64 2 8 in
  exists self' atlases n,
    generate_texture_atlas (fun _ => 1%float) self = Ok (self', atlases, n)
    /\ length atlases = 2%nat
    /\ Forall (fun s => exists c, atlas s = Some c /\ placed_in_atlas self c)
         (splats self').
Proof.
  intros self.
  destruct (generate_texture_atlas (fun _ => 1%float) self)
    as [[[self' atlases] n]|e] eqn:Hgen; [|vm_compute in Hgen; discriminate].
  exists self', atlases, n. split; [reflexivity|].
  apply (X1_packed_cells_lie_inside_the_atlas (fun _ => 1%float) self self' atlases n);
    [vm_compute; discriminate|exact Hgen].
Defined.

(** ** The order in which splats are packed *)

Section SortFacts.
Implicit Types (x : nat * splat (F := R)) (l : list (nat * splat (F := R))).

#[local] Instance R_eq_dec : EqDecision R := Req_dec_T.

(** [b] may follow [a] in the sorted list. *)
Definition key_ge (a b : nat * splat (F := R)) : Prop :=
  (sort_key b <= sort_key a)%R.

Lemma insert_desc_sorted x l :
  StronglySorted key_ge l -> StronglySorted key_ge (insert_desc x l).
Proof.
  induction 1 as [|y l Hl IH Hy]; cbn [insert_desc].
  - repeat constructor.
  - unfold fltb; cbn. destruct (Rlt_dec (sort_key x) (sort_key y)) as [Hlt|Hge].
    + constructor; [done|].
      rewrite insert_desc_perm. constructor; [unfold key_ge; lra|done].
    + constructor; [by constructor|].
      constructor; [unfold key_ge; lra|].
      eapply Forall_impl; [done|]. unfold key_ge. cbn. intros z Hz. lra.
Qed.

Lemma insert_desc_stable x l (k : R) :
  filter (fun e => sort_key e = k) (insert_desc x l)
  = filter (fun e => sort_key e = k) (x :: l).
Proof.
  induction l as [|y l IH]; cbn [insert_desc]; [done|].
  change (fltb (sort_key x) (sort_key y))
    with (if Rlt_dec (sort_key x) (sort_key y) then true else false).
  destruct (Rlt_dec (sort_key x) (sort_key y)) as [Hlt|Hge]; [|done].
  rewrite (filter_cons _ y (insert_desc x l)), IH, (filter_cons _ x (y :: l)),
    (filter_cons _ y l), (filter_cons _ x l).
  destruct (decide (sort_key x = k)) as [Hx|Hx],
    (decide (sort_key y = k)) as [Hy|Hy]; try done. lra.
Qed.

(** X2. In exact arithmetic the list the packer walks through is a
    permutation of the splats in which the largest scale never increases
    from one splat to the next, and splats of equal largest scale keep the
    order they have in the splat list. *)
Theorem X2_packing_order_is_a_stable_descending_sort l :
  sorted_desc l ≡ₚ l
  /\ StronglySorted key_ge (sorted_desc l)
  /\ forall k : R,
       filter (fun e => sort_key e = k) (sorted_desc l)
       = filter (fun e => sort_key e = k) l.
Proof.
  split; [apply sorted_desc_perm|]. split.
  - induction l as [|x l IH]; cbn; [constructor|]. by apply insert_desc_sorted.
  - intros k. induction l as [|x l IH]; cbn [sorted_desc foldr]; [done|].
    rewrite insert_desc_stable, !filter_cons.
    unfold sorted_desc in IH. by rewrite IH.
Qed.

End SortFacts.

(** ** The atlas layers keep their shape *)

Definition pixel_ok (p : pixel) : Prop :=
  0 <= p.1.1.1 <= 255 /\ 0 <= p.1.1.2 <= 255 /\ 0 <= p.1.2 <= 255 /\ 0 <= p.2 <= 255.

(** A layer of [n] rows of [n] pixels whose components are bytes. *)
Definition image_ok (n : nat) (a : atlas_image) : Prop :=
  length a = n /\ Forall (fun row => length row = n /\ Forall pixel_ok row) a.

(** The bytes of a layer, row after row, four per pixel. *)
Definition pixel_bytes (p : pixel) : list Byte.byte :=
  [byte_of_Z p.1.1.1; byte_of_Z p.1.1.2; byte_of_Z p.1.2; byte_of_Z p.2].

Definition atlas_bytes (a : atlas_image) : list Byte.byte :=
  concat ((fun row => concat (pixel_bytes <$> row)) <$> a).

Lemma foldM_preserves {A S} (P : S -> Prop) (body : S -> A -> result S)
    (xs : list A) (acc r : S) :
  (forall acc x acc', P acc -> body acc x = Ok acc' -> P acc') ->
  P acc -> foldM body xs acc = Ok r -> P r.
Proof.
  intros Hstep H0 Hr.
  apply (foldM_invariant (fun _ => P) body xs acc r); [done| |done].
  intros pre x a a' _. apply Hstep.
Qed.

Lemma py_index_inv (len : nat) (i : Z) (k : nat) :
  py_index len i = Ok k -> (k < len)%nat.
Proof. unfold py_index. cbv zeta. repeat case_decide; intros [= <-]; lia. Qed.

Lemma np_zeros_image_ok (n : Z) (a : atlas_image) :
  np_zeros n = Ok a -> image_ok (Z.to_nat n) a.
Proof.
  unfold np_zeros. case_decide; [done|]. intros [= <-]. split.
  - apply length_replicate.
  - apply Forall_replicate. split; [apply length_replicate|].
    apply Forall_replicate. unfold pixel_ok; cbn. lia.
Qed.

Lemma np_setitem_image_ok (n : nat) (a a' : atlas_image) (row col : Z) (p : pixel) :
  image_ok n a -> np_setitem a row col p = Ok a' -> image_ok n a'.
Proof.
  intros [Hlen Hrows]. unfold np_setitem. destruct p as [[[r g] b] al].
  intros Hs. bind_inv Hs.
  destruct (a !! a0) as [line|] eqn:Hline; [|done].
  bind_inv Hs. injection Hs as <-.
  unfold to_uint8 in *. repeat case_decide; simplify_eq.
  pose proof (Forall_lookup_1 _ _ _ _ Hrows Hline) as [Hl Hpx].
  unfold atlas_image, pixel in *.
  split; [by rewrite length_insert|].
  apply Forall_insert; [done|]. split; [by rewrite length_insert|].
  apply Forall_insert; [done|]. unfold pixel_ok; cbn. lia.
Qed.

Lemma py_getitem_Forall {A} (P : A -> Prop) (xs : list A) (i : Z) (x : A) :
  Forall P xs -> py_getitem xs i = Ok x -> P x.
Proof.
  intros Hall. unfold py_getitem. intros Hx.
  apply bind_ok in Hx as (k & _ & Hx).
  destruct (xs !! k) as [y|] eqn:Hy; [|done]. injection Hx as <-.
  by eapply Forall_lookup_1.
Qed.

Lemma py_mutated_Forall {A} (P : A -> Prop) (xs : list A) (i : Z) (v : A) :
  Forall P xs -> P v -> Forall P (py_mutated xs i v).
Proof.
  intros Hall Hv. unfold py_mutated.
  destruct (py_index _ _); [by apply Forall_insert|done].
Qed.

Section ImageFacts.
Context {F : Type} `{Scalar F}.
Variable math_exp : F -> F.
Implicit Types (self : SplatAtlasGenerator (F := F)) (s : splat (F := F)).

Lemma render_image_ok self (n : nat) (a a' : atlas_image) (x y size : Z) s :
  image_ok n a ->
  _render_splat_to_atlas math_exp self a x y size s = Ok a' -> image_ok n a'.
Proof.
  intros Ha. unfold _render_splat_to_atlas. intros Hr. bind_inv Hr.
  revert Hr. apply foldM_preserves; [|done].
  intros acc dy acc' Hacc. apply foldM_preserves; [|done].
  intros acc1 dx acc1' Hacc1. unfold render_pixel. intros Hp. bind_inv Hp.
  destruct (color s) as [[c0 c1] c2]. bind_inv Hp.
  case_decide; [by eapply np_setitem_image_ok|by injection Hp as <-].
Qed.

Lemma pack_step_images_ok self (n : nat) (st st' : pack_state)
    (e : Z * (nat * splat (F := F))) :
  Forall (image_ok n) (ps_atlases st) ->
  pack_step math_exp self st e = Ok st' ->
  Forall (image_ok n) (ps_atlases st').
Proof.
  intros Hall. destruct e as [i [ref s]]. unfold pack_step. intros Hst.
  apply bind_ok in Hst as (layer & _ & Hst).
  apply bind_ok in Hst as (sz & _ & Hst).
  apply bind_ok in Hst as ([gx gy] & _ & Hst).
  case_decide; [|by injection Hst as <-].
  apply bind_ok in Hst as (a & Ha & Hst).
  apply bind_ok in Hst as (a' & Ha' & Hst).
  bind_inv Hst. injection Hst as <-. cbn [ps_atlases].
  apply py_mutated_Forall; [done|].
  eapply render_image_ok; [|done]. by eapply py_getitem_Forall.
Qed.

Lemma pack_step_layers self (st st' : pack_state) (e : Z * (nat * splat (F := F))) :
  pack_step math_exp self st e = Ok st' ->
  length (ps_atlases st') = length (ps_atlases st).
Proof.
  destruct e as [i [ref s]]. unfold pack_step. intros Hst.
  apply bind_ok in Hst as (layer & _ & Hst).
  apply bind_ok in Hst as (sz & _ & Hst).
  apply bind_ok in Hst as ([gx gy] & _ & Hst).
  case_decide; [|by injection Hst as <-].
  bind_inv Hst. injection Hst as <-. apply length_py_mutated.
Qed.

(** After a run of the packer that ends without an exception there are as
    many layers as configured, each of the configured size, with bytes as
    pixel components. *)
Lemma generate_texture_atlas_images self self' (atlases : list atlas_image) (n : Z) :
  generate_texture_atlas math_exp self = Ok (self', atlases, n) ->
  length atlases = Z.to_nat (atlas_layers self)
  /\ Forall (image_ok (Z.to_nat (atlas_size self))) atlases.
Proof.
  intros (layers & st & Hm & Hloop & -> & -> & ->)%generate_texture_atlas_inv.
  assert (Forall (image_ok (Z.to_nat (atlas_size self))) layers) as Hlayers.
  { apply mapM_Forall in Hm. eapply Forall_impl; [done|]. cbn.
    intros a (x & _ & Ha). by apply np_zeros_image_ok. }
  apply mapM_length in Hm. rewrite length_py_range in Hm.
  split.
  - rewrite <- Hm. revert Hloop.
    apply (foldM_preserves (fun st => length (ps_atlases st) = length layers)); [|done].
    intros acc e acc' Hacc Hstep. by rewrite (pack_step_layers _ _ _ _ Hstep).
  - revert Hloop.
    apply (foldM_preserves (fun st => Forall (image_ok _) (ps_atlases st))); [|done].
    intros acc e acc'. apply pack_step_images_ok.
Qed.

End ImageFacts.

(** ** The atlas files *)

Lemma string_length_app (s t : string) :
  String.length (s +:+ t) = (String.length s + String.length t)%nat.
Proof.
  induction s as [|c s IH]; [done|].
  change (String c s +:+ t) with (String c (s +:+ t)). cbn. by rewrite IH.
Qed.

Lemma string_app_inj_r (s1 s2 t : string) : s1 +:+ t = s2 +:+ t -> s1 = s2.
Proof.
  revert s2. induction s1 as [|c s1 IH]; intros [|d s2]; [done| | |].
  - intros Heq. apply (f_equal String.length) in Heq.
    rewrite !string_length_app in Heq. cbn in Heq. lia.
  - intros Heq. apply (f_equal String.length) in Heq.
    rewrite !string_length_app in Heq. cbn in Heq. lia.
  - change (String c s1 +:+ t) with (String c (s1 +:+ t)).
    change (String d s2 +:+ t) with (String d (s2 +:+ t)).
    intros [= -> Heq]. f_equal. by apply IH.
Qed.

(** Two layers never share a file. *)
Lemma atlas_name_inj (i j : nat) : atlas_name i = atlas_name j -> i = j.
Proof.
  unfold atlas_name. intros Heq%(inj (String.app "atlas_t")).
  by apply string_app_inj_r, (inj pretty) in Heq.
Qed.

(** The files [atlas_t{k}.raw], [atlas_t{k+1}.raw], ... of the layers
    [atlases], written over [fs]. *)
Definition with_atlases (atlases : list atlas_image) (k : nat)
    (fs : filesystem) : filesystem :=
  foldl (fun fs e => <[atlas_name e.1 := atlas_bytes e.2]> fs) fs
    (imap (fun i a => ((k + i)%nat, a)) atlases).

Lemma with_atlases_cons (a : atlas_image) atlases (k : nat) (fs : filesystem) :
  with_atlases (a :: atlases) k fs
  = with_atlases atlases (S k) (<[atlas_name k := atlas_bytes a]> fs).
Proof.
  unfold with_atlases. cbn [imap foldl fst snd]. rewrite Nat.add_0_r.
  f_equal. apply imap_ext. intros i x _. cbn. f_equal. lia.
Qed.

Lemma with_atlases_lookup_other atlases (k : nat) (fs : filesystem) (name : string) :
  (forall i, (k <= i)%nat -> atlas_name i <> name) ->
  with_atlases atlases k fs !! name = fs !! name.
Proof.
  revert k fs. induction atlases as [|a atlases IH]; intros k fs Hne; [done|].
  rewrite with_atlases_cons, IH by (intros i Hi; apply Hne; lia).
  apply lookup_insert_ne, Hne. lia.
Qed.

Lemma with_atlases_lookup atlases (k i : nat) (a : atlas_image) (fs : filesystem) :
  atlases !! i = Some a ->
  with_atlases atlases k fs !! atlas_name (k + i) = Some (atlas_bytes a).
Proof.
  revert k i fs. induction atlases as [|a0 atlases IH]; intros k i fs Hi; [done|].
  rewrite with_atlases_cons. destruct i as [|i]; cbn in Hi.
  - injection Hi as ->. rewrite Nat.add_0_r.
    rewrite with_atlases_lookup_other; [apply lookup_insert_eq|].
    intros j Hj Heq%atlas_name_inj. lia.
  - replace (k + S i)%nat with (S k + i)%nat by lia. by apply IH.
Qed.

Lemma length_atlas_bytes (n : nat) (a : atlas_image) :
  image_ok n a -> length (atlas_bytes a) = (4 * n * n)%nat.
Proof.
  intros [Hlen Hrows]. unfold atlas_bytes.
  assert (length (concat ((fun row => concat (pixel_bytes <$> row)) <$> a))
          = (4 * n * length a)%nat) as ->; [|by rewrite Hlen].
  clear Hlen. induction Hrows as [|row a [Hrow _] _ IH]; cbn; [lia|].
  rewrite length_app, IH.
  assert (length (concat (pixel_bytes <$> row)) = (4 * length row)%nat) as ->.
  { clear. induction row as [|p row IH]; cbn; [done|]. rewrite IH. lia. }
  rewrite Hrow. lia.
Qed.

(** A loop over [range(n)] that reads the items of a list of length [n]. *)
Lemma w_for_range {A} (f : A -> list Byte.byte) (l : list A) (body : Z -> writer)
    (n : Z) :
  length l = Z.to_nat n ->
  (forall (i : nat) x, l !! i = Some x -> body (Z.of_nat i) = (f x, Ok tt)) ->
  w_for (py_range n) body = (concat (f <$> l), Ok tt).
Proof.
  unfold py_range. intros <- Hbody.
  assert (forall k : nat,
            (forall (i : nat) x, l !! i = Some x -> body (Z.of_nat (k + i)) = (f x, Ok tt)) ->
            w_for (Z.of_nat <$> seq k (length l)) body = (concat (f <$> l), Ok tt))
    as Hgen; [|by apply (Hgen 0%nat)].
  clear Hbody. induction l as [|x l IH]; intros k Hbody; [done|].
  cbn [length seq fmap list_fmap w_for concat].
  rewrite <- (Nat.add_0_r k) at 1. rewrite (Hbody 0%nat x) by done.
  rewrite IH; [done|].
  intros i y Hy. replace (S k + i)%nat with (k + S i)%nat by lia. by apply Hbody.
Qed.

Lemma pack_B_byte (v : Z) : 0 <= v <= 255 -> pack_B v = Ok [byte_of_Z v].
Proof. intros Hv. unfold pack_B. by rewrite decide_True by lia. Qed.

Section AtlasFiles.
Context {F : Type} `{Scalar F} `{Pack32 F}.
Variable math_exp : F -> F.
Implicit Types (self : SplatAtlasGenerator (F := F)) (fs : filesystem).

(** A layer of the configured size is written without an exception, row
    after row, four bytes for each pixel. *)
Lemma atlas_writer_image self (a : atlas_image) :
  image_ok (Z.to_nat (atlas_size self)) a ->
  atlas_writer self a = (atlas_bytes a, Ok tt).
Proof.
  intros [Hlen Hrows]. unfold atlas_writer, atlas_bytes.
  apply w_for_range; [done|]. intros i row Hrow.
  pose proof (Forall_lookup_1 _ _ _ _ Hrows Hrow) as [Hl Hpx].
  apply w_for_range; [done|]. intros j p Hp.
  pose proof (Forall_lookup_1 _ _ _ _ Hpx Hp) as Hok.
  unfold np_getitem. rewrite py_index_nat by (by eapply lookup_lt_Some).
  cbn [bind]. unfold atlas_image, pixel in *.
  rewrite Hrow, (py_getitem_nat _ _ _ Hp). cbn [bind].
  destruct p as [[[r g] b] al]. unfold pixel_ok in Hok. cbn in Hok.
  unfold pack_BBBB. rewrite !pack_B_byte by lia. done.
Qed.

Lemma io_for_atlas_images self (atlases : list atlas_image) :
  Forall (image_ok (Z.to_nat (atlas_size self))) atlases ->
  forall (k : nat) fs,
    io_for (imap (fun i x => ((k + i)%nat, x)) atlases)
      (fun e => open_wb (atlas_name e.1) (atlas_writer self e.2)) fs
    = (Ok tt, with_atlases atlases k fs).
Proof.
  induction 1 as [|a atlases Ha _ IH]; intros k fs; [done|].
  rewrite with_atlases_cons.
  cbn [imap io_for]. unfold io_bind, open_wb at 1. cbn [fst snd].
  rewrite (atlas_writer_image _ _ Ha). cbn [fst snd].
  rewrite (imap_ext _ (fun i x => ((S k + i)%nat, x))) by (intros; cbn; f_equal; lia).
  by rewrite IH, Nat.add_0_r.
Qed.

(** The steps of [export_assets] after the atlas files. *)
Definition export_tail self : io (SplatAtlasGenerator (F := F)) :=
  octree <~ io_lift (build_octree_index self) ;;
  _ <~ match octree with
       | Some (n :: l) => open_wb "octree.idx" (octree_writer self (n :: l))
       | _ => io_ret tt
       end ;;
  _ <~ open_wb "scene.splat" (scene_writer self) ;;
  _ <~ open_wb "metadata.json"
         (w_write (Ok (String.list_byte_of_string (metadata_json self octree)))) ;;
  io_ret self.

(** Once the packer has returned, the atlas files are written in full and
    the export goes on with the octree. *)
Lemma export_assets_after_packing self self1 (atlases : list atlas_image) (n : Z) fs :
  generate_texture_atlas math_exp self = Ok (self1, atlases, n) ->
  export_assets math_exp self fs = export_tail self1 (with_atlases atlases 0 fs).
Proof.
  intros Hgen. unfold export_assets, io_bind at 1, io_lift at 1. rewrite Hgen.
  cbn [fst snd]. unfold io_bind at 1, enumerate.
  pose proof (generate_texture_atlas_images _ _ _ _ _ Hgen) as [_ Himg].
  apply generate_texture_atlas_inv in Hgen as (layers & st & _ & _ & -> & _ & _).
  by rewrite (io_for_atlas_images _ atlases Himg 0%nat).
Qed.

End AtlasFiles.

Section ExportSteps.
Context {F : Type} `{Scalar F} `{Pack32 F}.
Variable math_exp : F -> F.
Implicit Types (self : SplatAtlasGenerator (F := F)) (fs : filesystem).

(** The steps after the atlas files touch three files only. *)
Lemma export_tail_keeps self fs (name : string) :
  name <> "octree.idx" -> name <> "scene.splat" -> name <> "metadata.json" ->
  (export_tail self fs).2 !! name = fs !! name.
Proof.
  intros Ho Hs Hm. unfold export_tail, io_bind, io_lift, io_ret, open_wb.
  destruct (build_octree_index self) as [[[|node l]|]|e]; cbn [fst snd].
  all: repeat match goal with
         | |- context [match ?r with Ok _ => _ | Raise _ => _ end] =>
             destruct r; cbn [fst snd]
         end.
  all: cbn [fst snd]; rewrite ?lookup_insert_ne by congruence; try reflexivity.
Qed.

Lemma export_tail_keeps_atlas self fs (i : nat) :
  (export_tail self fs).2 !! atlas_name i = fs !! atlas_name i.
Proof. apply export_tail_keeps; apply atlas_name_not; by intros. Qed.

End ExportSteps.

(** X3. Once the packer has returned, [export_assets] writes every layer
    to its own file [atlas_t{i}.raw], whatever happens in the later steps:
    the file holds the pixels of the layer row after row, four bytes for
    each pixel and nothing else, [4 * atlas_size * atlas_size] bytes; there
    are [atlas_layers] such layers. *)
Theorem X3_atlas_files_hold_the_layers {F} `{Scalar F} `{Pack32 F} (math_exp : F -> F)
    (self self1 : SplatAtlasGenerator (F := F)) (atlases : list atlas_image) (n : Z)
    (fs : filesystem) :
  generate_texture_atlas math_exp self = Ok (self1, atlases, n) ->
  length atlases = Z.to_nat (atlas_layers self)
  /\ forall (i : nat) (a : atlas_image),
       atlases !! i = Some a ->
       (export_assets math_exp self fs).2 !! atlas_name i = Some (atlas_bytes a)
       /\ length (atlas_bytes a)
          = (4 * Z.to_nat (atlas_size self) * Z.to_nat (atlas_size self))%nat.
Proof.
  intros Hgen.
  pose proof (generate_texture_atlas_images _ _ _ _ _ Hgen) as [Hlen Himg].
  split; [done|]. intros i a Ha. split.
  - rewrite (export_assets_after_packing _ _ _ _ _ _ Hgen), export_tail_keeps_atlas.
    by apply (with_atlases_lookup atlases 0 i).
  - apply length_atlas_bytes. by eapply Forall_lookup_1.
Qed.

Lemma X3_witness :
  let self := f64_generator [f64_splat 0 0 0 0.0625; f64_splat 1 0 0 0.0625] 16 1 8 in
  exists a,
    (export_assets (fun _ => 1%float) self ∅).2 !! "atlas_t0.raw" = Some (atlas_bytes a)
    /\ length (atlas_bytes a) = 1024%nat.
Proof.
  intros self.
  destruct (generate_texture_atlas (fun _ => 1%float) self)
    as [[[self1 atlases] n]|e] eqn:Hgen; [|vm_compute in Hgen; discriminate].
  destruct (X3_atlas_files_hold_the_layers (fun _ => 1%float) self self1 atlases n ∅ Hgen)
    as [Hlen Hfiles].
  destruct atlases as [|a atlases]; [vm_compute in Hlen; discriminate|].
  exists a. exact (Hfiles 0%nat a eq_refl).
Defined.

(** ** The depth limit of the octree *)

Lemma take_py_range (k : nat) (n : Z) :
  take k (py_range n) = py_range (Z.of_nat (k `min` Z.to_nat n)).
Proof. unfold py_range. by rewrite <- fmap_take, take_seq, Nat2Z.id. Qed.

Section DepthLimit.
Context {F : Type} `{Scalar F}.
Implicit Types (self : SplatAtlasGenerator (F := F)).

(** With a depth limit of zero or less the root is a leaf. *)
Lemma build_octree_index_flat self :
  splats self <> [] -> max_octree_depth self <= 0 ->
  let k := (8 `min` length (splats self))%nat in
  exists b : list F,
    build_octree_index self
    = Ok (Some [FlatLeaf (Z.of_nat k)
                  (py_range (Z.of_nat k) ++ replicate (8 - k) 0) b]).
Proof.
  intros Hne Hdepth k. subst k. unfold build_octree_index.
  destruct (splats self) as [|s l] eqn:Hs; [done|]. cbn [fmap list_fmap].
  rewrite <- Hs. destruct (root_bounds (pos s) _) as [lo hi].
  replace (Z.to_nat (max_octree_depth self - 0)) with 0%nat by lia.
  cbn [_build_octree_recursive bind _flatten_octree flatten_node length app snd].
  rewrite take_py_range, Nat2Z.id, length_py_range, Nat2Z.id.
  replace (Z.to_nat (8 - Z.of_nat (8 `min` length (splats self))))
    with (8 - 8 `min` length (splats self))%nat by lia.
  by eexists.
Qed.

End DepthLimit.

(** X4. With a depth limit of zero or less, the index of a non-empty scene
    is a single leaf that lists the splats 0 to 7 (or all of them, when
    there are fewer than eight) and pads with zeros: a splat from place 8 on
    is in no node. *)
Theorem X4_depth_limit_keeps_eight_splats {F} `{Scalar F}
    (self : SplatAtlasGenerator (F := F)) :
  splats self <> [] -> max_octree_depth self <= 0 ->
  exists (k : nat) (b : list F),
    k = (8 `min` length (splats self))%nat
    /\ build_octree_index self
       = Ok (Some [FlatLeaf (Z.of_nat k)
                     (py_range (Z.of_nat k) ++ replicate (8 - k) 0) b])
    /\ forall idx : Z, 8 <= idx -> idx ∉ py_range (Z.of_nat k).
Proof.
  intros Hne Hdepth. destruct (build_octree_index_flat self Hne Hdepth) as [b Hb].
  exists (8 `min` length (splats self))%nat, b. split; [done|]. split; [done|].
  intros idx Hidx Hin%elem_of_py_range. lia.
Qed.

Lemma X4_witness :
  exists b : list float,
    build_octree_index (f64_generator f64_cube_corners 1024 4 0)
    = Ok (Some [FlatLeaf 8 [0; 1; 2; 3; 4; 5; 6; 7] b]).
Proof.
  destruct (X4_depth_limit_keeps_eight_splats (f64_generator f64_cube_corners 1024 4 0))
    as (k & b & -> & Hb & _).
  - discriminate.
  - vm_compute. discriminate.
  - exists b. exact Hb.
Defined.

(** X5. A negative depth limit is not refused: the packer runs, the atlas
    files are written, and the export then raises [struct.error] while
    writing the header of [octree.idx], which is left with the four bytes of
    the node count 1.  [scene.splat] and [metadata.json] are not written. *)
Theorem X5_negative_depth_leaves_partial_files {F} `{Scalar F} `{Pack32 F}
    (math_exp : F -> F) (self self1 : SplatAtlasGenerator (F := F))
    (atlases : list atlas_image) (n : Z) (fs : filesystem) :
  generate_texture_atlas math_exp self = Ok (self1, atlases, n) ->
  splats self <> [] -> max_octree_depth self < 0 ->
  (export_assets math_exp self fs).1 = Raise StructError
  /\ (export_assets math_exp self fs).2 !! "octree.idx" = Some (le_bytes 4 1)
  /\ (export_assets math_exp self fs).2 !! "scene.splat" = fs !! "scene.splat"
  /\ (export_assets math_exp self fs).2 !! "metadata.json" = fs !! "metadata.json"
  /\ forall (i : nat) (a : atlas_image),
       atlases !! i = Some a ->
       (export_assets math_exp self fs).2 !! atlas_name i = Some (atlas_bytes a).
Proof.
  intros Hgen Hne Hdepth.
  rewrite (export_assets_after_packing _ _ _ _ _ _ Hgen).
  pose proof (packer_keeps_records _ _ _ _ _ Hgen) as (Hsame & _ & _ & Hd).
  assert (splats self1 <> []) as Hne1.
  { intros Hnil. rewrite Hnil in Hsame. by apply Forall2_nil_inv_r in Hsame. }
  destruct (build_octree_index_flat self1 Hne1 ltac:(lia)) as [b Hb].
  assert (export_tail self1 (with_atlases atlases 0 fs)
          = (Raise StructError,
             <["octree.idx" := le_bytes 4 1]> (with_atlases atlases 0 fs))) as ->.
  { assert (forall node, octree_writer self1 [node] = (le_bytes 4 1, Raise StructError))
      as Hw.
    { intros node. unfold octree_writer. cbn [length].
      assert (pack_I (max_octree_depth self1) = Raise StructError) as ->
        by (unfold pack_I; by rewrite decide_False by lia).
      reflexivity. }
    unfold export_tail, io_bind at 1, io_lift. rewrite Hb.
    unfold io_bind, open_wb. by rewrite Hw. }
  cbn [fst snd]. split; [done|]. split; [apply lookup_insert_eq|].
  rewrite !lookup_insert_ne by done.
  split; [|split].
  - apply with_atlases_lookup_other. intros i _. apply atlas_name_not. by intros.
  - apply with_atlases_lookup_other. intros i _. apply atlas_name_not. by intros.
  - intros i a Ha. rewrite lookup_insert_ne by (apply not_eq_sym, atlas_name_not; by intros).
    by apply (with_atlases_lookup atlases 0 i).
Qed.

Lemma X5_witness :
  let self := f64_generator [f64_splat 0 0 0 0.0625] 16 1 (-1) in
  (export_assets (fun _ => 1%float) self ∅).1 = Raise StructError
  /\ (export_assets (fun _ => 1%float) self ∅).2 !! "octree.idx"
     = Some [Byte.x01; Byte.x00; Byte.x00; Byte.x00]
  /\ (export_assets (fun _ => 1%float) self ∅).2 !! "scene.splat" = None.
Proof.
  intros self.
  destruct (generate_texture_atlas (fun _ => 1%float) self)
    as [[[self1 atlases] n]|e] eqn:Hgen; [|vm_compute in Hgen; discriminate].
  destruct (X5_negative_depth_leaves_partial_files (fun _ => 1%float)
              self self1 atlases n ∅ Hgen) as (Hr & Hoct & Hscene & _).
  - discriminate.
  - reflexivity.
  - split; [exact Hr|]. split; [exact Hoct|exact Hscene].
Defined.

(** ** The octree file *)

Definition flat_bounds {F} (node : flat_node (F := F)) : list F :=
  match node with
  | FlatLeaf _ _ b => b
  | FlatInternal _ b => b
  end.

(** A loop whose every pass writes [k] bytes. *)
Lemma w_for_length {A} (k : nat) (xs : list A) (body : A -> writer)
    (bs : list Byte.byte) :
  (forall x seg, x ∈ xs -> body x = (seg, Ok tt) -> length seg = k) ->
  w_for xs body = (bs, Ok tt) -> length bs = (k * length xs)%nat.
Proof.
  intros Hk (segs & Hsegs & ->)%w_for_inv.
  induction Hsegs as [|x seg xs segs Hx _ IH]; cbn; [lia|].
  rewrite length_app, IH by (intros y s Hy; apply Hk; by right).
  rewrite (Hk x seg) by (done || left). lia.
Qed.

Lemma pack_i_length (v : Z) (bs : list Byte.byte) : pack_i v = Ok bs -> length bs = 4%nat.
Proof. unfold pack_i. case_decide; [|done]. by intros [= <-]. Qed.

Section OctreeFile.
Context {F : Type} `{Scalar F} `{Pack32 F}.
Implicit Types (self : SplatAtlasGenerator (F := F)) (t : octree_node (F := F))
  (node : flat_node (F := F)).

Lemma length_bounds_list (lo hi : vec3 (F := F)) : length (bounds_list lo hi) = 6%nat.
Proof. by destruct lo as [[? ?] ?], hi as [[? ?] ?]. Qed.

Lemma children_spec_Forall (Q : flat_node (F := F) -> Prop)
    (cs : list (option (octree_node (F := F)))) :
  Forall (fun c => forall t, c = Some t -> forall base, Forall Q (flat_spec t base)) cs ->
  forall next, Forall Q (children_spec flat_spec cs next).2.
Proof.
  induction 1 as [|c cs Hc _ IH]; intros next; cbn [children_spec]; [constructor|].
  destruct c as [c|]; cbn [snd]; [|apply IH].
  apply Forall_app. split; [by apply Hc|apply IH].
Qed.

(** Every node of a built tree stores the six bounds of its box. *)
Lemma build_bounds self (remaining : nat) :
  forall (indices : list Z) (lo hi : vec3 (F := F)) t,
    _build_octree_recursive self remaining indices lo hi = Ok t ->
    forall base, Forall (fun node => length (flat_bounds node) = 6%nat) (flat_spec t base).
Proof.
  induction remaining as [|remaining IH]; intros indices lo hi t;
    cbn [_build_octree_recursive].
  - intros [= <-] base. repeat constructor. apply length_bounds_list.
  - case_decide as Hlen.
    { intros [= <-] base. repeat constructor. apply length_bounds_list. }
    intros Hr. apply bind_ok in Hr as (children & Hch & Hr). injection Hr as <-.
    intros base. cbn [flat_spec]. constructor; [apply length_bounds_list|].
    apply children_spec_Forall. apply mapM_Forall in Hch.
    eapply Forall_impl; [done|]. cbn. intros c (octant & _ & Hc) t ->.
    destruct (octant_bounds lo hi _ octant) as [oct_min oct_max].
    apply bind_ok in Hc as (inside & _ & Hc).
    destruct inside as [|idx inside]; [done|].
    apply bind_ok in Hc as (child & Hchild & Hc). injection Hc as <-.
    by eapply IH.
Qed.

(** The array returned for a non-empty scene is the flattening of the tree
    built from all indices. *)
Lemma build_octree_index_inv self (octree : list (flat_node (F := F))) :
  build_octree_index self = Ok (Some octree) ->
  exists root lo hi,
    _build_octree_recursive self (Z.to_nat (max_octree_depth self - 0))
      (py_range (Z.of_nat (length (splats self)))) lo hi = Ok root
    /\ octree = flat_spec root 0
    /\ tree_inv (built_leaf self (py_range (Z.of_nat (length (splats self))))) true root.
Proof.
  unfold build_octree_index.
  destruct (splats self) as [|s l] eqn:Hs; [done|]. cbn [fmap list_fmap].
  rewrite <- Hs. destruct (root_bounds (pos s) _) as [lo hi].
  intros Hr. apply bind_ok in Hr as (root & Hroot & Hr).
  assert (tree_inv (built_leaf self (py_range (Z.of_nat (length (splats self))))) true root)
    as Hinv.
  { eapply build_inv; [| |done]; [done|]. by apply Forall_forall. }
  cbn [_flatten_octree] in Hr. rewrite (flatten_node_spec _ root true Hinv []) in Hr.
  cbn in Hr. injection Hr as <-. by exists root, lo, hi.
Qed.

(** A node with eight slots and six bounds takes 64 bytes. *)
Lemma octree_node_writer_length (n index : nat) node (bs : list Byte.byte) :
  node_ok n index node -> length (flat_bounds node) = 6%nat ->
  octree_node_writer node = (bs, Ok tt) -> length bs = 64%nat.
Proof.
  intros Hok Hb. unfold octree_node_writer.
  intros (head & tail & Hhead & Htail & ->)%w_seq_inv.
  apply (w_for_length 4) in Htail;
    [|intros x seg _ Hx%w_write_inv; by eapply pack_f_length].
  rewrite length_app, Htail. clear Htail.
  assert (length head = 40%nat) as ->.
  { destruct node as [count idxs b|offsets b]; cbn in Hok.
    - destruct Hok as (_ & Hlen & _).
      apply w_seq_inv in Hhead as (flag & rest & Hflag%w_write_inv & Hrest & ->).
      apply w_seq_inv in Hrest as (cnt & slots & Hcnt%w_write_inv & Hslots & ->).
      apply (w_for_length 4) in Hslots;
        [|intros x seg _ Hx%w_write_inv; by eapply pack_I_length].
      apply pack_I_length in Hflag, Hcnt.
      rewrite !length_app, Hflag, Hcnt, Hslots, Hlen. done.
    - destruct Hok as (Hlen & _).
      apply w_seq_inv in Hhead as (flag & rest & Hflag%w_write_inv & Hrest & ->).
      apply w_seq_inv in Hrest as (cnt & slots & Hcnt%w_write_inv & Hslots & ->).
      apply (w_for_length 4) in Hslots;
        [|intros x seg _ Hx%w_write_inv; by eapply pack_i_length].
      apply pack_I_length in Hflag, Hcnt.
      rewrite !length_app, Hflag, Hcnt, Hslots, Hlen. done. }
  destruct node; cbn in Hb; rewrite Hb; done.
Qed.

End OctreeFile.

(** X6. An [octree.idx] that was written in full is the 4-byte node count,
    the 4-byte depth limit, and one record of 64 bytes for each node of the
    array in array order (flag, count or padding, eight slots, six bounds):
    8 + 64 n bytes, the record of node [i] at offset 8 + 64 i. *)
Theorem X6_octree_file_layout {F} `{Scalar F} `{Pack32 F}
    (self : SplatAtlasGenerator (F := F)) (octree : list (flat_node (F := F)))
    (bs : list Byte.byte) :
  build_octree_index self = Ok (Some octree) ->
  octree_writer self octree = (bs, Ok tt) ->
  length bs = (8 + 64 * length octree)%nat
  /\ pack_I (Z.of_nat (length octree)) = Ok (take 4 bs)
  /\ pack_I (max_octree_depth self) = Ok (take 4 (drop 4 bs))
  /\ forall (i : nat) (node : flat_node (F := F)),
       octree !! i = Some node ->
       octree_node_writer node = (take 64 (drop (8 + 64 * i) bs), Ok tt).
Proof.
  intros (root & lo & hi & Hroot & -> & Hinv)%build_octree_index_inv.
  unfold octree_writer.
  intros (count & r1 & Hc%w_write_inv & Hw & ->)%w_seq_inv.
  apply w_seq_inv in Hw as (depth & r2 & Hd%w_write_inv & Hw & ->).
  apply w_for_inv in Hw as (records & Hrec & ->).
  pose proof (pack_I_length _ _ Hc) as Hlc. pose proof (pack_I_length _ _ Hd) as Hld.
  assert (Forall (fun r => length r = 64%nat) records) as Hlen.
  { apply Forall_lookup. intros i r Hr.
    destruct (Forall2_lookup_r _ _ _ _ _ Hrec Hr) as (node & Hnode & Hw).
    eapply (octree_node_writer_length (length (flat_spec root 0)) i); [| |done].
    - eapply flat_node_inv_ok;
        [|by apply (flat_spec_inv _ root true Hinv 0 i node)].
      by intros r' idxs b [? _].
    - pose proof (build_bounds _ _ _ _ _ _ Hroot 0%nat) as Hb.
      by eapply Forall_lookup_1 in Hb. }
  split; [|split; [|split]].
  - rewrite !length_app, Hlc, Hld. apply Forall2_length in Hrec. rewrite Hrec.
    clear -Hlen. induction Hlen as [|r records Hr _ IH]; cbn; [lia|].
    rewrite length_app, Hr. lia.
  - by rewrite take_app_length' by done.
  - rewrite drop_app_length' by done. by rewrite take_app_length' by done.
  - intros i node Hnode.
    destruct (Forall2_lookup_l _ _ _ _ _ Hrec Hnode) as (r & Hr & Hw).
    rewrite Hw. f_equal.
    replace (8 + 64 * i)%nat with (4 + (4 + i * 64))%nat by lia.
    rewrite drop_app_add' by done. rewrite drop_app_add' by done.
    symmetry. by apply concat_slice.
Qed.

Lemma X6_witness :
  let self := f64_generator f64_cube_corners 1024 4 8 in
  exists octree bs,
    build_octree_index self = Ok (Some octree)
    /\ octree_writer self octree = (bs, Ok tt)
    /\ length bs = 584%nat.
Proof.
  intros self.
  destruct (build_octree_index self) as [[octree|]|e] eqn:Hbuild;
    [|vm_compute in Hbuild; discriminate..].
  destruct (octree_writer self octree) as [bs [[]|e]] eqn:Hw;
    [|vm_compute in Hbuild; injection Hbuild as <-; vm_compute in Hw; discriminate].
  exists octree, bs. split; [reflexivity|]. split; [exact Hw|].
  destruct (X6_octree_file_layout self octree bs Hbuild Hw) as (Hlen & _).
  rewrite Hlen. vm_compute in Hbuild. injection Hbuild as <-. reflexivity.
Defined.

(** ** The tile of a splat *)

(** [atlas[row, col]] for a position inside the layer. *)
Definition px (a : atlas_image) (row col : nat) : option pixel :=
  match a !! row with
  | Some line => line !! col
  | None => None
  end.

Lemma py_index_nonneg (len : nat) (i : Z) (k : nat) :
  0 <= i -> py_index len i = Ok k -> k = Z.to_nat i.
Proof.
  intros Hi. unfold py_index. cbv zeta.
  destruct (decide (i < 0)); [lia|]. case_decide; [|done]. by intros [= <-].
Qed.

Lemma np_setitem_px (a a' : atlas_image) (row col : Z) (p : pixel) :
  0 <= row -> 0 <= col ->
  np_setitem a row col p = Ok a' ->
  forall r c : nat,
    px a' r c = if decide (r = Z.to_nat row /\ c = Z.to_nat col) then Some p else px a r c.
Proof.
  intros Hrow Hcol. unfold np_setitem. destruct p as [[[r0 g0] b0] al0].
  intros Hs. apply bind_ok in Hs as (i & Hi & Hs).
  destruct (a !! i) as [line|] eqn:Hline; [|done].
  apply bind_ok in Hs as (j & Hj & Hs).
  apply bind_ok in Hs as (r' & Hr' & Hs). apply bind_ok in Hs as (g' & Hg' & Hs).
  apply bind_ok in Hs as (b' & Hb' & Hs). apply bind_ok in Hs as (al' & Hal' & Hs).
  injection Hs as <-.
  unfold to_uint8 in *. repeat case_decide; simplify_eq.
  pose proof (py_index_inv _ _ _ Hi) as Hilt. pose proof (py_index_inv _ _ _ Hj) as Hjlt.
  apply py_index_nonneg in Hi, Hj; [|done..]. subst i j.
  intros r c. unfold px. unfold atlas_image, pixel in *.
  destruct (decide (r = Z.to_nat row)) as [->|Hne].
  - rewrite list_lookup_insert_eq by done.
    destruct (decide (c = Z.to_nat col)) as [->|Hnc].
    + rewrite list_lookup_insert_eq by done. by rewrite decide_True.
    + rewrite list_lookup_insert_ne by done. rewrite Hline.
      rewrite decide_False by (intros [_ ?]; done). done.
  - rewrite list_lookup_insert_ne by done.
    rewrite decide_False by (intros [? _]; done). done.
Qed.

Section Tile.
Context {F : Type} `{Scalar F}.
Variable math_exp : F -> F.
Implicit Types (self : SplatAtlasGenerator (F := F)) (s : splat (F := F)).

(** The value [_render_splat_to_atlas] stores at offset [(dx, dy)] of a
    tile of [size] pixels: the colour of the splat, and its alpha weighted by
    a Gaussian around the middle of the tile. *)
Definition tile_value s (size dy dx : Z) : result pixel :=
  let center := size / 2 in
  sigma <- py_truediv (float_of_int size) (float_of_int 6) ;;
  let dist_sq := (dx - center) ^ 2 + (dy - center) ^ 2 in
  e <- py_truediv (float_of_int (- dist_sq)) (#2 * (sigma * sigma))%py ;;
  r <- int_of_float ((color s).1.1 * #255)%py ;;
  g <- int_of_float ((color s).1.2 * #255)%py ;;
  b <- int_of_float ((color s).2 * #255)%py ;;
  al <- int_of_float (alpha s * math_exp e * #255)%py ;;
  Ok (r, g, b, al).

(** The layer [acc] is [a0] with the pixels at the offsets in [S] of the
    tile at [(x, y)] set to their values. *)
Definition rendered s (x y size : Z) (S : Z -> Z -> Prop) (a0 acc : atlas_image) : Prop :=
  (forall dy dx, S dy dx ->
     exists p, tile_value s size dy dx = Ok p
               /\ px acc (Z.to_nat (y + dy)) (Z.to_nat (x + dx)) = Some p)
  /\ (forall row col : nat,
        ~ (exists dy dx, S dy dx /\ row = Z.to_nat (y + dy) /\ col = Z.to_nat (x + dx)) ->
        px acc row col = px a0 row col).

Lemma rendered_ext s (x y size : Z) (S S' : Z -> Z -> Prop) (a0 acc : atlas_image) :
  (forall dy dx, S dy dx <-> S' dy dx) ->
  rendered s x y size S a0 acc -> rendered s x y size S' a0 acc.
Proof.
  intros Heq [Hin Hout]. split.
  - intros dy dx HS. by apply Hin, Heq.
  - intros row col Hno. apply Hout. intros (dy & dx & HS & ?). apply Hno.
    exists dy, dx. by split; [apply Heq|].
Qed.

Lemma render_pixel_rendered self s (x y size : Z) (sigma : F) (S : Z -> Z -> Prop)
    (a0 acc acc' : atlas_image) (dy dx : Z) :
  0 <= x -> 0 <= y -> x + size <= atlas_size self -> y + size <= atlas_size self ->
  0 <= dy < size -> 0 <= dx < size ->
  (forall dy' dx', S dy' dx' -> 0 <= dy' /\ 0 <= dx') ->
  py_truediv (float_of_int size) (float_of_int 6) = Ok sigma ->
  rendered s x y size S a0 acc ->
  render_pixel math_exp self x y size s (size / 2) sigma dy dx acc = Ok acc' ->
  rendered s x y size (fun dy' dx' => S dy' dx' \/ (dy' = dy /\ dx' = dx)) a0 acc'.
Proof.
  intros Hx Hy Hxs Hys Hdy Hdx Hpos Hsigma [Hin Hout]. unfold render_pixel.
  intros Hr. apply bind_ok in Hr as (e & He & Hr).
  destruct (color s) as [[c0 c1] c2] eqn:Hcolor.
  apply bind_ok in Hr as (r & Hr' & Hr). apply bind_ok in Hr as (g & Hg & Hr).
  apply bind_ok in Hr as (b & Hb & Hr). apply bind_ok in Hr as (al & Hal & Hr).
  rewrite decide_True in Hr by lia.
  assert (tile_value s size dy dx = Ok (r, g, b, al)) as Hval.
  { unfold tile_value. rewrite Hsigma. cbn [bind]. rewrite He. cbn [bind].
    rewrite Hcolor. cbn [fst snd]. rewrite Hr', Hg, Hb. cbn [bind]. by rewrite Hal. }
  pose proof (np_setitem_px acc acc' (y + dy) (x + dx) (r, g, b, al)
                ltac:(lia) ltac:(lia) Hr) as Hpx.
  split.
  - intros dy' dx' [HS|[-> ->]].
    + rewrite Hpx. case_decide as Hsame.
      * destruct (Hpos _ _ HS) as [? ?].
        assert (dy' = dy) as -> by lia. assert (dx' = dx) as -> by lia.
        by exists (r, g, b, al).
      * by apply Hin.
    + exists (r, g, b, al). split; [done|]. rewrite Hpx. by rewrite decide_True.
  - intros row col Hno. rewrite Hpx. case_decide as Hsame.
    + exfalso. apply Hno. exists dy, dx. by split; [right|].
    + apply Hout. intros (dy' & dx' & HS & ?). apply Hno.
      exists dy', dx'. by split; [left|].
Qed.

Lemma render_rendered self s (x y size : Z) (a a' : atlas_image) :
  0 <= x -> 0 <= y -> x + size <= atlas_size self -> y + size <= atlas_size self ->
  _render_splat_to_atlas math_exp self a x y size s = Ok a' ->
  rendered s x y size (fun dy dx => 0 <= dy < size /\ 0 <= dx < size) a a'.
Proof.
  intros Hx Hy Hxs Hys. unfold _render_splat_to_atlas.
  intros Hr. apply bind_ok in Hr as (sigma & Hsigma & Hr).
  apply (foldM_invariant
           (fun pre acc =>
              rendered s x y size
                (fun dy dx => dy ∈ pre /\ 0 <= dy < size /\ 0 <= dx < size) a acc)) in Hr.
  - revert Hr. apply rendered_ext. intros dy dx. rewrite elem_of_py_range. tauto.
  - split; [by intros dy dx [?%elem_of_nil _]|].
    intros row col _. done.
  - intros pre dy acc acc' Hdy%elem_of_py_range Hacc Hrow.
    apply (foldM_invariant
             (fun pre' acc1 =>
                rendered s x y size
                  (fun dy' dx' =>
                     (dy' ∈ pre /\ 0 <= dy' < size /\ 0 <= dx' < size)
                     \/ (dy' = dy /\ dx' ∈ pre' /\ 0 <= dx' < size)) a acc1)) in Hrow.
    + revert Hrow. apply rendered_ext. intros dy' dx'.
      rewrite elem_of_app, list_elem_of_singleton, elem_of_py_range. split.
      * intros [(? & ? & ?)|(-> & ? & ?)]; [tauto|]. split; [by right|done].
      * intros ([?| ->] & ? & ?); [left; tauto|right; tauto].
    + revert Hacc. apply rendered_ext. intros dy' dx'. split; [tauto|].
      intros [?|(_ & ?%elem_of_nil & _)]; done.
    + intros pre' dx acc1 acc1' Hdx%elem_of_py_range Hacc1 Hpx.
      assert (forall dy' dx',
                (dy' ∈ pre /\ 0 <= dy' < size /\ 0 <= dx' < size)
                \/ (dy' = dy /\ dx' ∈ pre' /\ 0 <= dx' < size) ->
                0 <= dy' /\ 0 <= dx') as Hpos
        by (intros dy' dx' [(_ & ? & ?)|(-> & _ & ?)]; lia).
      pose proof (render_pixel_rendered self s x y size sigma _ a acc1 acc1' dy dx
                    Hx Hy Hxs Hys Hdy Hdx Hpos Hsigma Hacc1 Hpx) as Hstep.
      revert Hstep. apply rendered_ext.
      intros dy' dx'. cbn. rewrite elem_of_app, list_elem_of_singleton.
      split; [|intros [?|(-> & [?| ->] & ?)]; tauto].
      intros [[?|(-> & ? & ?)]|[-> ->]]; [tauto| |]; right; tauto.
Qed.

End Tile.

(** X7. When [_render_splat_to_atlas] returns for a cell that lies inside
    the layer, at non-negative coordinates, every pixel of the cell holds the
    tile value of its offset (the colour of the splat times 255, and the
    alpha weighted by the Gaussian), and every pixel outside the cell is as
    it was. *)
Theorem X7_render_fills_its_cell_only {F} `{Scalar F} (math_exp : F -> F)
    (self : SplatAtlasGenerator (F := F)) (s : splat (F := F))
    (x y size : Z) (a a' : atlas_image) :
  0 <= x -> 0 <= y -> x + size <= atlas_size self -> y + size <= atlas_size self ->
  _render_splat_to_atlas math_exp self a x y size s = Ok a' ->
  (forall dy dx : Z,
     0 <= dy < size -> 0 <= dx < size ->
     exists p, tile_value math_exp s size dy dx = Ok p
               /\ px a' (Z.to_nat (y + dy)) (Z.to_nat (x + dx)) = Some p)
  /\ (forall row col : nat,
        ~ (y <= Z.of_nat row < y + size /\ x <= Z.of_nat col < x + size) ->
        px a' row col = px a row col).
Proof.
  intros Hx Hy Hxs Hys Hr.
  destruct (render_rendered math_exp self s x y size a a' Hx Hy Hxs Hys Hr) as [Hin Hout].
  split.
  - intros dy dx Hdy Hdx. by apply Hin.
  - intros row col Hno. apply Hout. intros (dy & dx & [Hdy Hdx] & -> & ->).
    apply Hno. lia.
Qed.

Lemma X7_witness :
  let self := f64_generator [] 16 1 8 in
  let s := f64_splat 0 0 0 0.0625 in
  exists a a',
    np_zeros 16 = Ok a
    /\ _render_splat_to_atlas (fun _ => 1%float) self a 8 0 8 s = Ok a'
    /\ px a' 3 12 = Some (255, 255, 255, 255)
    /\ px a' 3 7 = Some (0, 0, 0, 0).
Proof.
  intros self s.
  destruct (np_zeros 16) as [a|e] eqn:Ha; [|vm_compute in Ha; discriminate].
  destruct (_render_splat_to_atlas (fun _ => 1%float) self a 8 0 8 s) as [a'|e] eqn:Hr;
    [|vm_compute in Ha; injection Ha as <-; vm_compute in Hr; discriminate].
  exists a, a'. split; [reflexivity|]. split; [exact Hr|].
  destruct (X7_render_fills_its_cell_only (fun _ => 1%float) self s 8 0 8 a a')
    as [Hin Hout]; [lia|lia|vm_compute; discriminate|vm_compute; discriminate|exact Hr|].
  split.
  - destruct (Hin 3 4) as (p & Hp & Hpx); [lia|lia|].
    vm_compute in Hp. injection Hp as <-. exact Hpx.
  - rewrite (Hout 3%nat 7%nat) by lia.
    vm_compute in Ha. injection Ha as <-. reflexivity.
Defined.

(** A loop whose passes keep [P] or raise [e] ends with [P] or raises
    [e]. *)
Lemma foldM_ok_or_raise {A S} (P : S -> Prop) (e : exn) (body : S -> A -> result S)
    (xs : list A) :
  forall acc : S,
    (forall acc x, x ∈ xs -> P acc ->
       (exists acc', body acc x = Ok acc' /\ P acc') \/ body acc x = Raise e) ->
    P acc ->
    (exists r, foldM body xs acc = Ok r /\ P r) \/ foldM body xs acc = Raise e.
Proof.
  induction xs as [|x xs IH]; intros acc Hbody Hacc; cbn [foldM].
  - left. by exists acc.
  - destruct (Hbody acc x ltac:(left) Hacc) as [(acc' & -> & Hacc')| ->]; [|by right].
    cbn [bind]. apply IH; [|done]. intros acc1 x1 Hx1. apply Hbody. by right.
Qed.

Lemma px_image_ok (n : nat) (a : atlas_image) (row col : nat) (p : pixel) :
  image_ok n a -> px a row col = Some p -> pixel_ok p.
Proof.
  intros [_ Hrows]. unfold px.
  destruct (a !! row) as [line|] eqn:Hline; [|done]. intros Hp.
  pose proof (Forall_lookup_1 _ _ _ _ Hrows Hline) as [_ Hpx].
  by eapply Forall_lookup_1 in Hpx.
Qed.

Section TileRange.
Context {F : Type} `{Scalar F}.
Variable math_exp : F -> F.
Implicit Types (self : SplatAtlasGenerator (F := F)) (s : splat (F := F)).

(** Storing a tile value that can be computed, at a place inside the
    layer, keeps the shape of the layer or raises [OverflowError]. *)
Lemma render_pixel_ok_or_overflow self s (x y size : Z) (sigma : F) (dy dx : Z)
    (acc : atlas_image) :
  0 <= x -> 0 <= y -> x + size <= atlas_size self -> y + size <= atlas_size self ->
  0 <= dy < size -> 0 <= dx < size ->
  image_ok (Z.to_nat (atlas_size self)) acc ->
  py_truediv (float_of_int size) (float_of_int 6) = Ok sigma ->
  is_ok (tile_value math_exp s size dy dx) ->
  (exists acc', render_pixel math_exp self x y size s (size / 2) sigma dy dx acc = Ok acc'
                /\ image_ok (Z.to_nat (atlas_size self)) acc')
  \/ render_pixel math_exp self x y size s (size / 2) sigma dy dx acc
     = Raise OverflowError.
Proof.
  intros Hx Hy Hxs Hys Hdy Hdx Himg Hsigma [p Hp].
  unfold tile_value in Hp. rewrite Hsigma in Hp. cbn [bind] in Hp.
  apply bind_ok in Hp as (e & He & Hp). apply bind_ok in Hp as (r & Hr & Hp).
  apply bind_ok in Hp as (g & Hg & Hp). apply bind_ok in Hp as (b & Hb & Hp).
  apply bind_ok in Hp as (al & Hal & _).
  destruct (render_pixel math_exp self x y size s (size / 2) sigma dy dx acc)
    as [acc'|err] eqn:Hrender.
  { left. exists acc'. split; [done|].
    revert Hrender. unfold render_pixel. rewrite He. cbn [bind].
    destruct (color s) as [[c0 c1] c2]. cbn [fst snd] in Hr, Hg, Hb.
    rewrite Hr, Hg, Hb. cbn [bind]. rewrite Hal. cbn [bind].
    rewrite decide_True by lia. by apply np_setitem_image_ok. }
  right. f_equal. revert Hrender. unfold render_pixel. rewrite He. cbn [bind].
  destruct (color s) as [[c0 c1] c2]. cbn [fst snd] in Hr, Hg, Hb.
  rewrite Hr, Hg, Hb. cbn [bind]. rewrite Hal. cbn [bind].
  rewrite decide_True by lia. destruct Himg as [Hlen Hrows].
  unfold np_setitem.
  rewrite <- (Z2Nat.id (y + dy)) at 1 by lia. rewrite py_index_nat by lia. cbn [bind].
  destruct (lookup_lt_is_Some_2 acc (Z.to_nat (y + dy))) as [line Hline]; [lia|].
  unfold atlas_image, pixel in *. rewrite Hline.
  pose proof (Forall_lookup_1 _ _ _ _ Hrows Hline) as [Hl _].
  rewrite <- (Z2Nat.id (x + dx)) at 1 by lia. rewrite py_index_nat by lia. cbn [bind].
  unfold to_uint8. repeat (case_decide; cbn [bind]; [|by intros [= <-]]). done.
Qed.

Lemma render_ok_or_overflow self s (x y size : Z) (a : atlas_image) :
  0 < size ->
  0 <= x -> 0 <= y -> x + size <= atlas_size self -> y + size <= atlas_size self ->
  image_ok (Z.to_nat (atlas_size self)) a ->
  (forall dy dx, 0 <= dy < size -> 0 <= dx < size ->
     is_ok (tile_value math_exp s size dy dx)) ->
  is_ok (_render_splat_to_atlas math_exp self a x y size s)
  \/ _render_splat_to_atlas math_exp self a x y size s = Raise OverflowError.
Proof.
  intros Hsize Hx Hy Hxs Hys Himg Hvalues. unfold _render_splat_to_atlas.
  destruct (Hvalues 0 0 ltac:(lia) ltac:(lia)) as [p0 Hp0].
  unfold tile_value in Hp0. apply bind_ok in Hp0 as (sigma & Hsigma & _).
  rewrite Hsigma. cbn [bind].
  destruct (foldM_ok_or_raise (image_ok (Z.to_nat (atlas_size self))) OverflowError
              (fun a dy =>
                 foldM (fun a dx =>
                          render_pixel math_exp self x y size s (size / 2) sigma dy dx a)
                       (py_range size) a)
              (py_range size) a) as [(r & -> & _)| ->]; [| |by left; eexists|by right].
  - intros acc dy Hdy%elem_of_py_range Hacc.
    apply foldM_ok_or_raise; [|done].
    intros acc1 dx Hdx%elem_of_py_range Hacc1.
    by apply render_pixel_ok_or_overflow; [..|apply Hvalues].
  - done.
Qed.

End TileRange.

(** X8. Pixel values are not clamped.  Whenever rendering a tile that lies
    inside the layer returns, every value of the tile, colour and weighted
    alpha, at every offset, is within 0..255.  So when the values of the tile
    can all be computed and one of them, at any offset, has a component
    outside 0..255, rendering raises [OverflowError] (the exception that
    NumPy 2 raises when such an integer is stored into a [uint8] array). *)
Theorem X8_colour_out_of_range_raises {F} `{Scalar F} (math_exp : F -> F)
    (self : SplatAtlasGenerator (F := F)) (s : splat (F := F))
    (x y size : Z) (a : atlas_image) :
  0 <= x -> 0 <= y -> x + size <= atlas_size self -> y + size <= atlas_size self ->
  image_ok (Z.to_nat (atlas_size self)) a ->
  (forall a', _render_splat_to_atlas math_exp self a x y size s = Ok a' ->
     forall dy dx : Z, 0 <= dy < size -> 0 <= dx < size ->
       exists p, tile_value math_exp s size dy dx = Ok p /\ pixel_ok p)
  /\ ((forall dy dx : Z, 0 <= dy < size -> 0 <= dx < size ->
         is_ok (tile_value math_exp s size dy dx)) ->
      (exists (dy dx : Z) (p : pixel),
         0 <= dy < size /\ 0 <= dx < size
         /\ tile_value math_exp s size dy dx = Ok p /\ ~ pixel_ok p) ->
      _render_splat_to_atlas math_exp self a x y size s = Raise OverflowError).
Proof.
  intros Hx Hy Hxs Hys Himg.
  assert (forall a', _render_splat_to_atlas math_exp self a x y size s = Ok a' ->
            forall dy dx : Z, 0 <= dy < size -> 0 <= dx < size ->
              exists p, tile_value math_exp s size dy dx = Ok p /\ pixel_ok p) as Hrange.
  { intros a' Hr dy dx Hdy Hdx.
    destruct (render_rendered math_exp self s x y size a a' Hx Hy Hxs Hys Hr) as [Hin _].
    destruct (Hin dy dx (conj Hdy Hdx)) as (p & Hp & Hpx).
    exists p. split; [done|].
    eapply px_image_ok; [|done]. by eapply render_image_ok. }
  split; [done|].
  intros Hvalues (dy & dx & p & Hdy & Hdx & Hp & Hbad).
  destruct (render_ok_or_overflow math_exp self s x y size a) as [[a' Hr]|Hr];
    [lia|done..| |done].
  destruct (Hrange a' Hr dy dx Hdy Hdx) as (p' & Hp' & Hok).
  rewrite Hp in Hp'. injection Hp' as <-. done.
Qed.

(** A splat with the alpha -1: the value at the corner of the tile is in
    range, the one in the middle is not. *)
Lemma X8_witness :
  let self := f64_generator [] 16 1 8 in
  let weight (e : float) := if PrimFloat.eqb e 0 then 1%float else 0%float in
  let s : splat (F := float) :=
    {| pos := (0, 0, 0)%float; color := (1, 1, 1)%float; alpha := (-1)%float;
       covariance := (1, 0, 0, 1, 0, 1)%float; scale := (1, 1, 1)%float;
       rotation := (0, 0, 0, 1)%float; atlas := None |} in
  tile_value weight s 8 0 0 = Ok (255, 255, 255, 0)
  /\ tile_value weight s 8 4 4 = Ok (255, 255, 255, -255)
  /\ _render_splat_to_atlas weight self
       (replicate 16 (replicate 16 (0, 0, 0, 0))) 0 0 8 s
     = Raise OverflowError.
Proof.
  intros self weight s.
  split; [vm_compute; reflexivity|]. split; [vm_compute; reflexivity|].
  apply (proj2 (X8_colour_out_of_range_raises weight self s 0 0 8
                  (replicate 16 (replicate 16 (0, 0, 0, 0)))
                  ltac:(lia) ltac:(lia) ltac:(vm_compute; discriminate)
                  ltac:(vm_compute; discriminate)
                  (np_zeros_image_ok 16 _ eq_refl))).
  - intros dy dx Hdy Hdx.
    assert (dy = 0 \/ dy = 1 \/ dy = 2 \/ dy = 3 \/ dy = 4 \/ dy = 5 \/ dy = 6 \/ dy = 7)
      as Hy by lia.
    assert (dx = 0 \/ dx = 1 \/ dx = 2 \/ dx = 3 \/ dx = 4 \/ dx = 5 \/ dx = 6 \/ dx = 7)
      as Hx by lia.
    clear Hdy Hdx.
    repeat (destruct Hy as [->|Hy]); try subst dy;
      repeat (destruct Hx as [->|Hx]); try subst dx;
      vm_compute; by eexists.
  - exists 4, 4, (255, 255, 255, -255).
    split; [lia|]. split; [lia|]. split; [vm_compute; reflexivity|].
    unfold pixel_ok. cbn. lia.
Defined.

(** * Ingestion *)

(** ** From a vertex to a splat *)

(** The literal [0.1]. *)
Class Literals (F : Type) := {
  float_0_1 : F;
}.

#[export] Instance float64_literals : Literals float := {|
  float_0_1 := 0x1.999999999999ap-4%float;
|}.

#[export] Instance R_literals : Literals R := {|
  float_0_1 := (1 / 10)%R;
|}.

(** The dictionary [vertex_data]: property name to value.  A value read
    with an integer format is carried as the float of the same value. *)
Abbreviation vertex_dict F := (gmap string F).

Section Vertex.
Context {F : Type} `{Scalar F} `{Literals F}.

(** [vertex_data.get(key, default)] and [vertex_data[key]]. *)
Definition dict_get (vertex_data : vertex_dict F) (key : string) (d : F) : F :=
  default d (vertex_data !! key).

Definition dict_item (vertex_data : vertex_dict F) (key : string) : result F :=
  match vertex_data !! key with
  | Some v => Ok v
  | None => Raise KeyError
  end.

(** The [try] block of [_convert_vertex_to_splat]. *)
Definition convert_vertex (vertex_data : vertex_dict F) : result (splat (F := F)) :=
  let get := dict_get vertex_data in
  let position := (get "x" (float_of_int 0), get "y" (float_of_int 0),
                   get "z" (float_of_int 0)) in
  rgb <-
    (if decide (is_Some (vertex_data !! "red")) then
       r <- dict_item vertex_data "red" ;;
       g <- dict_item vertex_data "green" ;;
       b <- dict_item vertex_data "blue" ;;
       Ok (r / #255, g / #255, b / #255)%py
     else if decide (is_Some (vertex_data !! "r")) then
       r <- dict_item vertex_data "r" ;;
       g <- dict_item vertex_data "g" ;;
       b <- dict_item vertex_data "b" ;;
       Ok (r, g, b)
     else Ok (float_of_int 1, float_of_int 1, float_of_int 1)) ;;
  let alpha0 := get "alpha" (get "opacity" (float_of_int 1)) in
  let alpha1 := if (alpha0 > #1)%py then (alpha0 / #255)%py else alpha0 in
  let scale3 := (get "scale_0" (get "scale_x" float_0_1),
                 get "scale_1" (get "scale_y" float_0_1),
                 get "scale_2" (get "scale_z" float_0_1)) in
  let rot := (get "rot_0" (get "qx" (float_of_int 0)),
              get "rot_1" (get "qy" (float_of_int 0)),
              get "rot_2" (get "qz" (float_of_int 0)),
              get "rot_3" (get "qw" (float_of_int 1))) in
  cov <- _compute_covariance_from_scale_rot scale3 rot ;;
  Ok {| pos := position; color := rgb; alpha := alpha1; covariance := cov;
        scale := scale3; rotation := rot; atlas := None |}.

(** [_convert_vertex_to_splat]: any exception of the [try] block gives
    [None]. *)
Definition _convert_vertex_to_splat (vertex_data : vertex_dict F)
  : option (splat (F := F)) :=
  match convert_vertex vertex_data with
  | Ok s => Some s
  | Raise _ => None
  end.

(** The colour keys are complete: all of red, green and blue when [red] is
    there, else all of r, g and b when [r] is there. *)
Definition colour_keys_complete (vertex_data : vertex_dict F) : Prop :=
  (is_Some (vertex_data !! "red") ->
   is_Some (vertex_data !! "green") /\ is_Some (vertex_data !! "blue"))
  /\ (vertex_data !! "red" = None -> is_Some (vertex_data !! "r") ->
      is_Some (vertex_data !! "g") /\ is_Some (vertex_data !! "b")).

Definition vertex_scale (vertex_data : vertex_dict F) : vec3 (F := F) :=
  (dict_get vertex_data "scale_0" (dict_get vertex_data "scale_x" float_0_1),
   dict_get vertex_data "scale_1" (dict_get vertex_data "scale_y" float_0_1),
   dict_get vertex_data "scale_2" (dict_get vertex_data "scale_z" float_0_1)).

Definition vertex_rotation (vertex_data : vertex_dict F) : quat (F := F) :=
  (dict_get vertex_data "rot_0" (dict_get vertex_data "qx" (float_of_int 0)),
   dict_get vertex_data "rot_1" (dict_get vertex_data "qy" (float_of_int 0)),
   dict_get vertex_data "rot_2" (dict_get vertex_data "qz" (float_of_int 0)),
   dict_get vertex_data "rot_3" (dict_get vertex_data "qw" (float_of_int 1))).

Lemma dict_item_ok (vertex_data : vertex_dict F) (key : string) :
  is_ok (dict_item vertex_data key) <-> is_Some (vertex_data !! key).
Proof.
  unfold dict_item. destruct (vertex_data !! key) as [v|]; split.
  - by eexists.
  - intros _. by eexists.
  - by intros [? ?].
  - by intros [? ?].
Qed.

(** A vertex is kept exactly when its colour keys are complete and the
    covariance builder raises nothing. *)
Lemma convert_vertex_kept (vertex_data : vertex_dict F) :
  is_Some (_convert_vertex_to_splat vertex_data)
  <-> colour_keys_complete vertex_data
      /\ is_ok (_compute_covariance_from_scale_rot
                  (vertex_scale vertex_data) (vertex_rotation vertex_data)).
Proof.
  unfold _convert_vertex_to_splat, convert_vertex, colour_keys_complete.
  fold (vertex_scale vertex_data) (vertex_rotation vertex_data).
  unfold dict_item.
  destruct (_compute_covariance_from_scale_rot _ _) as [cov|e] eqn:Hcov.
  - destruct (vertex_data !! "red") as [red|] eqn:Hred.
    + rewrite decide_True by done. cbn [bind].
      destruct (vertex_data !! "green") as [green|]; cbn [bind].
      * destruct (vertex_data !! "blue") as [blue|]; cbn [bind].
        -- split; [|done]. intros _. split; [|by eexists]. split; [done|done].
        -- split; [by intros [? ?]|]. intros [[Hc _] _].
           destruct (Hc ltac:(done)) as [_ [? ?]]. done.
      * split; [by intros [? ?]|]. intros [[Hc _] _].
        destruct (Hc ltac:(done)) as [[? ?] _]. done.
    + rewrite decide_False by (by intros [? ?]).
      destruct (vertex_data !! "r") as [r|] eqn:Hr.
      * rewrite decide_True by done. cbn [bind].
        destruct (vertex_data !! "g") as [g|]; cbn [bind].
        -- destruct (vertex_data !! "b") as [b|]; cbn [bind].
           ++ split; [|done]. intros _. split; [|by eexists].
              split; [by intros [? ?]|done].
           ++ split; [by intros [? ?]|]. intros [[_ Hc] _].
              destruct (Hc eq_refl ltac:(done)) as [_ [? ?]]. done.
        -- split; [by intros [? ?]|]. intros [[_ Hc] _].
           destruct (Hc eq_refl ltac:(done)) as [[? ?] _]. done.
      * rewrite decide_False by (by intros [? ?]). cbn [bind].
        split; [|done]. intros _. split; [|by eexists].
        split; [by intros [? ?]|]. by intros _ [? ?].
  - split; [|by intros [_ [? ?]]].
    intros [s Hs]. repeat case_match; simplify_eq.
Qed.

End Vertex.

Lemma covariance_total_R (scale3 : vec3 (F := R)) (rot : quat (F := R)) :
  is_ok (_compute_covariance_from_scale_rot scale3 rot).
Proof.
  unfold _compute_covariance_from_scale_rot. rewrite normalize_quat_R. by eexists.
Qed.

(** X9. A vertex with [red] but without [green] or [blue] (or, without
    [red], with [r] but without [g] or [b]) is dropped without an error, even
    when the other triple is complete; in exact arithmetic these are the only
    vertices that are dropped. *)
Theorem X9_vertex_dropped_iff_colour_keys_incomplete :
  (forall vertex_data : vertex_dict float,
     ~ colour_keys_complete vertex_data ->
     _convert_vertex_to_splat vertex_data = None)
  /\ (forall vertex_data : vertex_dict R,
        _convert_vertex_to_splat vertex_data = None
        <-> ~ colour_keys_complete vertex_data).
Proof.
  split.
  - intros vertex_data Hno.
    destruct (_convert_vertex_to_splat vertex_data) as [s|] eqn:Hs; [|done].
    destruct Hno. apply convert_vertex_kept. by eexists.
  - intros vertex_data. pose proof (convert_vertex_kept vertex_data) as Hkept.
    split.
    + intros Hnone Hc. destruct Hkept as [_ Hk].
      destruct Hk as [s Hs]; [split; [done|apply covariance_total_R]|]. congruence.
    + intros Hno.
      destruct (_convert_vertex_to_splat vertex_data) as [s|] eqn:Hs; [|done].
      destruct Hno. apply Hkept. by eexists.
Qed.

(** A vertex with [red] alone among red, green and blue is dropped, although
    it has [r], [g] and [b]. *)
Lemma X9_witness :
  _convert_vertex_to_splat
    (<["red" := 255%float]> (<["r" := 1%float]> (<["g" := 1%float]>
       (<["b" := 1%float]> (∅ : vertex_dict float)))))
  = None.
Proof.
  apply (proj1 X9_vertex_dropped_iff_colour_keys_incomplete).
  intros [Hc _]. destruct Hc as [[green Hgreen] _].
  - rewrite lookup_insert_eq. by eexists.
  - simplify_map_eq.
Defined.

Section VertexR.
Implicit Types (vertex_data : vertex_dict R).

Lemma convert_vertex_inv_R vertex_data (s : splat (F := R)) :
  _convert_vertex_to_splat vertex_data = Some s ->
  let alpha0 := dict_get vertex_data "alpha"
                  (dict_get vertex_data "opacity" 1%R) in
  pos s = (dict_get vertex_data "x" 0%R, dict_get vertex_data "y" 0%R,
           dict_get vertex_data "z" 0%R)
  /\ alpha s = (if Rlt_dec 1 alpha0 then alpha0 / 255 else alpha0)%R
  /\ scale s = vertex_scale vertex_data
  /\ rotation s = vertex_rotation vertex_data
  /\ _compute_covariance_from_scale_rot (scale s) (rotation s) = Ok (covariance s)
  /\ atlas s = None
  /\ (forall red, vertex_data !! "red" = Some red ->
        exists green blue,
          vertex_data !! "green" = Some green /\ vertex_data !! "blue" = Some blue
          /\ color s = (red / 255, green / 255, blue / 255)%R)
  /\ (vertex_data !! "red" = None ->
      forall r, vertex_data !! "r" = Some r ->
        exists g b, vertex_data !! "g" = Some g /\ vertex_data !! "b" = Some b
                    /\ color s = (r, g, b))
  /\ (vertex_data !! "red" = None -> vertex_data !! "r" = None ->
      color s = (1, 1, 1)%R).
Proof.
  unfold _convert_vertex_to_splat, convert_vertex.
  fold (vertex_scale vertex_data) (vertex_rotation vertex_data).
  destruct (_compute_covariance_from_scale_rot _ _) as [cov|e] eqn:Hcov;
    [|intros Hs; exfalso;
      match type of Hs with context [bind ?m _] => destruct m end; discriminate Hs].
  unfold dict_item. intros Hs. cbv zeta.
  destruct (vertex_data !! "red") as [red|] eqn:Hred.
  - rewrite decide_True in Hs by done. cbn [bind] in Hs.
    destruct (vertex_data !! "green") as [green|]; [|done].
    destruct (vertex_data !! "blue") as [blue|]; [|done].
    cbn [bind] in Hs. injection Hs as <-. cbn.
    split_and!; try done; [by destruct (Rlt_dec _ _)|].
    intros ? [= <-]. by exists green, blue.
  - rewrite decide_False in Hs by (by intros [? ?]).
    destruct (vertex_data !! "r") as [r|] eqn:Hr.
    + rewrite decide_True in Hs by done. cbn [bind] in Hs.
      destruct (vertex_data !! "g") as [g|]; [|done].
      destruct (vertex_data !! "b") as [b|]; [|done].
      cbn [bind] in Hs. injection Hs as <-. cbn.
      split_and!; try done; [by destruct (Rlt_dec _ _)|].
      intros _ ? [= <-]. by exists g, b.
    + rewrite decide_False in Hs by (by intros [? ?]).
      cbn [bind] in Hs. injection Hs as <-. cbn.
      split_and!; try done. by destruct (Rlt_dec _ _).
Qed.

End VertexR.

(** X10. In exact arithmetic, the splat made from a vertex has no atlas
    coordinates yet, and its covariance is the one of its own scale and
    rotation.  An alpha above 1 is divided by 255, so an alpha (or, without
    it, an opacity) between 0 and 255 is stored as a value between 0 and 1;
    [red], [green] and [blue] between 0 and 255 are stored as values between
    0 and 1, while [r], [g] and [b] are stored as they are. *)
Theorem X10_ingested_colour_and_alpha_ranges (vertex_data : vertex_dict R)
    (s : splat (F := R)) :
  _convert_vertex_to_splat vertex_data = Some s ->
  atlas s = None
  /\ _compute_covariance_from_scale_rot (scale s) (rotation s) = Ok (covariance s)
  /\ ((0 <= dict_get vertex_data "alpha" (dict_get vertex_data "opacity" 1) <= 255)%R ->
      (0 <= alpha s <= 1)%R)
  /\ (forall red green blue,
        vertex_data !! "red" = Some red -> vertex_data !! "green" = Some green ->
        vertex_data !! "blue" = Some blue ->
        (0 <= red <= 255)%R -> (0 <= green <= 255)%R -> (0 <= blue <= 255)%R ->
        exists c0 c1 c2,
          color s = (c0, c1, c2)
          /\ (0 <= c0 <= 1)%R /\ (0 <= c1 <= 1)%R /\ (0 <= c2 <= 1)%R)
  /\ (forall r g b,
        vertex_data !! "red" = None ->
        vertex_data !! "r" = Some r -> vertex_data !! "g" = Some g ->
        vertex_data !! "b" = Some b ->
        color s = (r, g, b)).
Proof.
  intros Hs.
  destruct (convert_vertex_inv_R vertex_data s Hs)
    as (_ & Halpha & _ & _ & Hcov & Hatlas & Hred & Hrgb & _).
  split; [done|]. split; [done|]. split; [|split].
  - intros [Hlo Hhi]. rewrite Halpha. destruct (Rlt_dec 1 _); lra.
  - intros red green blue Hr Hg Hb Hr' Hg' Hb'.
    destruct (Hred red Hr) as (green' & blue' & Hg2 & Hb2 & ->).
    simplify_eq. eexists _, _, _. split; [done|]. lra.
  - intros r g b Hnone Hr Hg Hb.
    destruct (Hrgb Hnone r Hr) as (g' & b' & Hg2 & Hb2 & ->). by simplify_eq.
Qed.

Lemma X10_witness :
  let vertex_data : vertex_dict R :=
    <["opacity" := 128%R]> (<["red" := 255%R]> (<["green" := 0%R]>
      (<["blue" := 51%R]> ∅))) in
  exists s, _convert_vertex_to_splat vertex_data = Some s
            /\ atlas s = None /\ (0 <= alpha s <= 1)%R.
Proof.
  intros vertex_data.
  destruct (_convert_vertex_to_splat vertex_data) as [s|] eqn:Hs.
  - exists s. split; [reflexivity|].
    destruct (X10_ingested_colour_and_alpha_ranges vertex_data s Hs)
      as (Hatlas & _ & Halpha & _).
    split; [exact Hatlas|]. apply Halpha.
    unfold vertex_data, dict_get. simplify_map_eq. cbn. lra.
  - exfalso.
    assert (is_Some (_convert_vertex_to_splat vertex_data)) as [s' Hs'];
      [|rewrite Hs in Hs'; discriminate Hs'].
    apply convert_vertex_kept. split; [|apply covariance_total_R].
    unfold vertex_data. split.
    + intros _. split; simplify_map_eq; by eexists.
    + intros Hnone. simplify_map_eq.
Defined.

(** ** Reading a PLY file *)

(** A call that returns (or raises), or one that never does. *)
Inductive run (A : Type) : Type :=
| Returns (a : A)
| Hangs.
Arguments Returns {A} a.
Arguments Hangs {A}.

(** [f.readline()] on the rest [bs] of a binary file: the bytes up to and
    with the first line feed, and what follows them. *)
Fixpoint readline (bs : list Byte.byte) : list Byte.byte * list Byte.byte :=
  match bs with
  | [] => ([], [])
  | b :: bs' =>
      if Byte.eqb b Byte.x0a then ([b], bs')
      else let r := readline bs' in (b :: r.1, r.2)
  end.

(** [raw.decode('ascii')]: a byte above 127 raises [UnicodeDecodeError],
    which is a [ValueError]. *)
Definition decode_ascii (raw : list Byte.byte) : result string :=
  if forallb (fun b => (Byte.to_N b <? 128)%N) raw
  then Ok (String.string_of_list_byte raw)
  else Raise ValueError.

(** [str.isspace] on an ASCII character: tab to carriage return, the four
    separators 28 to 31, and the space. *)
Definition py_isspace (c : Ascii.ascii) : bool :=
  let n := Ascii.nat_of_ascii c in
  ((9 <=? n) && (n <=? 13) || (28 <=? n) && (n <=? 32))%nat.

Fixpoint lstrip (l : list Ascii.ascii) : list Ascii.ascii :=
  match l with
  | c :: l' => if py_isspace c then lstrip l' else l
  | [] => []
  end.

(** [s.strip()]. *)
Definition py_strip (s : string) : string :=
  String.string_of_list_ascii
    (rev (lstrip (rev (lstrip (String.list_ascii_of_string s))))).

(** [s.split()]: the maximal runs of characters that are not spaces;
    [cur] is the run being read, last character first. *)
Fixpoint split_go (cur : list Ascii.ascii) (l : list Ascii.ascii)
  : list (list Ascii.ascii) :=
  match l with
  | [] => match cur with [] => [] | _ :: _ => [rev cur] end
  | c :: l' =>
      if py_isspace c
      then match cur with [] => split_go [] l' | _ :: _ => rev cur :: split_go [] l' end
      else split_go (c :: cur) l'
  end.

Definition py_split (s : string) : list string :=
  String.string_of_list_ascii <$> split_go [] (String.list_ascii_of_string s).

(** [parts[i]] for an index that is not negative. *)
Definition parts_item (parts : list string) (i : nat) : result string :=
  match parts !! i with
  | Some p => Ok p
  | None => Raise IndexError
  end.

Definition digit_of (c : Ascii.ascii) : option Z :=
  let n := Ascii.nat_of_ascii c in
  if ((48 <=? n) && (n <=? 57))%nat then Some (Z.of_nat n - 48) else None.

(** The digits of a decimal numeral, with single underscores between
    digits; [prev] tells whether the character before was a digit. *)
Fixpoint int_digits (acc : Z) (prev : bool) (l : list Ascii.ascii) : option Z :=
  match l with
  | [] => if prev then Some acc else None
  | c :: l' =>
      match digit_of c with
      | Some d => int_digits (10 * acc + d) true l'
      | None =>
          if (Nat.eqb (Ascii.nat_of_ascii c) 95 && prev)%bool
          then match l' with [] => None | _ :: _ => int_digits acc false l' end
          else None
      end
  end.

(** [int(s)] on a string without spaces: an optional sign and a decimal
    numeral, or [ValueError].  (The limit that Python puts on the number of
    digits, 4300 unless configured, is left out: longer numerals raise
    [ValueError] there.) *)
Definition py_int (s : string) : result Z :=
  let numeral (l : list Ascii.ascii) :=
    match int_digits 0 false l with
    | Some n => Ok n
    | None => Raise ValueError
    end in
  match String.list_ascii_of_string s with
  | c :: l =>
      if Nat.eqb (Ascii.nat_of_ascii c) 43 then numeral l
      else if Nat.eqb (Ascii.nat_of_ascii c) 45 then n <- numeral l ;; Ok (- n)
      else numeral (c :: l)
  | [] => Raise ValueError
  end.

(** The loop [while True] over the header lines.  Every pass reads a
    line; [fuel] bounds the number of passes.  At the end of the file
    [readline] returns the empty line for ever, so the loop runs on with
    nothing changed: with more fuel than bytes left, running out of fuel
    means that the loop does not end. *)
Fixpoint parse_header (fuel : nat) (bs : list Byte.byte) (vertex_count : Z)
    (properties : list (string * string))
  : run (result (Z * list (string * string) * list Byte.byte)) :=
  match fuel with
  | O => Hangs
  | S fuel' =>
      let r := readline bs in
      match decode_ascii r.1 with
      | Raise e => Returns (Raise e)
      | Ok text =>
          let line := py_strip text in
          if decide (line = "end_header")
          then Returns (Ok (vertex_count, properties, r.2))
          else if String.prefix "element vertex" line then
            match (p <- parts_item (py_split line) 2 ;; py_int p) with
            | Raise e => Returns (Raise e)
            | Ok n => parse_header fuel' r.2 n properties
            end
          else if String.prefix "property" line then
            match (prop_type <- parts_item (py_split line) 1 ;;
                   prop_name <- parts_item (py_split line) 2 ;;
                   Ok (prop_type, prop_name)) with
            | Raise e => Returns (Raise e)
            | Ok prop => parse_header fuel' r.2 vertex_count (properties ++ [prop])
            end
          else parse_header fuel' r.2 vertex_count properties
      end
  end.

(** Little-endian bytes as an unsigned and as a signed 32-bit integer. *)
Definition le_Z (data : list Byte.byte) : Z :=
  foldr (fun b acc => Z.of_N (Byte.to_N b) + 256 * acc) 0 data.

Definition unpack_B (data : list Byte.byte) : Z := le_Z data.

Definition unpack_i (data : list Byte.byte) : Z :=
  let u := le_Z data in if decide (u < 2 ^ 31) then u else u - 2 ^ 32.

(** [struct.unpack] with the formats ['f'] and ['d'], on 4 and on 8 bytes:
    the value as a Python float. *)
Class Unpack (F : Type) := {
  unpack_f : list Byte.byte -> F;
  unpack_d : list Byte.byte -> F;
}.

(** The number with the bits [bits] in a format with [mant_bits] bits of
    mantissa and [exp_bits] bits of exponent. *)
Definition spec_of_bits (mant_bits exp_bits bits : Z) : spec_float :=
  let m := bits mod 2 ^ mant_bits in
  let e := (bits / 2 ^ mant_bits) mod 2 ^ exp_bits in
  let s := negb ((bits / 2 ^ (mant_bits + exp_bits)) mod 2 =? 0) in
  let bias := 2 ^ (exp_bits - 1) - 1 in
  if e =? 0 then
    if m =? 0 then S754_zero s
    else S754_finite s (Z.to_pos m) (1 - bias - mant_bits)
  else if e =? 2 ^ exp_bits - 1 then
    if m =? 0 then S754_infinity s else S754_nan
  else S754_finite s (Z.to_pos (m + 2 ^ mant_bits)) (e - bias - mant_bits).

#[export] Instance float64_unpack : Unpack float := {|
  unpack_f data := SF2Prim (spec_of_bits 23 8 (le_Z data));
  unpack_d data := SF2Prim (spec_of_bits 52 11 (le_Z data));
|}.

Section Loader.
Context {F : Type} `{Scalar F} `{Literals F} `{Unpack F}.

(** [struct.unpack(fmt, f.read(n))]: fewer than [n] bytes left in the file
    raise [struct.error]. *)
Definition read_exactly (n : nat) (bs : list Byte.byte)
  : result (list Byte.byte * list Byte.byte) :=
  if decide (length (take n bs) = n) then Ok (take n bs, drop n bs)
  else Raise StructError.

(** The [if]/[elif] chain on [prop_type]: the value, and the rest of the
    file. *)
Definition read_value (prop_type : string) (bs : list Byte.byte)
  : result (F * list Byte.byte) :=
  if decide (prop_type = "float") then
    r <- read_exactly 4 bs ;; Ok (unpack_f r.1, r.2)
  else if decide (prop_type = "double") then
    r <- read_exactly 8 bs ;; Ok (unpack_d r.1, r.2)
  else if decide (prop_type = "uchar" \/ prop_type = "uint8") then
    r <- read_exactly 1 bs ;; Ok (float_of_int (unpack_B r.1), r.2)
  else if decide (prop_type = "int" \/ prop_type = "int32") then
    r <- read_exactly 4 bs ;; Ok (float_of_int (unpack_i r.1), r.2)
  else Ok (float_of_int 0, bs).

(** The loop over [properties] for one vertex. *)
Definition read_vertex (properties : list (string * string)) (bs : list Byte.byte)
  : result (vertex_dict F * list Byte.byte) :=
  foldM (fun st prop =>
           r <- read_value prop.1 st.2 ;;
           Ok (<[prop.2 := r.1]> st.1, r.2))
        properties (∅, bs).

(** The loop [for i in range(vertex_count)], [n] passes: how it ended, and
    [self.splats] at that moment. *)
Fixpoint read_vertices (n : nat) (properties : list (string * string))
    (bs : list Byte.byte) (acc : list (splat (F := F)))
  : result unit * list (splat (F := F)) :=
  match n with
  | O => (Ok tt, acc)
  | S n' =>
      match read_vertex properties bs with
      | Raise e => (Raise e, acc)
      | Ok r =>
          read_vertices n' properties r.2
            match _convert_vertex_to_splat r.1 with
            | Some s => acc ++ [s]
            | None => acc
            end
      end
  end.

(** [load_ply_advanced] on a file with the content [file]: how the call
    ended and the generator at that moment, unless it never ends. *)
Definition load_ply_advanced (self : SplatAtlasGenerator (F := F))
    (file : list Byte.byte) : run (result unit * SplatAtlasGenerator (F := F)) :=
  let first := readline file in
  match decode_ascii first.1 with
  | Raise e => Returns (Raise e, self)
  | Ok text =>
      if decide (py_strip text = "ply") then
        match parse_header (S (length first.2)) first.2 0 [] with
        | Hangs => Hangs
        | Returns (Raise e) => Returns (Raise e, self)
        | Returns (Ok (vertex_count, properties, data)) =>
            let r := read_vertices (Z.to_nat vertex_count) properties data
                       (splats self) in
            Returns (r.1, with_splats self r.2)
        end
      else Returns (Raise ValueError, self)
  end.

End Loader.

(** ** Integers written and read back *)

Lemma to_N_byte_of_Z (z : Z) : Z.of_N (Byte.to_N (byte_of_Z z)) = z mod 256.
Proof.
  unfold byte_of_Z. pose proof (Z.mod_pos_bound z 256 ltac:(lia)) as Hz.
  pose proof (Byte.to_of_N_option_map (Z.to_N (z mod 256))) as Hmap.
  destruct (N.leb_spec (Z.to_N (z mod 256)) 255) as [_|Hgt]; [|lia].
  destruct (Byte.of_N (Z.to_N (z mod 256))) as [y|]; [|done].
  cbn [option_map] in Hmap. injection Hmap as Hy.
  change (default Byte.x00 (Some y)) with y. rewrite Hy. lia.
Qed.

Lemma le_Z_le_bytes (n : nat) (v : Z) : le_Z (le_bytes n v) = v mod 256 ^ Z.of_nat n.
Proof.
  revert v. induction n as [|n IH]; intros v.
  - cbn. by rewrite Z.mod_1_r.
  - cbn [le_bytes le_Z foldr]. fold (le_Z (le_bytes n (v / 256))).
    rewrite to_N_byte_of_Z, IH.
    rewrite Nat2Z.inj_succ, Z.pow_succ_r by lia.
    rewrite (Z.rem_mul_r v 256 (256 ^ Z.of_nat n)) by lia. lia.
Qed.

(** X11. The integers that [export_assets] writes with the formats ['I'],
    ['i'] and ['B'] are the ones that the formats of the loader read back
    from these bytes. *)
Theorem X11_packed_integers_read_back (v : Z) (bs : list Byte.byte) :
  (pack_i v = Ok bs -> unpack_i bs = v /\ length bs = 4%nat)
  /\ (pack_I v = Ok bs -> le_Z bs = v /\ length bs = 4%nat)
  /\ (pack_B v = Ok bs -> unpack_B bs = v /\ length bs = 1%nat).
Proof.
  unfold pack_i, pack_I, pack_B, unpack_i, unpack_B.
  split; [|split]; case_decide; try done; intros Heq;
    match type of Heq with Ok ?b = _ => assert (bs = b) as -> by congruence end;
    (split; [|apply length_le_bytes]); rewrite le_Z_le_bytes.
  - change (256 ^ Z.of_nat 4) with (2 ^ 32).
    destruct (decide (0 <= v)) as [Hv|Hv].
    + rewrite Z.mod_small by lia. by rewrite decide_True by lia.
    + replace (v mod 2 ^ 32) with (v + 2 ^ 32).
      * rewrite decide_False by lia. lia.
      * apply (Z.mod_unique_pos _ _ (-1)); lia.
  - change (256 ^ Z.of_nat 4) with (2 ^ 32). apply Z.mod_small. lia.
  - change (256 ^ Z.of_nat 1) with (2 ^ 8). apply Z.mod_small. lia.
Qed.

Lemma X11_witness :
  exists bs, pack_i (-2) = Ok bs /\ unpack_i bs = -2 /\ length bs = 4%nat.
Proof.
  exists (le_bytes 4 (-2)). split; [reflexivity|].
  apply (proj1 (X11_packed_integers_read_back (-2) (le_bytes 4 (-2)))). reflexivity.
Defined.

(** ** Vertex records *)

(** The bytes that a property of type [prop_type] takes in a vertex
    record: a type outside the six names that the loader knows takes
    none. *)
Definition type_size (prop_type : string) : nat :=
  if decide (prop_type = "float") then 4
  else if decide (prop_type = "double") then 8
  else if decide (prop_type = "uchar" \/ prop_type = "uint8") then 1
  else if decide (prop_type = "int" \/ prop_type = "int32") then 4
  else 0.

Definition record_size (properties : list (string * string)) : nat :=
  sum_list (type_size ∘ fst <$> properties).

Lemma record_size_cons (t n : string) (properties : list (string * string)) :
  record_size ((t, n) :: properties) = (type_size t + record_size properties)%nat.
Proof. reflexivity. Qed.

Lemma read_exactly_ok (n : nat) (bs : list Byte.byte) :
  (n <= length bs)%nat -> read_exactly n bs = Ok (take n bs, drop n bs).
Proof. intros Hn. unfold read_exactly. by rewrite decide_True by (rewrite length_take; lia). Qed.

Lemma read_exactly_short (n : nat) (bs : list Byte.byte) :
  (length bs < n)%nat -> read_exactly n bs = Raise StructError.
Proof. intros Hn. unfold read_exactly. by rewrite decide_False by (rewrite length_take; lia). Qed.

Section VertexRecords.
Context {F : Type} `{Scalar F} `{Literals F} `{Unpack F}.

Lemma read_value_ok (prop_type : string) (bs : list Byte.byte) :
  (type_size prop_type <= length bs)%nat ->
  exists v : F, read_value prop_type bs = Ok (v, drop (type_size prop_type) bs).
Proof.
  unfold read_value, type_size. intros Hn.
  repeat case_decide; rewrite ?read_exactly_ok by done; cbn [bind fst snd];
    by eexists.
Qed.

Lemma read_value_short (prop_type : string) (bs : list Byte.byte) :
  (length bs < type_size prop_type)%nat ->
  read_value (F := F) prop_type bs = Raise StructError.
Proof.
  unfold read_value, type_size. intros Hn.
  repeat case_decide; rewrite ?read_exactly_short by done; try done; lia.
Qed.

Lemma read_vertex_go_ok (properties : list (string * string)) :
  forall (vertex_data : vertex_dict F) (bs : list Byte.byte),
    (record_size properties <= length bs)%nat ->
    exists vertex_data' : vertex_dict F,
      foldM (fun st prop =>
               r <- read_value prop.1 st.2 ;;
               Ok (<[prop.2 := r.1]> st.1, r.2))
            properties (vertex_data, bs)
      = Ok (vertex_data', drop (record_size properties) bs)
      /\ forall name, is_Some (vertex_data' !! name)
                      <-> is_Some (vertex_data !! name) \/ name ∈ properties.*2.
Proof.
  induction properties as [|[t n] properties IH]; intros vertex_data bs Hlen.
  - exists vertex_data. split; [done|]. intros name. cbn.
    split; [by left|]. intros [?|Hin]; [done|]. by apply elem_of_nil in Hin.
  - rewrite record_size_cons in Hlen. rewrite record_size_cons.
    cbn [foldM fst snd].
    assert (type_size t <= length bs)%nat as Hfits by lia.
    destruct (read_value_ok t bs Hfits) as [v ->]. cbn [bind fst snd].
    destruct (IH (<[n := v]> vertex_data) (drop (type_size t) bs)) as (vd' & -> & Hdom).
    { rewrite length_drop. lia. }
    exists vd'. split; [by rewrite drop_drop|].
    intros name. rewrite Hdom. cbn. rewrite elem_of_cons.
    destruct (decide (name = n)) as [->|Hne].
    + rewrite lookup_insert_eq. split; [intros _; right; by left|intros _; left; by eexists].
    + rewrite lookup_insert_ne by done.
      split; [intros [?|?]; [by left|right; by right]|].
      intros [?|[?|?]]; [by left|done|by right].
Qed.

Lemma read_vertex_go_short (properties : list (string * string)) :
  forall (vertex_data : vertex_dict F) (bs : list Byte.byte),
    (length bs < record_size properties)%nat ->
    foldM (fun st prop =>
             r <- read_value prop.1 st.2 ;;
             Ok (<[prop.2 := r.1]> st.1, r.2))
          properties (vertex_data, bs)
    = Raise StructError.
Proof.
  induction properties as [|[t n] properties IH]; intros vertex_data bs Hlen.
  - cbn in Hlen. lia.
  - rewrite record_size_cons in Hlen.
    cbn [foldM fst snd].
    destruct (decide (type_size t <= length bs)%nat) as [Hfits|Hshort].
    + destruct (read_value_ok t bs Hfits) as [v ->]. cbn [bind fst snd].
      apply IH. rewrite length_drop. lia.
    + by rewrite read_value_short by lia.
Qed.

End VertexRecords.

(** X12. One vertex takes exactly the bytes of its properties: 4 for
    [float], [int] and [int32], 8 for [double], 1 for [uchar] and [uint8],
    and none for any other type name.  With that many bytes left the vertex
    is read, the file is advanced by them, and the dictionary has exactly the
    property names as keys; with fewer bytes left reading raises
    [struct.error]. *)
Theorem X12_vertex_record_size {F} `{Scalar F} `{Literals F} `{Unpack F}
    (properties : list (string * string)) (bs : list Byte.byte) :
  ((record_size properties <= length bs)%nat ->
   exists vertex_data : vertex_dict F,
     read_vertex properties bs = Ok (vertex_data, drop (record_size properties) bs)
     /\ forall name, is_Some (vertex_data !! name) <-> name ∈ properties.*2)
  /\ ((length bs < record_size properties)%nat ->
      read_vertex (F := F) properties bs = Raise StructError).
Proof.
  split.
  - intros Hlen.
    destruct (read_vertex_go_ok properties ∅ bs Hlen) as (vd & Hr & Hdom).
    exists vd. split; [done|]. intros name. rewrite Hdom, lookup_empty.
    split; [intros [[? ?]|?]; done|by right].
  - apply read_vertex_go_short.
Qed.

Lemma X12_witness :
  let properties := [("float", "x"); ("float32", "y"); ("uchar", "red")] in
  exists vertex_data : vertex_dict float,
    read_vertex properties [Byte.x00; Byte.x00; Byte.x80; Byte.x3f; Byte.xff; Byte.x07]
    = Ok (vertex_data, [Byte.x07])
    /\ read_vertex (F := float) properties [Byte.x00; Byte.x00; Byte.x80; Byte.x3f]
       = Raise StructError.
Proof.
  intros properties.
  destruct (X12_vertex_record_size (F := float) properties
              [Byte.x00; Byte.x00; Byte.x80; Byte.x3f; Byte.xff; Byte.x07])
    as [Hok _].
  destruct Hok as (vertex_data & Hr & _); [vm_compute; lia|].
  exists vertex_data. split; [exact Hr|].
  apply (proj2 (X12_vertex_record_size (F := float) properties
                  [Byte.x00; Byte.x00; Byte.x80; Byte.x3f])).
  vm_compute. lia.
Defined.

Section VertexLoop.
Context {F : Type} `{Scalar F} `{Literals F} `{Unpack F}.

Lemma convert_vertex_atlas (vertex_data : vertex_dict F) (s : splat (F := F)) :
  _convert_vertex_to_splat vertex_data = Some s -> atlas s = None.
Proof.
  unfold _convert_vertex_to_splat.
  destruct (convert_vertex vertex_data) as [s'|e] eqn:Hc; [|done].
  intros [= <-]. unfold convert_vertex in Hc.
  apply bind_ok in Hc as (rgb & _ & Hc). apply bind_ok in Hc as (cov & _ & Hc).
  by injection Hc as <-.
Qed.

End VertexLoop.

(** The splat made from record [i] of the vertex data [bs], the bytes
    from [i] times the record size on; [None] when the record is not whole
    or its vertex is dropped. *)
Definition record_splat {F} `{Scalar F} `{Literals F} `{Unpack F}
    (properties : list (string * string)) (bs : list Byte.byte) (i : nat)
  : option (splat (F := F)) :=
  match read_vertex properties (drop (i * record_size properties) bs) with
  | Ok r => _convert_vertex_to_splat r.1
  | Raise _ => None
  end.

(** The number of vertices, of [n] announced, whose record is whole. *)
Definition whole_records (n : nat) (properties : list (string * string))
    (bs : list Byte.byte) : nat :=
  if decide (record_size properties = 0%nat) then n
  else n `min` (length bs / record_size properties).

Lemma omap_seq_S {A} (f : nat -> option A) (k c : nat) :
  omap f (seq (S k) c) = omap (f ∘ S) (seq k c).
Proof. revert k. induction c as [|c IH]; intros k; cbn; [done|]. by rewrite IH. Qed.

Lemma whole_records_S (n : nat) (properties : list (string * string))
    (bs : list Byte.byte) :
  (record_size properties <= length bs)%nat ->
  whole_records (S n) properties bs
  = S (whole_records n properties (drop (record_size properties) bs)).
Proof.
  intros Hfits. unfold whole_records. case_decide as Hrs; [done|].
  rewrite length_drop.
  replace (length bs / record_size properties)%nat
    with (S ((length bs - record_size properties) / record_size properties)); [lia|].
  replace (length bs) with (length bs - record_size properties
                            + 1 * record_size properties)%nat at 2 by lia.
  rewrite Nat.div_add by done. lia.
Qed.

(** X13. The vertex loop appends to the splats that are already there, in
    file order: after the loop the list is the old one followed by the
    splats made from record 0, record 1, and so on, of the vertex data, for
    the vertices whose record is whole and which are not dropped; these
    splats have no atlas keys.  The loop ends without an exception when the
    file holds all the records that the header announces; when it holds
    fewer, the loop raises [struct.error], and the splats appended so far
    stay in the generator. *)
Theorem X13_vertices_are_appended_in_file_order {F} `{Scalar F} `{Literals F} `{Unpack F}
    (n : nat) (properties : list (string * string)) (bs : list Byte.byte)
    (acc : list (splat (F := F))) :
  (read_vertices n properties bs acc).2
  = acc ++ omap (record_splat properties bs) (seq 0 (whole_records n properties bs))
  /\ Forall (fun s => atlas s = None)
       (omap (record_splat properties bs) (seq 0 (whole_records n properties bs)))
  /\ ((n * record_size properties <= length bs)%nat ->
      (read_vertices n properties bs acc).1 = Ok tt)
  /\ ((length bs < n * record_size properties)%nat ->
      (read_vertices n properties bs acc).1 = Raise StructError).
Proof.
  revert bs acc. induction n as [|n IH]; intros bs acc; cbn [read_vertices].
  - assert (whole_records 0 properties bs = 0%nat) as ->
      by (unfold whole_records; case_decide; lia).
    cbn. rewrite app_nil_r. split; [done|]. split; [constructor|].
    split; [done|lia].
  - destruct (decide (record_size properties <= length bs)%nat) as [Hfits|Hshort].
    + destruct (read_vertex_go_ok properties ∅ bs Hfits) as (vd & Hr & _).
      fold (read_vertex properties bs) in Hr. rewrite Hr. cbn [fst snd].
      set (acc1 := match _convert_vertex_to_splat vd with
                   | Some s => acc ++ [s]
                   | None => acc
                   end).
      destruct (IH (drop (record_size properties) bs) acc1)
        as (Hnew & Hatlas & Hok & Herr).
      rewrite (whole_records_S n properties bs Hfits).
      cbn [seq omap list_omap]. rewrite omap_seq_S.
      assert (record_splat properties bs 0 = _convert_vertex_to_splat vd) as Hfirst.
      { unfold record_splat. cbn [Nat.mul]. by rewrite drop_0, Hr. }
      assert (omap (record_splat properties bs ∘ S)
                (seq 0 (whole_records n properties (drop (record_size properties) bs)))
              = omap (record_splat properties (drop (record_size properties) bs))
                  (seq 0 (whole_records n properties (drop (record_size properties) bs))))
        as Hshift.
      { apply list_omap_ext, Forall_Forall2_diag, Forall_forall. intros i _.
        unfold compose, record_splat. by rewrite drop_drop. }
      rewrite Hfirst, Hshift, Hnew. subst acc1.
      split; [|split; [|split]].
      * destruct (_convert_vertex_to_splat vd) as [s|]; [|done].
        by rewrite <- app_assoc.
      * destruct (_convert_vertex_to_splat vd) as [s|] eqn:Hs; [|done].
        constructor; [by eapply convert_vertex_atlas|done].
      * intros Hall. apply Hok. rewrite length_drop. lia.
      * intros Hless. apply Herr. rewrite length_drop. lia.
    + unfold read_vertex. rewrite read_vertex_go_short by lia. cbn [fst snd].
      assert (whole_records (S n) properties bs = 0%nat) as ->.
      { unfold whole_records. case_decide; [lia|].
        rewrite Nat.div_small by lia. lia. }
      cbn. rewrite app_nil_r. split; [done|]. split; [constructor|].
      split; [lia|done].
Qed.

Lemma X13_witness :
  let properties := [("float", "x"); ("uchar", "opacity")] in
  let bs := [Byte.x00; Byte.x00; Byte.x80; Byte.x3f; Byte.xff;
             Byte.x00; Byte.x00; Byte.x00; Byte.x40; Byte.x01;
             Byte.x00; Byte.x00] in
  (read_vertices (F := float) 2 properties bs []).1 = Ok tt
  /\ (read_vertices (F := float) 3 properties bs []).1 = Raise StructError
  /\ (pos <$> (read_vertices (F := float) 3 properties bs []).2)
     = [(1, 0, 0)%float; (2, 0, 0)%float].
Proof.
  intros properties bs.
  split; [|split].
  - apply (proj1 (proj2 (proj2 (X13_vertices_are_appended_in_file_order
                                  (F := float) 2 properties bs [])))).
    vm_compute. lia.
  - apply (proj2 (proj2 (proj2 (X13_vertices_are_appended_in_file_order
                                  (F := float) 3 properties bs [])))).
    vm_compute. lia.
  - rewrite (proj1 (X13_vertices_are_appended_in_file_order
                      (F := float) 3 properties bs [])).
    vm_compute. reflexivity.
Defined.

(** ** The header loop *)

(** A line with its line feed. *)
Definition terminated (raw : list Byte.byte) : Prop :=
  exists body, raw = body ++ [Byte.x0a] /\ Byte.x0a ∉ body.

Lemma readline_app (bs : list Byte.byte) : (readline bs).1 ++ (readline bs).2 = bs.
Proof.
  induction bs as [|b bs IH]; [done|]. cbn [readline].
  destruct (Byte.eqb b Byte.x0a); cbn [fst snd app]; [done|]. by rewrite IH.
Qed.

Lemma readline_terminated (raw rest : list Byte.byte) :
  terminated raw -> readline (raw ++ rest) = (raw, rest).
Proof.
  intros (body & -> & Hbody). rewrite <- app_assoc.
  change ([Byte.x0a] ++ rest) with (Byte.x0a :: rest).
  induction body as [|b body IH]; [done|].
  apply not_elem_of_cons in Hbody as [Hb Hbody].
  change ((b :: body) ++ Byte.x0a :: rest) with (b :: (body ++ Byte.x0a :: rest)).
  cbn [readline]. destruct (Byte.eqb b Byte.x0a) eqn:Heq.
  - apply Byte.byte_dec_bl in Heq. done.
  - by rewrite (IH Hbody).
Qed.

(** A header line after which the loop goes on: it is not [end_header],
    and when it starts with [element vertex] or [property] it has the
    parts that the loop takes from it. *)
Definition goes_on (raw : list Byte.byte) : Prop :=
  exists text,
    decode_ascii raw = Ok text
    /\ py_strip text <> "end_header"
    /\ (String.prefix "element vertex" (py_strip text) = true ->
        is_ok (p <- parts_item (py_split (py_strip text)) 2 ;; py_int p))
    /\ (String.prefix "element vertex" (py_strip text) = false ->
        String.prefix "property" (py_strip text) = true ->
        (3 <= length (py_split (py_strip text)))%nat).

(** At the end of the file the loop never ends. *)
Lemma parse_header_eof (fuel : nat) (vertex_count : Z)
    (properties : list (string * string)) :
  parse_header fuel [] vertex_count properties = Hangs.
Proof.
  induction fuel as [|fuel IH]; [done|]. cbn [parse_header readline fst snd].
  change (decode_ascii []) with (Ok (A := string) "").
  change (py_strip "") with "". cbv iota.
  destruct (decide ("" = "end_header")) as [Heq|_]; [discriminate Heq|].
  change (String.prefix "element vertex" "") with false.
  change (String.prefix "property" "") with false. cbv iota. exact IH.
Qed.

Lemma parse_header_goes_on (lines : list (list Byte.byte)) :
  Forall terminated lines -> Forall goes_on lines ->
  forall (fuel : nat) (vertex_count : Z) (properties : list (string * string)),
    parse_header fuel (concat lines) vertex_count properties = Hangs.
Proof.
  intros Hterm. induction Hterm as [|raw lines Hraw _ IH];
    intros Hgo fuel vertex_count properties.
  - apply parse_header_eof.
  - apply Forall_cons in Hgo as [(text & Hdec & Hne & Helem & Hprop) Hgo].
    destruct fuel as [|fuel]; [done|].
    cbn [parse_header concat]. rewrite (readline_terminated raw _ Hraw).
    cbn [fst snd]. rewrite Hdec.
    rewrite decide_False by done.
    destruct (String.prefix "element vertex" (py_strip text)) eqn:He.
    + destruct (Helem eq_refl) as [n ->]. by apply IH.
    + destruct (String.prefix "property" (py_strip text)) eqn:Hp; [|by apply IH].
      specialize (Hprop eq_refl eq_refl).
      unfold parts_item.
      destruct (lookup_lt_is_Some_2 (py_split (py_strip text)) 1) as [t ->]; [lia|].
      destruct (lookup_lt_is_Some_2 (py_split (py_strip text)) 2) as [n ->]; [lia|].
      cbn [bind]. by apply IH.
Qed.

(** X14. A file whose first line is [ply] and whose other lines are header
    lines none of which is [end_header] is never loaded: the header loop
    reaches the end of the file and goes on reading empty lines for ever,
    whatever the number of passes allowed. *)
Theorem X14_header_without_end_header_never_returns {F} `{Scalar F} `{Literals F}
    `{Unpack F} (self : SplatAtlasGenerator (F := F))
    (first : list Byte.byte) (lines : list (list Byte.byte)) :
  terminated first ->
  (exists text, decode_ascii first = Ok text /\ py_strip text = "ply") ->
  Forall terminated lines -> Forall goes_on lines ->
  (forall (fuel : nat) (vertex_count : Z) (properties : list (string * string)),
     parse_header fuel (concat lines) vertex_count properties = Hangs)
  /\ load_ply_advanced self (first ++ concat lines) = Hangs.
Proof.
  intros Hfirst (text & Hdec & Hply) Hterm Hgo.
  pose proof (parse_header_goes_on lines Hterm Hgo) as Hhang.
  split; [done|]. unfold load_ply_advanced.
  rewrite (readline_terminated first _ Hfirst). cbn [fst snd].
  rewrite Hdec, decide_True by done. by rewrite Hhang.
Qed.

Definition ply_line : list Byte.byte := [Byte.x70; Byte.x6c; Byte.x79; Byte.x0a].

Definition ascii_line (s : string) : list Byte.byte :=
  String.list_byte_of_string s ++ [Byte.x0a].

Lemma X14_witness :
  load_ply_advanced (f64_generator [] 1024 4 8)
    (ply_line ++ concat [ascii_line "format binary_little_endian 1.0";
                         ascii_line "element vertex 1";
                         ascii_line "property float x"])
  = Hangs.
Proof.
  apply X14_header_without_end_header_never_returns.
  - exists [Byte.x70; Byte.x6c; Byte.x79]. split; [reflexivity|].
    intros Hin. by repeat (apply elem_of_cons in Hin as [Hin|Hin]; [discriminate Hin|]);
      apply elem_of_nil in Hin.
  - exists (String.string_of_list_byte ply_line). split; vm_compute; reflexivity.
  - repeat constructor.
    + eexists. split; [reflexivity|]. vm_compute.
      intros Hin. apply list_elem_of_In in Hin. cbn in Hin.
      repeat (destruct Hin as [Hin|Hin]; [discriminate Hin|]). done.
    + eexists. split; [reflexivity|]. vm_compute.
      intros Hin. apply list_elem_of_In in Hin. cbn in Hin.
      repeat (destruct Hin as [Hin|Hin]; [discriminate Hin|]). done.
    + eexists. split; [reflexivity|]. vm_compute.
      intros Hin. apply list_elem_of_In in Hin. cbn in Hin.
      repeat (destruct Hin as [Hin|Hin]; [discriminate Hin|]). done.
  - repeat constructor.
    + eexists. split; [vm_compute; reflexivity|].
      split; [vm_compute; discriminate|].
      split; [vm_compute; discriminate|vm_compute; discriminate].
    + eexists. split; [vm_compute; reflexivity|].
      split; [vm_compute; discriminate|].
      split; [intros _; vm_compute; by eexists|vm_compute; discriminate].
    + eexists. split; [vm_compute; reflexivity|].
      split; [vm_compute; discriminate|].
      split; [vm_compute; discriminate|intros _ _; vm_compute; lia].
Defined.

(** ** What a load leaves behind *)

(** The header loop returns only at a line [end_header], and allowing
    more passes does not change what it returns. *)
Lemma parse_header_returns (fuel : nat) :
  forall (bs : list Byte.byte) (vertex_count : Z) (properties : list (string * string))
         (vertex_count' : Z) (properties' : list (string * string))
         (rest : list Byte.byte),
    parse_header fuel bs vertex_count properties
    = Returns (Ok (vertex_count', properties', rest)) ->
    exists pre line text,
      bs = pre ++ line ++ rest
      /\ decode_ascii line = Ok text /\ py_strip text = "end_header".
Proof.
  induction fuel as [|fuel IH]; intros bs vc props vc' props' rest; [done|].
  cbn [parse_header]. pose proof (readline_app bs) as Hbs.
  destruct (decode_ascii (readline bs).1) as [text|e] eqn:Hdec; [|done].
  assert (forall vc1 props1,
            parse_header fuel (readline bs).2 vc1 props1
            = Returns (Ok (vc', props', rest)) ->
            exists pre line text0,
              bs = pre ++ line ++ rest
              /\ decode_ascii line = Ok text0 /\ py_strip text0 = "end_header") as Hrec.
  { intros vc1 props1 (pre & line & text0 & Hrest & Hd & Hs)%IH.
    exists ((readline bs).1 ++ pre), line, text0.
    split; [|done]. by rewrite <- app_assoc, <- Hrest. }
  case_decide as Hend.
  - intros [= <- <- <-]. exists [], (readline bs).1, text. by split.
  - destruct (String.prefix "element vertex" (py_strip text)).
    + destruct (bind _ _) as [n|e]; [apply Hrec|done].
    + destruct (String.prefix "property" (py_strip text)); [|apply Hrec].
      destruct (bind _ _) as [prop|e]; [apply Hrec|done].
Qed.

Lemma parse_header_more_fuel (fuel : nat) :
  forall (bs : list Byte.byte) (vertex_count : Z) (properties : list (string * string))
         (r : result (Z * list (string * string) * list Byte.byte)),
    parse_header fuel bs vertex_count properties = Returns r ->
    parse_header (S fuel) bs vertex_count properties = Returns r.
Proof.
  induction fuel as [|fuel IH]; intros bs vc props r; [done|].
  intros Hr. cbn [parse_header] in Hr.
  change (parse_header (S (S fuel)) bs vc props)
    with (let r := readline bs in
          match decode_ascii r.1 with
          | Raise e => Returns (Raise e)
          | Ok text =>
              let line := py_strip text in
              if decide (line = "end_header")
              then Returns (Ok (vc, props, r.2))
              else if String.prefix "element vertex" line then
                match (p <- parts_item (py_split line) 2 ;; py_int p) with
                | Raise e => Returns (Raise e)
                | Ok n => parse_header (S fuel) r.2 n props
                end
              else if String.prefix "property" line then
                match (prop_type <- parts_item (py_split line) 1 ;;
                       prop_name <- parts_item (py_split line) 2 ;;
                       Ok (prop_type, prop_name)) with
                | Raise e => Returns (Raise e)
                | Ok prop => parse_header (S fuel) r.2 vc (props ++ [prop])
                end
              else parse_header (S fuel) r.2 vc props
          end).
  cbv zeta. destruct (decode_ascii (readline bs).1) as [text|e]; [|done].
  case_decide; [done|].
  destruct (String.prefix "element vertex" (py_strip text)).
  - destruct (bind _ _) as [n|e]; [by apply IH|done].
  - destruct (String.prefix "property" (py_strip text)); [|by apply IH].
    destruct (bind _ _) as [prop|e]; [by apply IH|done].
Qed.

Section LoadFacts.
Context {F : Type} `{Scalar F} `{Literals F} `{Unpack F}.

Lemma read_vertices_appends (properties : list (string * string)) (n : nat) :
  forall (bs : list Byte.byte) (acc : list (splat (F := F))),
    exists new, (read_vertices n properties bs acc).2 = acc ++ new
                /\ Forall (fun s => atlas s = None) new.
Proof.
  induction n as [|n IH]; intros bs acc; cbn [read_vertices].
  - exists []. by rewrite app_nil_r.
  - destruct (read_vertex properties bs) as [r|e]; cbn [snd];
      [|exists []; by rewrite app_nil_r].
    destruct (_convert_vertex_to_splat r.1) as [s|] eqn:Hs; [|apply IH].
    destruct (IH r.2 (acc ++ [s])) as (new & -> & Hnew).
    exists (s :: new). rewrite <- app_assoc. split; [done|].
    constructor; [by eapply convert_vertex_atlas|done].
Qed.

End LoadFacts.

(** X15. However a load ends, it keeps the configuration of the generator
    and the splats that were there, and only appends splats without atlas
    keys after them.  A load that ends without an exception was given a file
    that starts with a line [ply] and has a line [end_header]; what follows
    that line is taken as vertex data. *)
Theorem X15_load_appends_and_needs_a_header {F} `{Scalar F} `{Literals F} `{Unpack F}
    (self self' : SplatAtlasGenerator (F := F)) (file : list Byte.byte)
    (r : result unit) :
  load_ply_advanced self file = Returns (r, self') ->
  (exists new, splats self' = splats self ++ new
               /\ Forall (fun s => atlas s = None) new)
  /\ atlas_size self' = atlas_size self
  /\ atlas_layers self' = atlas_layers self
  /\ max_octree_depth self' = max_octree_depth self
  /\ (r = Ok tt ->
      exists first pre line data text0 text,
        file = first ++ pre ++ line ++ data
        /\ decode_ascii first = Ok text0 /\ py_strip text0 = "ply"
        /\ decode_ascii line = Ok text /\ py_strip text = "end_header").
Proof.
  unfold load_ply_advanced. pose proof (readline_app file) as Hfile.
  assert (exists new : list (splat (F := F)),
            splats self = splats self ++ new
            /\ Forall (fun s => atlas s = None) new) as Hsame
    by (exists []; by rewrite app_nil_r).
  destruct (decode_ascii (readline file).1) as [text0|e] eqn:Hdec;
    [|intros [= <- <-]; by repeat (split; [done|])].
  case_decide as Hply; [|intros [= <- <-]; by repeat (split; [done|])].
  destruct (parse_header _ _ _ _) as [[[[vc props] data]|e]|] eqn:Hhead;
    [|intros [= <- <-]; by repeat (split; [done|])|done].
  intros [= <- <-]. cbn [splats with_splats atlas_size atlas_layers max_octree_depth].
  split; [apply read_vertices_appends|]. repeat (split; [done|]).
  intros _. apply parse_header_returns in Hhead as (pre & line & text & Hrest & Hd & Hs).
  exists (readline file).1, pre, line, data, text0, text.
  split; [by rewrite <- Hrest|done].
Qed.

Lemma X15_witness :
  let file := ply_line ++ ascii_line "element vertex 1"
              ++ ascii_line "property float x" ++ ascii_line "end_header"
              ++ [Byte.x00; Byte.x00; Byte.x80; Byte.x3f] in
  exists self',
    load_ply_advanced (f64_generator [f64_splat 0 0 0 0.5] 1024 4 8) file
    = Returns (Ok tt, self')
    /\ (exists new, splats self' = [f64_splat 0 0 0 0.5] ++ new
                    /\ Forall (fun s => atlas s = None) new)
    /\ atlas_size self' = 1024.
Proof.
  intros file.
  destruct (load_ply_advanced (f64_generator [f64_splat 0 0 0 0.5] 1024 4 8) file)
    as [[[[]|e] self']|] eqn:Hload;
    [|vm_compute in Hload; discriminate..].
  exists self'. split; [reflexivity|].
  destruct (X15_load_appends_and_needs_a_header _ self' file (Ok tt) Hload)
    as (Hnew & Hsize & _).
  split; [exact Hnew|exact Hsize].
Defined.

(** The number of passes that [load_ply_advanced] allows, one more than
    the bytes after the first line, is enough: with any larger number the
    header loop ends in the same way. *)
Lemma readline_shorter (b : Byte.byte) (bs : list Byte.byte) :
  (length (readline (b :: bs)).2 <= length bs)%nat.
Proof.
  revert b. induction bs as [|b' bs IH]; intros b; cbn [readline].
  - destruct (Byte.eqb b Byte.x0a); cbn; lia.
  - destruct (Byte.eqb b Byte.x0a); cbn [fst snd length]; [lia|].
    specialize (IH b'). cbn [readline] in IH. lia.
Qed.

Lemma parse_header_fuel (fuel : nat) :
  forall (fuel' : nat) (bs : list Byte.byte) (vertex_count : Z)
         (properties : list (string * string)),
    (length bs < fuel)%nat -> (length bs < fuel')%nat ->
    parse_header fuel bs vertex_count properties
    = parse_header fuel' bs vertex_count properties.
Proof.
  induction fuel as [|fuel IH]; intros fuel' bs vc props Hf Hf'; [lia|].
  destruct fuel' as [|fuel']; [lia|].
  destruct bs as [|b bs]; [by rewrite !parse_header_eof|].
  pose proof (readline_shorter b bs) as Hshort. cbn [length] in Hf, Hf'.
  cbn [parse_header].
  destruct (decode_ascii (readline (b :: bs)).1) as [text|e]; [|done].
  case_decide; [done|].
  destruct (String.prefix "element vertex" (py_strip text)).
  - destruct (bind _ _) as [n|e]; [apply IH; lia|done].
  - destruct (String.prefix "property" (py_strip text)); [|apply IH; lia].
    destruct (bind _ _) as [prop|e]; [apply IH; lia|done].
Qed.

(** ** The command line tool *)

Section Main.
Context {F : Type} `{Scalar F} `{Literals F} `{Unpack F} `{Pack32 F}.
Variable math_exp : F -> F.

(** [main] with the parsed arguments [--atlas-size], [--atlas-layers] and
    [--octree-depth], the content [file] of the input file and the output
    directory [fs]: how the run ended and the output directory at that
    moment, unless the run never ends. *)
Definition main (size layers depth : Z) (file : list Byte.byte) (fs : filesystem)
  : run (result unit * filesystem) :=
  let generator :=
    {| splats := []; atlas_size := size; atlas_layers := layers;
       octree_size := 512; max_octree_depth := depth |} in
  match load_ply_advanced generator file with
  | Hangs => Hangs
  | Returns (Raise e, _) => Returns (Raise e, fs)
  | Returns (Ok _, generator') =>
      let r := export_assets math_exp generator' fs in
      Returns (match r.1 with Ok _ => Ok tt | Raise e => Raise e end, r.2)
  end.

End Main.

(** X16. A PLY file that is loaded without an exception but yields no
    splat (its header announces no vertex, or every vertex is dropped) is
    not refused by the tool: with an atlas size that is not negative the run
    ends without an exception and leaves the files of an empty scene, blank
    atlas layers, an eight-byte [scene.splat] and the metadata, and no
    [octree.idx]. *)
Theorem X16_file_without_splats_is_exported {F} `{Scalar F} `{Literals F}
    `{Unpack F} `{Pack32 F} (math_exp : F -> F) (size layers depth : Z)
    (file : list Byte.byte) (fs : filesystem)
    (generator' : SplatAtlasGenerator (F := F)) :
  load_ply_advanced
    {| splats := []; atlas_size := size; atlas_layers := layers;
       octree_size := 512; max_octree_depth := depth |} file
  = Returns (Ok tt, generator') ->
  splats generator' = [] -> 0 <= size ->
  exists fs',
    main math_exp size layers depth file fs = Returns (Ok tt, fs')
    /\ (forall i : nat, (i < Z.to_nat layers)%nat ->
          fs' !! atlas_name i = Some (zero_atlas_bytes size))
    /\ fs' !! "scene.splat" = Some (le_bytes 4 0 ++ le_bytes 4 SPLT_magic)
    /\ is_Some (fs' !! "metadata.json")
    /\ fs' !! "octree.idx" = fs !! "octree.idx".
Proof.
  intros Hload Hnone Hsize. unfold main. rewrite Hload.
  assert (atlas_size generator' = size /\ atlas_layers generator' = layers) as [Hs Hl].
  { unfold load_ply_advanced in Hload.
    destruct (decode_ascii _) as [text|e]; [|discriminate Hload].
    case_decide; [|discriminate Hload].
    destruct (parse_header _ _ _ _) as [[[[vc props] data]|e]|];
      [|discriminate Hload..].
    by injection Hload as _ <-. }
  rewrite export_assets_empty by (done || lia). cbn [fst snd].
  eexists. split; [reflexivity|].
  destruct (empty_export_files generator' fs) as (Hatlas & Hscene & Hmeta & Hoct).
  rewrite Hs, Hl in *. split; [done|]. split; [done|]. split; [by eexists|done].
Qed.

Lemma X16_witness :
  let file := ply_line ++ ascii_line "element vertex 0" ++ ascii_line "end_header" in
  exists fs',
    main (fun _ => 1%float) 2 1 8 file ∅ = Returns (Ok tt, fs')
    /\ fs' !! "scene.splat" = Some (le_bytes 4 0 ++ le_bytes 4 SPLT_magic)
    /\ fs' !! "octree.idx" = None.
Proof.
  intros file.
  destruct (X16_file_without_splats_is_exported (fun _ => 1%float) 2 1 8 file ∅
              (f64_generator [] 2 1 8))
    as (fs' & Hmain & _ & Hscene & _ & Hoct).
  - vm_compute. reflexivity.
  - reflexivity.
  - lia.
  - exists fs'. split; [exact Hmain|]. split; [exact Hscene|exact Hoct].
Defined.

(** * The memory card image *)

(** The fields of [PS2ImageBuilder] set by [__init__]. *)
Record PS2ImageBuilder := {
  sector_size : Z;
  max_filename_length : Z;
}.

(** The builder as [__init__] makes it. *)
Definition default_builder : PS2ImageBuilder :=
  {| sector_size := 2048; max_filename_length := 32 |}.

(** The list [files_to_pack]: the name of each file in the image, and the
    content of the file at its path, which gives [stat().st_size] and what
    [read()] returns. *)
Definition pack_list : Type := list (string * list Byte.byte).

Section ImageBuilder.
Variable self : PS2ImageBuilder.

(** [((size + sector_size - 1) // sector_size) * sector_size]. *)
Definition pad_to_sector (size : Z) : result Z :=
  q <- py_floordiv (size + sector_size self - 1) (sector_size self) ;;
  Ok (q * sector_size self).

Definition _get_padded_size (data : list Byte.byte) : result Z :=
  pad_to_sector (Z.of_nat (length data)).

Definition _get_directory_size (files_to_pack : pack_list) : result Z :=
  let header_size := 8 in
  let entry_size := max_filename_length self + 12 in
  let total_size := header_size + Z.of_nat (length files_to_pack) * entry_size in
  pad_to_sector total_size.

(** [(sector_size - (n % sector_size)) % sector_size]. *)
Definition sector_padding (n : Z) : result Z :=
  r <- py_mod n (sector_size self) ;;
  py_mod (sector_size self - r) (sector_size self).

(** [if padding > 0: ps2_file.write(b'\x00' * padding)]. *)
Definition padding_writer (n : Z) : writer :=
  match sector_padding n with
  | Ok padding =>
      if decide (0 < padding) then w_write (Ok (replicate (Z.to_nat padding) Byte.x00))
      else ([], Ok tt)
  | Raise e => ([], Raise e)
  end.

(** [name.encode('ascii')]: a character above 127 raises
    [UnicodeEncodeError], which is a [ValueError]. *)
Definition encode_ascii (name : string) : result (list Byte.byte) :=
  let bytes := String.list_byte_of_string name in
  if forallb (fun b => (Byte.to_N b <? 128)%N) bytes then Ok bytes
  else Raise ValueError.

(** [bs[:k]] and [bs.ljust(width, b'\x00')]. *)
Definition slice_to (bs : list Byte.byte) (k : Z) : list Byte.byte :=
  if decide (0 <= k) then take (Z.to_nat k) bs
  else take (Z.to_nat (Z.of_nat (length bs) + k)) bs.

Definition ljust (bs : list Byte.byte) (width : Z) : list Byte.byte :=
  bs ++ replicate (Z.to_nat (width - Z.of_nat (length bs))) Byte.x00.

(** The name field of a directory entry. *)
Definition name_field (name : string) : result (list Byte.byte) :=
  name_bytes <- encode_ascii name ;;
  Ok (ljust (slice_to name_bytes (max_filename_length self - 1))
            (max_filename_length self)).

(** The loop over the entries in [_write_directory_header];
    [current_offset] is the offset of the data of the first file of
    [files_to_pack]. *)
Fixpoint entries_writer (files_to_pack : pack_list) (current_offset : Z) : writer :=
  match files_to_pack with
  | [] => ([], Ok tt)
  | (name, data) :: files' =>
      w_seq (w_write (name_field name))
        (w_seq (w_write (pack_I current_offset))
           (w_seq (w_write (pack_I (Z.of_nat (length data))))
              (w_seq (w_write (pack_I 0))
                 match _get_padded_size data with
                 | Ok padded => entries_writer files' (current_offset + padded)
                 | Raise e => ([], Raise e)
                 end)))
  end.

Definition PS2D_magic : list Byte.byte := [Byte.x50; Byte.x53; Byte.x32; Byte.x44].

(** [_write_directory_header]; [ps2_file.tell()] is the number of bytes
    written so far, the header being the first thing written to the file. *)
Definition _write_directory_header (files_to_pack : pack_list) : writer :=
  let entries :=
    w_seq (w_write (Ok PS2D_magic))
      (w_seq (w_write (pack_I (Z.of_nat (length files_to_pack))))
         match _get_directory_size files_to_pack with
         | Ok current_offset => entries_writer files_to_pack current_offset
         | Raise e => ([], Raise e)
         end) in
  w_seq entries (padding_writer (Z.of_nat (length entries.1))).

(** The loop over the files in [_write_ps2_image]. *)
Fixpoint data_writer (files_to_pack : pack_list) : writer :=
  match files_to_pack with
  | [] => ([], Ok tt)
  | (name, data) :: files' =>
      w_seq (w_write (Ok data))
        (w_seq (padding_writer (Z.of_nat (length data)))
           match _get_padded_size data with
           | Ok _ => data_writer files'
           | Raise e => ([], Raise e)
           end)
  end.

(** [_write_ps2_image]: what is written to the image file, and how the
    call ended. *)
Definition _write_ps2_image (files_to_pack : pack_list) : writer :=
  w_seq (_write_directory_header files_to_pack)
    match _get_directory_size files_to_pack with
    | Ok _ => data_writer files_to_pack
    | Raise e => ([], Raise e)
    end.

(** [expected_size] in [_verify_ps2_image]. *)
Definition expected_size (files_to_pack : pack_list) : result Z :=
  directory <- _get_directory_size files_to_pack ;;
  sizes <- mapM (fun f => _get_padded_size f.2) files_to_pack ;;
  Ok (directory + foldr Z.add 0 sizes).

(** The two checks of [_verify_ps2_image] on an image of [image_size]
    bytes: whether the size is the expected one, and whether the image fits
    on a card of 8 MB. *)
Definition _verify_ps2_image (image_size : Z) (files_to_pack : pack_list)
  : result (bool * bool) :=
  expected <- expected_size files_to_pack ;;
  Ok (bool_decide (image_size = expected),
      bool_decide (image_size <= 8 * 1024 * 1024)).

End ImageBuilder.

(** ** Sizes and offsets in the image *)

Section ImageFacts.
Variable self : PS2ImageBuilder.
Hypothesis sector_pos : 0 < sector_size self.

(** The zero bytes that follow [n] bytes up to the next sector boundary. *)
Definition pad_Z (n : Z) : Z := (sector_size self - n mod sector_size self) mod sector_size self.

(** A file in the image: its content and the padding. *)
Definition chunk (data : list Byte.byte) : list Byte.byte :=
  data ++ replicate (Z.to_nat (pad_Z (Z.of_nat (length data)))) Byte.x00.

Lemma pad_Z_range (n : Z) : 0 <= pad_Z n < sector_size self.
Proof. unfold pad_Z. apply Z.mod_pos_bound. lia. Qed.

Lemma padded_aligned (n : Z) : (n + pad_Z n) mod sector_size self = 0.
Proof.
  unfold pad_Z. rewrite Zplus_mod_idemp_r.
  replace (n + (sector_size self - n mod sector_size self))
    with (n - n mod sector_size self + 1 * sector_size self) by lia.
  rewrite Z.mod_add by lia. rewrite Zminus_mod_idemp_r.
  rewrite Z.sub_diag. apply Z.mod_0_l. lia.
Qed.

Lemma sector_padding_ok (n : Z) : sector_padding self n = Ok (pad_Z n).
Proof.
  unfold sector_padding, py_mod. rewrite decide_False by lia. cbn [bind].
  by rewrite decide_False by lia.
Qed.

Lemma pad_to_sector_ok (n : Z) : pad_to_sector self n = Ok (n + pad_Z n).
Proof.
  unfold pad_to_sector, py_floordiv. rewrite decide_False by lia. cbn [bind].
  f_equal. pose proof (pad_Z_range n) as Hpad. pose proof (padded_aligned n) as Hal.
  apply Z.mod_divide in Hal as [q Hq]; [|lia]. rewrite Hq.
  f_equal. symmetry. apply (Z.div_unique _ _ _ (sector_size self - 1 - pad_Z n)); lia.
Qed.

Lemma padding_writer_ok (n : Z) :
  padding_writer self n = (replicate (Z.to_nat (pad_Z n)) Byte.x00, Ok tt).
Proof.
  unfold padding_writer. rewrite sector_padding_ok.
  case_decide as Hp; [done|].
  pose proof (pad_Z_range n). by replace (pad_Z n) with 0 by lia.
Qed.

Lemma length_chunk (data : list Byte.byte) :
  Z.of_nat (length (chunk data)) = Z.of_nat (length data) + pad_Z (Z.of_nat (length data)).
Proof.
  unfold chunk. rewrite length_app, length_replicate.
  pose proof (pad_Z_range (Z.of_nat (length data))). lia.
Qed.

Lemma get_padded_size_ok (data : list Byte.byte) :
  _get_padded_size self data = Ok (Z.of_nat (length (chunk data))).
Proof. unfold _get_padded_size. by rewrite pad_to_sector_ok, length_chunk. Qed.

(** The data part of the image is written without an exception: the
    files in list order, each padded to a sector boundary. *)
Lemma data_writer_ok (files_to_pack : pack_list) :
  data_writer self files_to_pack = (concat (chunk <$> files_to_pack.*2), Ok tt).
Proof.
  induction files_to_pack as [|[name data] files IH]; [done|].
  cbn [data_writer fmap list_fmap concat snd].
  rewrite padding_writer_ok, get_padded_size_ok, IH.
  unfold w_seq, w_write. cbn [fst snd]. unfold chunk. by rewrite <- app_assoc.
Qed.

Lemma expected_size_ok (files_to_pack : pack_list) :
  expected_size self files_to_pack
  = Ok (8 + Z.of_nat (length files_to_pack) * (max_filename_length self + 12)
        + pad_Z (8 + Z.of_nat (length files_to_pack) * (max_filename_length self + 12))
        + Z.of_nat (length (concat (chunk <$> files_to_pack.*2)))).
Proof.
  unfold expected_size, _get_directory_size. rewrite pad_to_sector_ok. cbn [bind].
  rewrite (mapM_ok _ (fun f => Z.of_nat (length (chunk f.2))))
    by (intros; apply get_padded_size_ok).
  cbn [bind]. do 2 f_equal.
  induction files_to_pack as [|[name data] files IH]; [done|].
  cbn [fmap list_fmap foldr concat snd]. rewrite length_app, IH. lia.
Qed.

Lemma concat_chunks_aligned (datas : list (list Byte.byte)) :
  Z.of_nat (length (concat (chunk <$> datas))) mod sector_size self = 0.
Proof.
  induction datas as [|data datas IH]; [by apply Z.mod_0_l; lia|].
  cbn [fmap list_fmap concat]. rewrite length_app, Nat2Z.inj_add, length_chunk.
  rewrite Z.add_mod, padded_aligned, IH by lia. apply Z.mod_0_l. lia.
Qed.

End ImageFacts.

Section ImageLayout.
Variable self : PS2ImageBuilder.
Hypothesis sector_pos : 0 < sector_size self.
Hypothesis name_pos : 1 <= max_filename_length self.

(** The bytes of one directory entry. *)
Definition entry_size : nat := Z.to_nat (max_filename_length self + 12).

(** The size of the directory, and the offset of the data of file [i]. *)
Definition directory_size (files_to_pack : pack_list) : Z :=
  let total := 8 + Z.of_nat (length files_to_pack) * (max_filename_length self + 12) in
  total + pad_Z self total.

Definition data_offset (files_to_pack : pack_list) (start : Z) (i : nat) : Z :=
  start + Z.of_nat (length (concat (chunk self <$> (take i files_to_pack).*2))).

Lemma get_directory_size_ok (files_to_pack : pack_list) :
  _get_directory_size self files_to_pack = Ok (directory_size files_to_pack).
Proof. unfold _get_directory_size. by rewrite pad_to_sector_ok. Qed.

(** The name field: the first bytes of the name, at most one fewer than
    the width of the field, and zero bytes up to the width. *)
Lemma name_field_inv (name : string) (field : list Byte.byte) :
  name_field self name = Ok field ->
  encode_ascii name = Ok (String.list_byte_of_string name)
  /\ field
     = take (Z.to_nat (max_filename_length self - 1)) (String.list_byte_of_string name)
       ++ replicate
            (Z.to_nat (max_filename_length self)
             - length (take (Z.to_nat (max_filename_length self - 1))
                         (String.list_byte_of_string name))) Byte.x00
  /\ length field = Z.to_nat (max_filename_length self).
Proof.
  unfold name_field. intros Hf. apply bind_ok in Hf as (bytes & Henc & Hf).
  assert (bytes = String.list_byte_of_string name) as ->.
  { unfold encode_ascii in Henc. by destruct (forallb _ _); simplify_eq. }
  split; [done|]. injection Hf as <-. unfold ljust, slice_to.
  rewrite decide_True by lia.
  set (cut := take _ _).
  assert (length cut <= Z.to_nat (max_filename_length self - 1))%nat
    by (subst cut; rewrite length_take; lia).
  replace (Z.to_nat (max_filename_length self - Z.of_nat (length cut)))
    with (Z.to_nat (max_filename_length self) - length cut)%nat by lia.
  split; [done|]. rewrite length_app, length_replicate. lia.
Qed.

Lemma entries_writer_inv (files_to_pack : pack_list) :
  forall (start : Z) (bs : list Byte.byte),
    entries_writer self files_to_pack start = (bs, Ok tt) ->
    length bs = (length files_to_pack * entry_size)%nat
    /\ forall (i : nat) (name : string) (data : list Byte.byte),
         files_to_pack !! i = Some (name, data) ->
         exists field,
           name_field self name = Ok field
           /\ 0 <= data_offset files_to_pack start i < 2 ^ 32
           /\ take entry_size (drop (i * entry_size) bs)
              = field ++ le_bytes 4 (data_offset files_to_pack start i)
                ++ le_bytes 4 (Z.of_nat (length data)) ++ le_bytes 4 0.
Proof.
  induction files_to_pack as [|[name0 data0] files IH]; intros start bs.
  - cbn. intros [= <-]. split; [done|]. intros i name data Hi. by destruct i.
  - cbn [entries_writer]. rewrite (get_padded_size_ok self sector_pos).
    intros (field & r1 & Hfield%w_write_inv & Hw & ->)%w_seq_inv.
    apply w_seq_inv in Hw as (off & r2 & Hoff%w_write_inv & Hw & ->).
    apply w_seq_inv in Hw as (size & r3 & Hsize%w_write_inv & Hw & ->).
    apply w_seq_inv in Hw as (flags & rest & Hflags%w_write_inv & Hw & ->).
    apply IH in Hw as [Hlen Hentries].
    pose proof (name_field_inv _ _ Hfield) as (_ & _ & Hlf).
    assert (0 <= start < 2 ^ 32 /\ off = le_bytes 4 start) as [Hstart ->]
      by (unfold pack_I in Hoff; case_decide; by simplify_eq).
    assert (size = le_bytes 4 (Z.of_nat (length data0))) as ->
      by (unfold pack_I in Hsize; case_decide; by simplify_eq).
    assert (flags = le_bytes 4 0) as ->
      by (unfold pack_I in Hflags; case_decide; by simplify_eq).
    set (entry := field ++ le_bytes 4 start ++ le_bytes 4 (Z.of_nat (length data0))
                  ++ le_bytes 4 0).
    assert (length entry = entry_size) as Hentry.
    { subst entry. rewrite !length_app, !length_le_bytes, Hlf. unfold entry_size. lia. }
    assert (field ++ le_bytes 4 start ++ le_bytes 4 (Z.of_nat (length data0))
              ++ le_bytes 4 0 ++ rest = entry ++ rest) as ->
      by (subst entry; by rewrite <- !app_assoc).
    split.
    + rewrite length_app, Hlen, Hentry. cbn [length]. lia.
    + intros i name data Hi. destruct i as [|i].
      * injection Hi as -> ->. exists field. split; [done|].
        unfold data_offset. cbn [take fmap list_fmap concat length].
        rewrite Z.add_0_r. split; [done|].
        rewrite Nat.mul_0_l, drop_0. by rewrite (take_app_length' entry rest entry_size (eq_sym Hentry)).
      * cbn in Hi. destruct (Hentries i name data Hi) as (field' & Hf' & Hrange & Hslice).
        exists field'. split; [done|].
        assert (data_offset ((name0, data0) :: files) start (S i)
                = data_offset files (start + Z.of_nat (length (chunk self data0))) i) as ->.
        { unfold data_offset. cbn [take fmap list_fmap concat snd].
          rewrite length_app. lia. }
        split; [done|].
        replace (S i * entry_size)%nat with (entry_size + i * entry_size)%nat by lia.
        by rewrite (drop_app_add' entry rest entry_size (i * entry_size) (eq_sym Hentry)).
Qed.

(** The parts of an image that was written in full. *)
Lemma write_ps2_image_inv (files_to_pack : pack_list) (image : list Byte.byte) :
  _write_ps2_image self files_to_pack = (image, Ok tt) ->
  exists entries : list Byte.byte,
    0 <= Z.of_nat (length files_to_pack) < 2 ^ 32
    /\ entries_writer self files_to_pack (directory_size files_to_pack) = (entries, Ok tt)
    /\ image
       = (PS2D_magic ++ le_bytes 4 (Z.of_nat (length files_to_pack)) ++ entries)
         ++ replicate
              (Z.to_nat (pad_Z self
                 (8 + Z.of_nat (length files_to_pack) * (max_filename_length self + 12))))
              Byte.x00
         ++ concat (chunk self <$> files_to_pack.*2).
Proof.
  unfold _write_ps2_image, _write_directory_header.
  rewrite get_directory_size_ok, (data_writer_ok self sector_pos).
  intros (header & datas & Hheader & [= <-] & ->)%w_seq_inv.
  apply w_seq_inv in Hheader as (body & padding & Hbody & Hpad & ->).
  rewrite Hbody in Hpad. cbn [fst] in Hpad.
  rewrite (padding_writer_ok self sector_pos) in Hpad. injection Hpad as <-.
  apply w_seq_inv in Hbody as (magic & r1 & [= <-] & Hbody & ->).
  apply w_seq_inv in Hbody as (count & entries & Hcount%w_write_inv & Hentries & ->).
  assert (0 <= Z.of_nat (length files_to_pack) < 2 ^ 32
          /\ count = le_bytes 4 (Z.of_nat (length files_to_pack))) as [Hn ->]
    by (unfold pack_I in Hcount; case_decide; by simplify_eq).
  exists entries. split; [done|]. split; [done|].
  pose proof (entries_writer_inv _ _ _ Hentries) as [Hlen _].
  rewrite <- app_assoc. do 2 f_equal.
  rewrite !length_app, length_le_bytes, Hlen. unfold entry_size. cbn [length PS2D_magic].
  repeat f_equal. lia.
Qed.

End ImageLayout.

(** X17. With a positive sector size and a name field of at least one
    byte, an image that was written in full has exactly the size that
    [_verify_ps2_image] expects, the padded directory plus the padded files,
    so the size check cannot fail; the size is a whole number of sectors. *)
Theorem X17_image_size_passes_verification (self : PS2ImageBuilder)
    (files_to_pack : pack_list) (image : list Byte.byte) :
  0 < sector_size self -> 1 <= max_filename_length self ->
  _write_ps2_image self files_to_pack = (image, Ok tt) ->
  _verify_ps2_image self (Z.of_nat (length image)) files_to_pack
  = Ok (true, bool_decide (Z.of_nat (length image) <= 8 * 1024 * 1024))
  /\ Z.of_nat (length image) mod sector_size self = 0.
Proof.
  intros Hss Hname (entries & Hn & Hentries & Himage)%write_ps2_image_inv; [|done..].
  pose proof (entries_writer_inv self Hss Hname _ _ _ Hentries) as [Hlen _].
  set (total := 8 + Z.of_nat (length files_to_pack) * (max_filename_length self + 12))
    in *.
  pose proof (pad_Z_range self Hss total) as Hpad.
  assert (Z.of_nat (length image)
          = total + pad_Z self total
            + Z.of_nat (length (concat (chunk self <$> files_to_pack.*2)))) as ->.
  { rewrite Himage, !length_app, length_replicate, length_le_bytes, Hlen.
    unfold entry_size. subst total. cbn [length PS2D_magic]. nia. }
  split.
  - unfold _verify_ps2_image. rewrite (expected_size_ok self Hss). cbn [bind].
    fold total. by rewrite bool_decide_eq_true_2 by done.
  - rewrite Z.add_mod, (padded_aligned self Hss),
      (concat_chunks_aligned self Hss) by lia.
    apply Z.mod_0_l. lia.
Qed.

Lemma X17_witness :
  let files_to_pack : pack_list := [("A", [Byte.x01; Byte.x02]); ("B", [])] in
  exists image,
    _write_ps2_image default_builder files_to_pack = (image, Ok tt)
    /\ _verify_ps2_image default_builder (Z.of_nat (length image)) files_to_pack
       = Ok (true, true)
    /\ length image = 4096%nat.
Proof.
  intros files_to_pack.
  destruct (_write_ps2_image default_builder files_to_pack) as [image [[]|e]] eqn:Hw;
    [|vm_compute in Hw; discriminate].
  exists image. split; [reflexivity|].
  assert (length image = 4096%nat) as Hlen
    by (vm_compute in Hw; injection Hw as <-; reflexivity).
  destruct (X17_image_size_passes_verification default_builder files_to_pack image)
    as [Hverify _]; [reflexivity|discriminate|exact Hw|].
  split; [|exact Hlen]. rewrite Hverify. f_equal. f_equal.
  rewrite Hlen. reflexivity.
Defined.

(** The bytes of a field up to its first zero byte: the name as a reader
    of the directory takes it. *)
Fixpoint c_string (bs : list Byte.byte) : list Byte.byte :=
  match bs with
  | [] => []
  | b :: bs' => if Byte.eqb b Byte.x00 then [] else b :: c_string bs'
  end.

Lemma c_string_take (k m : nat) (bs : list Byte.byte) :
  c_string (take k bs ++ replicate (S m) Byte.x00) = take k (c_string bs).
Proof.
  revert k. induction bs as [|b bs IH]; intros k.
  - by destruct k.
  - destruct k as [|k]; [done|]. cbn [take app c_string].
    destruct (Byte.eqb b Byte.x00); [done|]. cbn [take]. by rewrite IH.
Qed.

Lemma take_drop_app_le {A} (n m : nat) (l k : list A) :
  (m + n <= length l)%nat -> take n (drop m (l ++ k)) = take n (drop m l).
Proof.
  intros Hlen. rewrite drop_app_le by lia.
  apply take_app_le. rewrite length_drop. lia.
Qed.

(** X18. In an image that was written in full, the directory starts with
    the magic [PS2D] and the number of files, and entry [i], at offset 8 plus
    [i] times the entry size, holds the name field, the offset, the size and
    a zero flag word of file [i].  The offset is a sector boundary, and the
    bytes of the image from that offset on are the content of the file. *)
Theorem X18_directory_entries_point_at_the_files (self : PS2ImageBuilder)
    (files_to_pack : pack_list) (image : list Byte.byte) :
  0 < sector_size self -> 1 <= max_filename_length self ->
  _write_ps2_image self files_to_pack = (image, Ok tt) ->
  take 4 image = PS2D_magic
  /\ take 4 (drop 4 image) = le_bytes 4 (Z.of_nat (length files_to_pack))
  /\ forall (i : nat) (name : string) (data : list Byte.byte),
       files_to_pack !! i = Some (name, data) ->
       exists (field : list Byte.byte) (offset : Z),
         name_field self name = Ok field
         /\ 0 <= offset < 2 ^ 32 /\ offset mod sector_size self = 0
         /\ take (entry_size self) (drop (8 + i * entry_size self) image)
            = field ++ le_bytes 4 offset ++ le_bytes 4 (Z.of_nat (length data))
              ++ le_bytes 4 0
         /\ take (length data) (drop (Z.to_nat offset) image) = data.
Proof.
  intros Hss Hname (entries & Hn & Hentries & ->)%write_ps2_image_inv; [|done..].
  pose proof (entries_writer_inv self Hss Hname _ _ _ Hentries) as [Hlen Hentry].
  set (total := 8 + Z.of_nat (length files_to_pack) * (max_filename_length self + 12)).
  pose proof (pad_Z_range self Hss total) as Hpad.
  split; [done|]. split.
  { rewrite <- !app_assoc. change (PS2D_magic ++ ?l) with ([Byte.x50; Byte.x53; Byte.x32; Byte.x44] ++ l).
    rewrite (drop_app_length' _ _ 4) by done.
    by rewrite take_app_length' by (by rewrite length_le_bytes). }
  intros i name data Hi.
  destruct (Hentry i name data Hi) as (field & Hfield & Hrange & Hslice).
  exists field, (data_offset self files_to_pack (directory_size self files_to_pack) i).
  split; [done|]. split; [done|].
  pose proof (lookup_lt_Some _ _ _ Hi) as Hilt.
  split; [|split].
  - unfold data_offset, directory_size. fold total.
    rewrite Z.add_mod, (padded_aligned self Hss), (concat_chunks_aligned self Hss) by lia.
    apply Z.mod_0_l. lia.
  - rewrite <- Hslice. rewrite <- !app_assoc.
    change (PS2D_magic ++ ?l) with ([Byte.x50; Byte.x53; Byte.x32; Byte.x44] ++ l).
    replace (8 + i * entry_size self)%nat with (4 + (4 + i * entry_size self))%nat by lia.
    rewrite (drop_app_add' _ _ 4) by done.
    rewrite (drop_app_add' _ _ 4) by (by rewrite length_le_bytes).
    apply take_drop_app_le. rewrite Hlen.
    assert (S i * entry_size self <= length files_to_pack * entry_size self)%nat
      by (apply Nat.mul_le_mono_r; lia).
    lia.
  - rewrite (app_assoc _ (replicate _ _)).
    assert (length ((PS2D_magic ++ le_bytes 4 (Z.of_nat (length files_to_pack)) ++ entries)
                    ++ replicate (Z.to_nat (pad_Z self total)) Byte.x00)
            = Z.to_nat (directory_size self files_to_pack)) as Hdir.
    { rewrite !length_app, length_le_bytes, length_replicate, Hlen.
      unfold directory_size, entry_size. fold total. cbn [length PS2D_magic].
      subst total. nia. }
    unfold data_offset.
    replace (Z.to_nat (directory_size self files_to_pack
                       + Z.of_nat (length (concat (chunk self <$> (take i files_to_pack).*2)))))
      with (Z.to_nat (directory_size self files_to_pack)
            + length (concat (chunk self <$> (take i files_to_pack).*2)))%nat
      by (unfold directory_size; fold total; lia).
    rewrite (drop_app_add' _ _ _ _ (eq_sym Hdir)).
    rewrite <- (take_drop_middle _ _ _ Hi) at 2.
    rewrite fmap_app, fmap_app, concat_app, drop_app_length.
    cbn [fmap list_fmap concat snd]. unfold chunk at 1.
    rewrite <- !app_assoc. by rewrite take_app_length.
Qed.

Lemma X18_witness :
  let files_to_pack : pack_list := [("A", [Byte.x01; Byte.x02]); ("B", [Byte.x03])] in
  exists image (offset : Z),
    _write_ps2_image default_builder files_to_pack = (image, Ok tt)
    /\ offset mod 2048 = 0
    /\ take 1 (drop (Z.to_nat offset) image) = [Byte.x03].
Proof.
  intros files_to_pack.
  destruct (_write_ps2_image default_builder files_to_pack) as [image [[]|e]] eqn:Hw;
    [|vm_compute in Hw; discriminate].
  destruct (X18_directory_entries_point_at_the_files default_builder files_to_pack image)
    as (_ & _ & Hentries); [reflexivity|discriminate|exact Hw|].
  destruct (Hentries 1%nat "B" [Byte.x03] eq_refl)
    as (field & offset & _ & _ & Haligned & _ & Hdata).
  exists image, offset. split; [reflexivity|]. split; [exact Haligned|exact Hdata].
Defined.

(** X19. The name field has the width [max_filename_length] and ends in a
    zero byte.  What a reader takes from it, the bytes before the first zero
    byte, is the name cut to one byte less than the width: a name that is
    short enough is read back as it is, a longer one is cut without an error,
    and two names with the same first bytes get the same field. *)
Theorem X19_long_names_are_cut_and_collide (self : PS2ImageBuilder)
    (name : string) (field : list Byte.byte) :
  1 <= max_filename_length self ->
  name_field self name = Ok field ->
  length field = Z.to_nat (max_filename_length self)
  /\ c_string field
     = take (Z.to_nat (max_filename_length self - 1))
         (c_string (String.list_byte_of_string name))
  /\ forall (name' : string) (field' : list Byte.byte),
       name_field self name' = Ok field' ->
       take (Z.to_nat (max_filename_length self - 1)) (String.list_byte_of_string name)
       = take (Z.to_nat (max_filename_length self - 1)) (String.list_byte_of_string name') ->
       field = field'.
Proof.
  intros Hname Hfield.
  destruct (name_field_inv self Hname _ _ Hfield) as (_ & Hf & Hlen).
  split; [done|]. split.
  - rewrite Hf.
    set (cut := take _ (String.list_byte_of_string name)).
    assert (length cut <= Z.to_nat (max_filename_length self - 1))%nat
      by (subst cut; rewrite length_take; lia).
    replace (Z.to_nat (max_filename_length self) - length cut)%nat
      with (S (Z.to_nat (max_filename_length self) - length cut - 1)) by lia.
    subst cut. apply c_string_take.
  - intros name' field' Hfield' Hsame.
    destruct (name_field_inv self Hname _ _ Hfield') as (_ & Hf' & _).
    by rewrite Hf, Hf', Hsame.
Qed.

Lemma X19_witness :
  let long := "assets/levels/world_one/atlas_t0.raw" in
  let other := "assets/levels/world_one/atlas_t1.raw" in
  exists field,
    name_field default_builder long = Ok field
    /\ name_field default_builder other = Ok field
    /\ length field = 32%nat.
Proof.
  intros long other.
  destruct (name_field default_builder long) as [field|e] eqn:Hfield;
    [|vm_compute in Hfield; discriminate].
  destruct (name_field default_builder other) as [field'|e] eqn:Hfield';
    [|vm_compute in Hfield'; discriminate].
  destruct (X19_long_names_are_cut_and_collide default_builder long field)
    as (Hlen & _ & Hsame); [discriminate|exact Hfield|].
  exists field. split; [reflexivity|]. split; [|exact Hlen].
  f_equal. symmetry. apply (Hsame other field' Hfield'). reflexivity.
Defined.
